(** * text-charset-detection: UTF-8 / UTF-16 signature and content checks

    A shallow embedding of [src/text-charset-detection/detcharset.cpp].

    - Pointers into the sample buffer are modelled as [Z] offsets from the
      start of the allocated array; a read outside the array is the fault
      [OutOfBounds].
    - [size_t] values are [Z] with the wrap-around modulo 2^64 written out
      where the source computes on them.
    - Output parameters passed by reference become components of the
      returned value; [reason] is threaded explicitly.
    - [std::ifstream] is a record of content, read position and state bits,
      with the operations the source calls on it. *)

From Stdlib Require Import ZArith List String Ascii Bool Lia.
From Stdlib Require Import Strings.Byte.
From Stdlib Require Import DecimalString.
Import ListNotations.

Local Open Scope string_scope.
Local Open Scope Z_scope.

(** ** Faults and the error monad *)

Inductive fault : Type :=
| OutOfBounds      (* read outside the allocated buffer *)
| AssertFailed     (* assert(...) violated *)
| NullPointer      (* a nullptr became the scan cursor *)
| OutOfFuel        (* the loop model ran out of iterations *)
| BadAlloc         (* std::make_unique could not allocate *)
| LogicError.      (* throw std::logic_error *)

Inductive result (A : Type) : Type :=
| Ok (a : A)
| Fault (f : fault).

Arguments Ok {A} a.
Arguments Fault {A} f.

Definition bind {A B : Type} (m : result A) (k : A -> result B) : result B :=
  match m with
  | Ok a => k a
  | Fault f => Fault f
  end.

Notation "x <- m ;; k" := (bind m (fun x => k))
  (at level 61, m at next level, right associativity).
Notation "' pat <- m ;; k" := (bind m (fun x => match x with pat => k end))
  (at level 61, pat pattern, m at next level, right associativity).

(** C's short-circuit [&&] and [||] over operands that read memory: the
    right operand is evaluated (and may fault) only when the left one does
    not decide the result. *)
Definition and_then (a b : result bool) : result bool :=
  x <- a ;; if x then b else Ok false.

Definition or_else (a b : result bool) : result bool :=
  x <- a ;; if x then Ok true else b.

Infix "&&&" := and_then (at level 40, left associativity).
Infix "|||" := or_else (at level 50, left associativity).

(** ** Bytes, sizes and the buffer *)

(** [utf8_checking_unit_t] is [unsigned char]; its value as an integer. *)
Definition u8 (b : byte) : Z := Z.of_N (Byte.to_N b).

(** [size_t] is 64 bits wide. *)
Definition SIZE_MOD : Z := 2 ^ 64.
Definition to_size_t (z : Z) : Z := z mod SIZE_MOD.

Definition blen (buf : list byte) : Z := Z.of_nat (List.length buf).

(** [ucharPtr[i]]: the byte at offset [i] of the array. *)
Definition rd (buf : list byte) (i : Z) : result Z :=
  if i <? 0 then Fault OutOfBounds
  else match nth_error buf (Z.to_nat i) with
       | Some b => Ok (u8 b)
       | None => Fault OutOfBounds
       end.

(** [lo <= ucharPtr[i] && ucharPtr[i] <= hi] *)
Definition in_range (buf : list byte) (i lo hi : Z) : result bool :=
  b <- rd buf i ;; Ok ((lo <=? b) && (b <=? hi)).

(** [ucharPtr[i] == v] *)
Definition is_byte (buf : list byte) (i v : Z) : result bool :=
  b <- rd buf i ;; Ok (b =? v).

(** ** Constants *)

Definition UTF8_MAX_CHAR_SIZE : Z := 4.
Definition UTF8_NO_BOM_TEXT_SAMPLE_SIZE : Z := 0.
Definition UTF8_TINY_MODE_SIZE_LIMIT : Z := 1000000000.
Definition UTF8_SUBCLASSIFY_TOO_LONG_SEQUENCES : bool := true.
Definition UTF8_DETAILED_ERROR_LIST : bool := true.

(** ** Rendering *)

Definition endl : string := String (ascii_of_nat 10) EmptyString.

Definition bit_char (z : Z) (k : Z) : string :=
  if Z.testbit z k then "1" else "0".

(** [std::bitset<8>(uchar).to_string()]: most significant bit first. *)
Definition UcharToBinStr (uchar : Z) : string :=
  bit_char uchar 7 ++ bit_char uchar 6 ++ bit_char uchar 5 ++ bit_char uchar 4 ++
  bit_char uchar 3 ++ bit_char uchar 2 ++ bit_char uchar 1 ++ bit_char uchar 0.

(** The [for (i = 1; i < len; ++i)] loop of [UcharSeqToBinStr]; [n] is the
    number of iterations left. *)
Fixpoint UcharSeqToBinStr_loop (buf : list byte) (ucharPtr : Z) (n : nat) (i : Z)
    (retval : string) : result string :=
  match n with
  | O => Ok retval
  | S n' =>
      b <- rd buf (ucharPtr + i) ;;
      UcharSeqToBinStr_loop buf ucharPtr n' (i + 1) (retval ++ " " ++ UcharToBinStr b)
  end.

Definition UcharSeqToBinStr (buf : list byte) (ucharPtr : Z) (len : Z) : result string :=
  if len =? 0 then Ok "[]"
  else
    b0 <- rd buf ucharPtr ;;
    retval <- UcharSeqToBinStr_loop buf ucharPtr (Z.to_nat (len - 1)) 1
                ("[" ++ UcharToBinStr b0) ;;
    Ok (retval ++ "]").

(** [std::to_string] of a non-negative or negative integer. *)
Definition to_string (z : Z) : string := NilZero.string_of_int (Z.to_int z).

(** ** Byte classifier *)

Definition UTF8CharASCII7 (buf : list byte) (ucharPtr : Z) : result bool :=
  is_byte buf ucharPtr 0x09 |||
  is_byte buf ucharPtr 0x0A |||
  is_byte buf ucharPtr 0x0D |||
  in_range buf ucharPtr 0x20 0x7E.

Definition UTF8InvalidControlChar (buf : list byte) (ucharPtr : Z) : result bool :=
  (b <- rd buf ucharPtr ;; Ok (Z.land b 0x80 =? 0)) &&&
  (a <- UTF8CharASCII7 buf ucharPtr ;; Ok (negb a)).

Definition UTF8CharValid2Bytes (buf : list byte) (ucharPtr : Z) : result bool :=
  in_range buf ucharPtr 0xC2 0xDF &&&
  in_range buf (ucharPtr + 1) 0x80 0xBF.

Definition UTF8Invalid2BytesOverlong (buf : list byte) (ucharPtr : Z) : result bool :=
  in_range buf ucharPtr 0xC0 0xC1.

Definition UTF8CharValid3Bytes (buf : list byte) (ucharPtr : Z) : result bool :=
  ((in_range buf ucharPtr 0xE1 0xEC ||| is_byte buf ucharPtr 0xEE ||| is_byte buf ucharPtr 0xEF) &&&
     in_range buf (ucharPtr + 1) 0x80 0xBF &&&
     in_range buf (ucharPtr + 2) 0x80 0xBF)
  |||
  (is_byte buf ucharPtr 0xE0 &&&
     in_range buf (ucharPtr + 1) 0xA0 0xBF &&&
     in_range buf (ucharPtr + 2) 0x80 0xBF)
  |||
  (is_byte buf ucharPtr 0xED &&&
     in_range buf (ucharPtr + 1) 0x80 0x9F &&&
     in_range buf (ucharPtr + 2) 0x80 0xBF).

Definition UTF8Invalid3BytesOverlong (buf : list byte) (ucharPtr : Z) : result bool :=
  is_byte buf ucharPtr 0xE0 &&&
  in_range buf (ucharPtr + 1) 0x80 0x9F.

Definition UTF8Invalid3BytesSurrogateHalf (buf : list byte) (ucharPtr : Z) : result bool :=
  is_byte buf ucharPtr 0xED &&&
  in_range buf (ucharPtr + 1) 0xA0 0xBF.

Definition UTF8CharValid4Bytes (buf : list byte) (ucharPtr : Z) : result bool :=
  (is_byte buf ucharPtr 0xF0 &&&
     in_range buf (ucharPtr + 1) 0x90 0xBF &&&
     in_range buf (ucharPtr + 2) 0x80 0xBF &&&
     in_range buf (ucharPtr + 3) 0x80 0xBF)
  |||
  (in_range buf ucharPtr 0xF1 0xF3 &&&
     in_range buf (ucharPtr + 1) 0x80 0xBF &&&
     in_range buf (ucharPtr + 2) 0x80 0xBF &&&
     in_range buf (ucharPtr + 3) 0x80 0xBF)
  |||
  (is_byte buf ucharPtr 0xF4 &&&
     in_range buf (ucharPtr + 1) 0x80 0x8F &&&
     in_range buf (ucharPtr + 2) 0x80 0xBF &&&
     in_range buf (ucharPtr + 3) 0x80 0xBF).

Definition UTF8Invalid4BytesOverlong (buf : list byte) (ucharPtr : Z) : result bool :=
  is_byte buf ucharPtr 0xF0 &&&
  in_range buf (ucharPtr + 1) 0x80 0xBF.

(** Returns [Some codePoint] when the source returns true (having assigned
    the output parameter) and [None] when it returns false (leaving it
    untouched).  [unsigned int] is 32 bits; the operands are below 2^18. *)
Definition UTF8InvalidCodePoint4BytesF4 (buf : list byte) (ucharPtr : Z)
    : result (option Z) :=
  c <- is_byte buf ucharPtr 0xF4 &&&
       (b1 <- rd buf (ucharPtr + 1) ;; Ok ((0x90 <=? b1) && (0xBF <=? b1))) ;;
  if c then
    b1 <- rd buf (ucharPtr + 1) ;;
    b2 <- rd buf (ucharPtr + 2) ;;
    b3 <- rd buf (ucharPtr + 3) ;;
    Ok (Some (Z.lor (Z.lor (Z.shiftl (Z.land b1 0x3F) 12)
                           (Z.shiftl (Z.land b2 0x3F) 6))
                    (Z.land b3 0x3F)))
  else Ok None.

Definition UTF8InvalidCodePoint4BytesNonF4 (buf : list byte) (ucharPtr : Z) : result bool :=
  in_range buf ucharPtr 0xF5 0xF7.

(** ** Leading-byte decoder *)

(** Returns [(bValid, utf8sequenceLength)].  The successive [>>=] act on
    the local copy of the byte; 0x3E = 0b111110, 0x7E = 0b1111110,
    0x7F = 0b1111111, 0x1E = 0b11110, 0xE = 0b1110, 6 = 0b110. *)
Definition UTF8IsValidLeadingByte (buf : list byte) (ucharPtr : Z) : result (bool * Z) :=
  leadingByte <- rd buf ucharPtr ;;
  if UTF8_SUBCLASSIFY_TOO_LONG_SEQUENCES && (Z.shiftr leadingByte 2 =? 0x3E) then Ok (false, 5)
  else if UTF8_SUBCLASSIFY_TOO_LONG_SEQUENCES && (Z.shiftr leadingByte 1 =? 0x7E) then Ok (false, 6)
  else if UTF8_SUBCLASSIFY_TOO_LONG_SEQUENCES && (Z.shiftr leadingByte 1 =? 0x7F) then Ok (false, 1)
  else
    let leadingByte := Z.shiftr leadingByte 3 in
    if leadingByte =? 0x1E then Ok (true, 4)
    else
      let leadingByte := Z.shiftr leadingByte 1 in
      if leadingByte =? 0xE then Ok (true, 3)
      else
        let leadingByte := Z.shiftr leadingByte 1 in
        if leadingByte =? 6 then Ok (true, 2)
        else
          let leadingByte := Z.shiftr leadingByte 2 in
          if leadingByte =? 0 then Ok (true, 1)
          else Ok (false, 1).

Definition UTF8IsContinuationByte (buf : list byte) (ucharPtr : Z) : result bool :=
  b <- rd buf ucharPtr ;; Ok (Z.land b 0xC0 =? 0x80).

(** ** Continuation verifier *)

(** The [for (idx = 1; idx < checkUntil; ++idx)] loop; [n] is the number of
    iterations left.  Carries [bMismatchFound] and
    [whereToContinueChecking] ([None] is [nullptr]). *)
Fixpoint continuation_loop (buf : list byte) (ucharPtr : Z) (n : nat) (idx : Z)
    (bMismatchFound : bool) (whereToContinueChecking : option Z)
    : result (bool * option Z) :=
  match n with
  | O => Ok (bMismatchFound, whereToContinueChecking)
  | S n' =>
      c <- UTF8IsContinuationByte buf (ucharPtr + idx) ;;
      if negb c then Ok (true, Some (ucharPtr + idx))
      else continuation_loop buf ucharPtr n' (idx + 1) bMismatchFound whereToContinueChecking
  end.

(** Returns [(bTruncated, bMismatchFound, whereToContinueChecking)]; the
    last two are in/out parameters and keep the caller's value on the paths
    that do not assign them. *)
Definition UTF8InvalidNrOfContinuationBytes (buf : list byte) (ucharPtr : Z)
    (requiredContinuationBytes bufferRemains : Z)
    (bMismatchFound : bool) (whereToContinueChecking : option Z)
    : result (bool * bool * option Z) :=
  let '(bTruncated, whereToContinueChecking, checkUntil) :=
    if to_size_t (requiredContinuationBytes + 1) >? bufferRemains
    then (true, Some (ucharPtr + bufferRemains), bufferRemains)
    else (false, whereToContinueChecking, to_size_t (requiredContinuationBytes + 1)) in
  '(bMismatchFound, whereToContinueChecking) <-
     continuation_loop buf ucharPtr (Z.to_nat (checkUntil - 1)) 1
       bMismatchFound whereToContinueChecking ;;
  Ok (bTruncated, bMismatchFound, whereToContinueChecking).

(** [ucharPtr = ucharPtrUpdate]: the cursor must be a position. *)
Definition ptr_value (p : option Z) : result Z :=
  match p with
  | Some q => Ok q
  | None => Fault NullPointer
  end.

(** Returns [(result, ucharPtr, reason)]. *)
Definition UTF8InvalidLeadingOrContinuation (buf : list byte)
    (ucharPtr charBufStartPtr charBufEndPtr : Z) (reason : string)
    : result (bool * Z * string) :=
  let position := to_string (ucharPtr - charBufStartPtr) in
  '(bLeadingByteValid, utf8sequenceLength) <- UTF8IsValidLeadingByte buf ucharPtr ;;
  if negb bLeadingByteValid then
    let '(bytesToRead, suffix) :=
      if utf8sequenceLength >? to_size_t (charBufEndPtr - ucharPtr)
      then (to_size_t (charBufEndPtr - ucharPtr), "<end-of-buffer>")
      else (utf8sequenceLength, "") in
    dump <- UcharSeqToBinStr buf ucharPtr bytesToRead ;;
    Ok (true, ucharPtr + bytesToRead,
        reason ++ "Invalid leading byte found at " ++ position ++ " (assumed length="
          ++ to_string utf8sequenceLength ++ "): " ++ dump ++ suffix ++ endl)
  else
    '(bTruncated, bMisMatch, ucharPtrUpdate) <-
       UTF8InvalidNrOfContinuationBytes buf ucharPtr
         (to_size_t (utf8sequenceLength - 1)) (to_size_t (charBufEndPtr - ucharPtr))
         false None ;;
    if bTruncated then
      dump <- UcharSeqToBinStr buf ucharPtr (to_size_t (charBufEndPtr - ucharPtr)) ;;
      q <- ptr_value ucharPtrUpdate ;;
      Ok (true, q,
          reason ++ "Invalid nr of continuation bytes after leading byte [possible truncation] at "
            ++ position ++ ": " ++ dump ++ "<end-of-buffer>" ++ endl)
    else if bMisMatch then
      dump <- UcharSeqToBinStr buf ucharPtr utf8sequenceLength ;;
      q <- ptr_value ucharPtrUpdate ;;
      Ok (true, q,
          reason ++ "Invalid nr of continuation bytes after leading byte [unexpected non-continuation byte] at "
            ++ position ++ ": " ++ dump ++ endl)
    else Ok (false, ucharPtr, reason).

(** ** Per-character validation *)

(** Returns [(ucharPtr, bThisCharValidUTF8, bThisCharValidASCII7, reason)].
    The template parameter [bBufferEndCheck] is an ordinary argument.  The
    exit through [assert(false)], on which the source assigns neither
    output, is the fault [AssertFailed]. *)
Definition UTF8CharValidate (bBufferEndCheck : bool) (buf : list byte)
    (ucharPtr charBufEndPtr : Z) (reason : string)
    : result (Z * bool * bool * string) :=
  if bBufferEndCheck && (ucharPtr >? charBufEndPtr - 1) then Fault AssertFailed
  else
    a <- UTF8CharASCII7 buf ucharPtr ;;
    if a then Ok (ucharPtr + 1, true, true, reason)
    else if bBufferEndCheck && (ucharPtr >? charBufEndPtr - 2) then
      Ok (ucharPtr, false, false,
          reason ++ "Not valid 1-byte UTF-8 at the end, no room for testing any 2-byte UTF-8 sequence --> considered non-UTF-8" ++ endl)
    else
      v2 <- UTF8CharValid2Bytes buf ucharPtr ;;
      if v2 then Ok (ucharPtr + 2, true, false, reason)
      else if bBufferEndCheck && (ucharPtr >? charBufEndPtr - 3) then
        Ok (ucharPtr, false, false,
            reason ++ "Not valid 1 or 2-byte UTF-8 at the end, no room for testing any 3-byte UTF-8 sequence --> considered non-UTF-8" ++ endl)
      else
        v3 <- UTF8CharValid3Bytes buf ucharPtr ;;
        if v3 then Ok (ucharPtr + 3, true, false, reason)
        else if bBufferEndCheck && (ucharPtr >? charBufEndPtr - 4) then
          Ok (ucharPtr, false, false,
              reason ++ "Not valid 1,2, or 3-byte UTF-8 at the end, no room for testing any 4-byte UTF-8 sequence --> considered non-UTF-8" ++ endl)
        else
          v4 <- UTF8CharValid4Bytes buf ucharPtr ;;
          if v4 then Ok (ucharPtr + 4, true, false, reason)
          else Ok (ucharPtr, false, false, reason ++ "Found invalid UTF-8 sequence" ++ endl).

(** ** Error classifier *)

(** Returns [(ucharPtr, reason)]. *)
Definition UTF8CheckErrors (buf : list byte)
    (ucharPtr charBufStartPtr charBufEndPtr : Z) (reason : string)
    : result (Z * string) :=
  if ucharPtr >? charBufEndPtr - 1 then Ok (ucharPtr, reason)
  else
    let position := to_string (ucharPtr - charBufStartPtr) in
    '(bad, ucharPtr, reason) <-
       UTF8InvalidLeadingOrContinuation buf ucharPtr charBufStartPtr charBufEndPtr reason ;;
    if bad then Ok (ucharPtr, reason)
    else
      ctl <- UTF8InvalidControlChar buf ucharPtr ;;
      if ctl then
        dump <- UcharSeqToBinStr buf ucharPtr 1 ;;
        Ok (ucharPtr + 1,
            reason ++ "Invalid 1 byte sequence: control char found at " ++ position ++ ": "
              ++ dump ++ endl)
      else if ucharPtr >? charBufEndPtr - 2 then
        dump <- UcharSeqToBinStr buf ucharPtr (to_size_t (charBufEndPtr - ucharPtr)) ;;
        Ok (charBufEndPtr,
            reason ++ "Unknown UTF-8 error: checked all 1-byte possibilities, reached end of buffer at position "
              ++ position ++ ": " ++ dump ++ "<end-of-buffer>" ++ endl)
      else
        o2 <- UTF8Invalid2BytesOverlong buf ucharPtr ;;
        if o2 then
          dump <- UcharSeqToBinStr buf ucharPtr 2 ;;
          Ok (ucharPtr + 2,
              reason ++ "Invalid 2-byte overlong found at " ++ position ++ ": " ++ dump ++ endl)
        else if ucharPtr >? charBufEndPtr - 3 then
          dump <- UcharSeqToBinStr buf ucharPtr (to_size_t (charBufEndPtr - ucharPtr)) ;;
          Ok (charBufEndPtr,
              reason ++ "Unknown UTF-8 error: checked all 1,2-byte possibilities, reached end of buffer at position "
                ++ position ++ ": " ++ dump ++ "<end-of-buffer>" ++ endl)
        else
          o3 <- UTF8Invalid3BytesOverlong buf ucharPtr ;;
          if o3 then
            dump <- UcharSeqToBinStr buf ucharPtr 3 ;;
            Ok (ucharPtr + 3,
                reason ++ "Invalid 3-byte overlong found at " ++ position ++ ": " ++ dump ++ endl)
          else
            sh <- UTF8Invalid3BytesSurrogateHalf buf ucharPtr ;;
            if sh then
              dump <- UcharSeqToBinStr buf ucharPtr 3 ;;
              Ok (ucharPtr + 3,
                  reason ++ "Invalid UTF-16 surrogate half found at " ++ position ++ ": "
                    ++ dump ++ endl)
            else if ucharPtr >? charBufEndPtr - 4 then
              dump <- UcharSeqToBinStr buf ucharPtr (to_size_t (charBufEndPtr - ucharPtr)) ;;
              Ok (charBufEndPtr,
                  reason ++ "Unknown UTF-8 error: checked all 1,2,3-byte possibilities, reached end of buffer at position "
                    ++ position ++ ": " ++ dump ++ "<end-of-buffer>" ++ endl)
            else
              o4 <- UTF8Invalid4BytesOverlong buf ucharPtr ;;
              if o4 then
                dump <- UcharSeqToBinStr buf ucharPtr 4 ;;
                Ok (ucharPtr + 4,
                    reason ++ "Invalid 4-byte overlong found at " ++ position ++ ": "
                      ++ dump ++ endl)
              else
                f4 <- UTF8InvalidCodePoint4BytesF4 buf ucharPtr ;;
                match f4 with
                | Some dummy =>
                    dump <- UcharSeqToBinStr buf ucharPtr 4 ;;
                    Ok (ucharPtr + 4,
                        reason ++ "Invalid code point specified by 4-byte encoding (F4) at "
                          ++ position ++ ": " ++ dump ++ endl)
                | None =>
                    nf4 <- UTF8InvalidCodePoint4BytesNonF4 buf ucharPtr ;;
                    if nf4 then
                      dump <- UcharSeqToBinStr buf ucharPtr 4 ;;
                      Ok (ucharPtr + 4,
                          reason ++ "Invalid code point specified by 4-byte encoding (non-F4) at "
                            ++ position ++ ": " ++ dump ++ endl)
                    else
                      let safeBufDumpSize :=
                        to_size_t (if 16 <? charBufEndPtr - ucharPtr then 16
                                   else charBufEndPtr - ucharPtr) in
                      dump <- UcharSeqToBinStr buf ucharPtr safeBufDumpSize ;;
                      Ok (ucharPtr + 1,
                          reason ++ "Unknown UTF-8 error: checked all known UTF-8 error classes, none of them matched at "
                            ++ position ++ " (assumed length=1): " ++ dump ++ endl)
                end.


(** ** Scan driver *)

(** The variables of [CheckStreamForUTF8NoBOMInternal] that live across
    iterations of its loop. *)
Record scan_state : Type := mkScan {
  st_ucharPtr : Z;
  st_bValidUTF8 : bool;
  st_b7bitASCIIOnly : bool;
  st_reason : string
}.

(** One execution of the body of [while (ucharPtr < stopPos)]; the second
    component tells whether the body left through [break]. *)
Definition scan_iteration (bBufferEndCheck : bool) (buf : list byte)
    (bufferStart stopPos : Z) (st : scan_state) : result (scan_state * bool) :=
  '(ucharPtr, bThisCharValid, bThisCharValid7bitASCII, reason) <-
     UTF8CharValidate bBufferEndCheck buf (st_ucharPtr st) stopPos (st_reason st) ;;
  let bValidUTF8 := st_bValidUTF8 st && bThisCharValid in
  let b7bitASCIIOnly := st_b7bitASCIIOnly st && bThisCharValid7bitASCII in
  if negb bValidUTF8 && negb UTF8_DETAILED_ERROR_LIST then
    Ok (mkScan ucharPtr bValidUTF8 b7bitASCIIOnly reason, true)
  else if negb bThisCharValid then
    '(ucharPtr, reason) <- UTF8CheckErrors buf ucharPtr bufferStart stopPos reason ;;
    Ok (mkScan ucharPtr bValidUTF8 b7bitASCIIOnly reason, false)
  else Ok (mkScan ucharPtr bValidUTF8 b7bitASCIIOnly reason, false).

(** The [while] loop; each iteration uses one unit of [fuel]. *)
Fixpoint scan_loop (bBufferEndCheck : bool) (buf : list byte)
    (bufferStart stopPos : Z) (fuel : nat) (st : scan_state) : result scan_state :=
  if st_ucharPtr st <? stopPos then
    match fuel with
    | O => Fault OutOfFuel
    | S fuel' =>
        '(st', brk) <- scan_iteration bBufferEndCheck buf bufferStart stopPos st ;;
        if brk then Ok st'
        else scan_loop bBufferEndCheck buf bufferStart stopPos fuel' st'
    end
  else Ok st.

(** Returns [(bValidUTF8, b7bitASCIIOnly, reason)].  The loop is given one
    iteration per byte between [bufferStart] and [stopPos]. *)
Definition CheckStreamForUTF8NoBOMInternal (bBufferEndCheck : bool) (buf : list byte)
    (bufferStart stopPos : Z) (reason : string) : result (bool * bool * string) :=
  st <- scan_loop bBufferEndCheck buf bufferStart stopPos
          (Z.to_nat (stopPos - bufferStart))
          (mkScan bufferStart true true reason) ;;
  Ok (st_bValidUTF8 st, st_b7bitASCIIOnly st, st_reason st).

(** ** The stream collaborator

    [std::ifstream] over a file opened in binary mode, as far as the source
    uses it: content, read position, the three state bits and the count of
    the last unformatted read.  The operations follow the C++11 library
    clauses for [basic_istream]: every unformatted input function first
    builds a sentry, which sets [failbit] when the stream is not [good()];
    [seekg] clears [eofbit] before that. *)

Record ifstream : Type := mkStream {
  content : list byte;
  gpos : Z;
  eofbit : bool;
  failbit : bool;
  badbit : bool;
  last_gcount : Z
}.

Definition good (s : ifstream) : bool := negb (eofbit s || failbit s || badbit s).
Definition fail (s : ifstream) : bool := failbit s || badbit s.
Definition eof (s : ifstream) : bool := eofbit s.
Definition gcount (s : ifstream) : Z := last_gcount s.

Definition setstate_fail (s : ifstream) : ifstream :=
  mkStream (content s) (gpos s) (eofbit s) true (badbit s) (last_gcount s).

Definition clear (s : ifstream) : ifstream :=
  mkStream (content s) (gpos s) false false false (last_gcount s).

Definition sentry (s : ifstream) : ifstream :=
  if good s then s else setstate_fail s.

(** [ifs.tellg()]: the position, or [pos_type(-1)] on a failed stream. *)
Definition tellg (s : ifstream) : Z * ifstream :=
  let s := sentry s in
  (if fail s then -1 else gpos s, s).

(** Repositioning to an absolute offset.  A negative offset fails; an offset
    past the end of the file is accepted, as a file stream accepts it (a read
    from there meets the end of the file at once). *)
Definition seek_to (s : ifstream) (target : Z) : ifstream :=
  let s := mkStream (content s) (gpos s) false (failbit s) (badbit s) (last_gcount s) in
  let s := sentry s in
  if fail s then s
  else if 0 <=? target
       then mkStream (content s) target (eofbit s) (failbit s) (badbit s) (last_gcount s)
       else setstate_fail s.

(** [ifs.seekg(pos)] *)
Definition seekg (s : ifstream) (pos : Z) : ifstream := seek_to s pos.

(** [ifs.seekg(off, std::ios::end)] *)
Definition seekg_end (s : ifstream) (off : Z) : ifstream :=
  seek_to s (blen (content s) + off).

(** [ifs.read(dst, n)]: the bytes stored into [dst] and the stream after. *)
Definition read (s : ifstream) (n : Z) : list byte * ifstream :=
  if good s then
    let got := firstn (Z.to_nat n) (skipn (Z.to_nat (gpos s)) (content s)) in
    let k := blen got in
    (got, mkStream (content s) (gpos s + k)
            (if k <? n then true else eofbit s)
            (if k <? n then true else failbit s)
            (badbit s) k)
  else ([], mkStream (content s) (gpos s) (eofbit s) true (badbit s) 0).

(** A stream just opened on a file with the given bytes. *)
Definition ifstream_open (data : list byte) : ifstream :=
  mkStream data 0 false false false 0.

(** [std::make_unique<utf8_checking_unit_t[]>(n)]: a zero-filled array.
    Requests up to [PTRDIFF_MAX] bytes are taken to succeed; larger ones
    throw. *)
Definition make_unique_array (n : Z) : result (list byte) :=
  if n <? 2 ^ 63 then Ok (repeat x00 (Z.to_nat n)) else Fault BadAlloc.

(** ** Sample reader *)

(** Returns [(sampleTextBuffer, allocBufferSize, usableBufferSize, ifs)]. *)
Definition ReadSampleToBuffer (ifs : ifstream) : result (list byte * Z * Z * ifstream) :=
  let '(savedStreamPos, ifs) := tellg ifs in
  let ifs := seekg_end ifs 0 in
  let '(endPos, ifs) := tellg ifs in
  let bytesTillEndOfStream := to_size_t endPos in
  let ifs := seekg ifs savedStreamPos in
  let allocBufferSize :=
    if (UTF8_NO_BOM_TEXT_SAMPLE_SIZE =? 0) || (UTF8_NO_BOM_TEXT_SAMPLE_SIZE >? bytesTillEndOfStream)
    then bytesTillEndOfStream
    else UTF8_NO_BOM_TEXT_SAMPLE_SIZE in
  zeroed <- make_unique_array allocBufferSize ;;
  let '(got, ifs) := read ifs allocBufferSize in
  let sampleTextBuffer := (got ++ skipn (List.length got) zeroed)%list in
  let usableBufferSize := gcount ifs in
  let ifs := if usableBufferSize <? allocBufferSize then clear ifs else ifs in
  let ifs := seekg ifs savedStreamPos in
  Ok (sampleTextBuffer, allocBufferSize, usableBufferSize, ifs).

(** ** Signature matcher *)

Definition SIGNATURE_CHECK_RESULT_FAIL : Z := 0.
Definition SIGNATURE_CHECK_RESULT_NOT_FOUND : Z := 1.
Definition SIGNATURE_CHECK_RESULT_FOUND : Z := 2.

(** The comparison loop of [CheckStreamForSignature]; [n] is the number of
    iterations left.  Returns whether a differing byte was met. *)
Fixpoint signature_loop (readBuf signature : list byte) (n : nat) (idx : Z) : result bool :=
  match n with
  | O => Ok false
  | S n' =>
      r <- rd readBuf idx ;;
      s <- rd signature idx ;;
      if negb (r =? s) then Ok true
      else signature_loop readBuf signature n' (idx + 1)
  end.

(** Returns [(result, ifs, reason)]; [N] is the length of [signature]. *)
Definition CheckStreamForSignature (ifs : ifstream) (reason : string)
    (signature : list byte) : result (Z * ifstream * string) :=
  let N := blen signature in
  if fail ifs then Ok (SIGNATURE_CHECK_RESULT_FAIL, ifs, reason ++ "stream.fail()" ++ endl)
  else if eof ifs then Ok (SIGNATURE_CHECK_RESULT_FAIL, ifs, reason ++ "stream empty" ++ endl)
  else
    let '(savedStreamPos, ifs) := tellg ifs in
    let '(readBuf, ifs) := read ifs N in
    if gcount ifs <? N then
      let ifs := clear ifs in
      let ifs := seekg ifs savedStreamPos in
      Ok (SIGNATURE_CHECK_RESULT_NOT_FOUND, ifs, reason)
    else
      differs <- signature_loop readBuf signature (Z.to_nat N) 0 ;;
      if differs then
        let ifs := if fail ifs then clear ifs else ifs in
        let ifs := seekg ifs savedStreamPos in
        Ok (SIGNATURE_CHECK_RESULT_NOT_FOUND, ifs, reason)
      else Ok (SIGNATURE_CHECK_RESULT_FOUND, ifs, reason).

(** ** Public operations *)

(** Lines 598-607 of [CheckStreamForUTF8NoBOM]: the choice between the
    unchecked scan of all but the last [UTF8_MAX_CHAR_SIZE] bytes and the
    bounds-checked scan of the whole sample.  [bufferStart] is offset 0.
    Returns [(bValidUTF8, b7bitASCIIOnly, reason)]. *)
Definition sample_scan (sampleTextBuffer : list byte) (readCount : Z) (reason : string)
    : result (bool * bool * string) :=
  let bufferStart := 0 in
  if readCount >=? UTF8_TINY_MODE_SIZE_LIMIT then
    CheckStreamForUTF8NoBOMInternal false sampleTextBuffer bufferStart
      (bufferStart + readCount - UTF8_MAX_CHAR_SIZE) reason
  else
    CheckStreamForUTF8NoBOMInternal true sampleTextBuffer bufferStart
      (bufferStart + readCount)
      (reason ++ "text is shorter than a predefined limit, checking entire buffer" ++ endl).

(** Returns [(result, ifs, reason)]. *)
Definition CheckStreamForUTF8NoBOM (ifs : ifstream) (reason : string)
    : result (bool * ifstream * string) :=
  '(sampleTextBuffer, allocBufferSize, readCount, ifs) <- ReadSampleToBuffer ifs ;;
  '(bValidUTF8, b7bitASCIIOnly, reason) <- sample_scan sampleTextBuffer readCount reason ;;
  let reason := if b7bitASCIIOnly then reason ++ "ASCII 7-bit text" ++ endl else reason in
  let reason :=
    if bValidUTF8 then reason ++ "sample of input contains only valid UTF-8 characters" ++ endl
    else reason in
  if b7bitASCIIOnly then Ok (false, ifs, reason)
  else Ok (bValidUTF8, ifs, reason).

Definition UTF8BOM : list byte := [xef; xbb; xbf].
Definition UTF16LE_BOM : list byte := [xff; xfe].
Definition UTF16BE_BOM : list byte := [xfe; xff].

(** [assert(static_cast<size_t>(ifs.tellg()) == 0)] *)
Definition assert_at_start (ifs : ifstream) : result ifstream :=
  let '(pos, ifs) := tellg ifs in
  if to_size_t pos =? 0 then Ok ifs else Fault AssertFailed.

(** Returns [(result, ifs, reason)]. *)
Definition CheckStreamForUTF8BOM (ifs : ifstream) (reason : string)
    : result (bool * ifstream * string) :=
  ifs <- assert_at_start ifs ;;
  '(checkResult, ifs, reason) <- CheckStreamForSignature ifs reason UTF8BOM ;;
  if checkResult =? SIGNATURE_CHECK_RESULT_FAIL then Ok (false, ifs, reason)
  else if checkResult =? SIGNATURE_CHECK_RESULT_NOT_FOUND then
    Ok (false, ifs, reason ++ "No UTF-8 BOM found" ++ endl)
  else if checkResult =? SIGNATURE_CHECK_RESULT_FOUND then
    Ok (true, ifs, reason ++ "UTF-8 BOM found" ++ endl)
  else Fault LogicError.

(** [bLittleEndian] is a reference parameter: the function receives the
    caller's value and the model returns the value it holds on return.
    Returns [(result, bLittleEndian, ifs, reason)]. *)
Definition CheckStreamForUTF16BOM (ifs : ifstream) (reason : string) (bLittleEndian : bool)
    : result (bool * bool * ifstream * string) :=
  ifs <- assert_at_start ifs ;;
  '(checkResultLE, ifs, reason) <- CheckStreamForSignature ifs reason UTF16LE_BOM ;;
  if checkResultLE =? SIGNATURE_CHECK_RESULT_FAIL then Ok (false, bLittleEndian, ifs, reason)
  else if checkResultLE =? SIGNATURE_CHECK_RESULT_NOT_FOUND then
    '(checkResultBE, ifs, reason) <- CheckStreamForSignature ifs reason UTF16BE_BOM ;;
    if checkResultBE =? SIGNATURE_CHECK_RESULT_FAIL then Ok (false, bLittleEndian, ifs, reason)
    else if checkResultBE =? SIGNATURE_CHECK_RESULT_NOT_FOUND then
      Ok (false, bLittleEndian, ifs, reason ++ "No UTF-16 BOM found" ++ endl)
    else if checkResultBE =? SIGNATURE_CHECK_RESULT_FOUND then
      Ok (true, false, ifs, reason ++ "UTF-16 BE BOM found" ++ endl)
    else Fault LogicError
  else if checkResultLE =? SIGNATURE_CHECK_RESULT_FOUND then
    Ok (true, true, ifs, reason ++ "UTF-16 LE BOM found" ++ endl)
  else Fault LogicError.

(** ** What the specification calls valid

    The second, specification-side description of well-formed input
    (section 4.1 of the specification): a sample is valid UTF-8 when it is a
    concatenation of characters, each of which is an ASCII-valid byte or a
    2-, 3- or 4-byte sequence inside the stated envelopes. *)

Definition spec_ascii_valid (b : byte) : Prop :=
  u8 b = 0x09 \/ u8 b = 0x0A \/ u8 b = 0x0D \/ 0x20 <= u8 b <= 0x7E.

Definition spec_continuation (b : byte) : Prop := 0x80 <= u8 b <= 0xBF.

Inductive spec_valid_char : list byte -> Prop :=
| valid_ascii b :
    spec_ascii_valid b -> spec_valid_char [b]
| valid_2 b0 b1 :
    0xC2 <= u8 b0 <= 0xDF -> spec_continuation b1 ->
    spec_valid_char [b0; b1]
| valid_3 b0 b1 b2 :
    0xE1 <= u8 b0 <= 0xEC \/ u8 b0 = 0xEE \/ u8 b0 = 0xEF ->
    spec_continuation b1 -> spec_continuation b2 ->
    spec_valid_char [b0; b1; b2]
| valid_3_E0 b0 b1 b2 :
    u8 b0 = 0xE0 -> 0xA0 <= u8 b1 <= 0xBF -> spec_continuation b2 ->
    spec_valid_char [b0; b1; b2]
| valid_3_ED b0 b1 b2 :
    u8 b0 = 0xED -> 0x80 <= u8 b1 <= 0x9F -> spec_continuation b2 ->
    spec_valid_char [b0; b1; b2]
| valid_4_F0 b0 b1 b2 b3 :
    u8 b0 = 0xF0 -> 0x90 <= u8 b1 <= 0xBF ->
    spec_continuation b2 -> spec_continuation b3 ->
    spec_valid_char [b0; b1; b2; b3]
| valid_4 b0 b1 b2 b3 :
    0xF1 <= u8 b0 <= 0xF3 -> spec_continuation b1 ->
    spec_continuation b2 -> spec_continuation b3 ->
    spec_valid_char [b0; b1; b2; b3]
| valid_4_F4 b0 b1 b2 b3 :
    u8 b0 = 0xF4 -> 0x80 <= u8 b1 <= 0x8F ->
    spec_continuation b2 -> spec_continuation b3 ->
    spec_valid_char [b0; b1; b2; b3].

Definition spec_valid_utf8 (buf : list byte) : Prop :=
  exists chars : list (list byte),
    Forall spec_valid_char chars /\ List.concat chars = buf.

(** A byte with the high bit set somewhere in the first [upto] bytes. *)
Definition has_high_byte_before (buf : list byte) (upto : Z) : Prop :=
  exists i b, 0 <= i < upto /\ nth_error buf (Z.to_nat i) = Some b /\ 0x80 <= u8 b.

(** The verdict of scanning the characters [chars] laid out from offset [p]
    on, up to [stopPos]: are all characters that start before [stopPos]
    single bytes? *)
Fixpoint scanned_ascii (stopPos p : Z) (chars : list (list byte)) : bool :=
  match chars with
  | [] => true
  | c :: cs =>
      if p <? stopPos
      then (blen c =? 1) && scanned_ascii stopPos (p + blen c) cs
      else true
  end.

(** Where the cursor ends up on that layout. *)
Fixpoint scanned_end (stopPos p : Z) (chars : list (list byte)) : Z :=
  match chars with
  | [] => p
  | c :: cs => if p <? stopPos then scanned_end stopPos (p + blen c) cs else p
  end.

(** A sample fits the address space. *)
Definition addressable (buf : list byte) : Prop := blen buf < SIZE_MOD.

(** A stream in good state positioned inside a file of representable size;
    [sample] is what remains to be read from it. *)
Definition readable (s : ifstream) : Prop :=
  good s = true /\ 0 <= gpos s <= blen (content s) /\ blen (content s) < 2 ^ 63.

Definition sample (s : ifstream) : list byte :=
  skipn (Z.to_nat (gpos s)) (content s).

(** How far [sample_scan] looks into a sample of [len] bytes. *)
Definition scanned_length (len : Z) : Z :=
  if len >=? UTF8_TINY_MODE_SIZE_LIMIT then len - UTF8_MAX_CHAR_SIZE else len.

(** Offsets [lo..hi-1] from [p] all hold continuation bytes. *)
Definition continuation_run (buf : list byte) (p lo hi : Z) : Prop :=
  forall j, lo <= j < hi -> UTF8IsContinuationByte buf (p + j) = Ok true.

(** How far the cursor may get: the unchecked scan may finish a character
    that starts before [stopPos] and ends up to 3 bytes after it. *)
Definition scan_limit (chk : bool) (stop : Z) : Z := if chk then stop else stop + 3.

(** The states the loop of [CheckStreamForUTF8NoBOMInternal] passes through:
    the initial one, and the one after each execution of the body entered
    with the cursor before [stopPos]. *)
Inductive scan_reaches (chk : bool) (buf : list byte) (start stop : Z) (reason0 : string)
    : scan_state -> Prop :=
| reaches_init :
    scan_reaches chk buf start stop reason0 (mkScan start true true reason0)
| reaches_step st st' brk :
    scan_reaches chk buf start stop reason0 st ->
    st_ucharPtr st < stop ->
    scan_iteration chk buf start stop st = Ok (st', brk) ->
    scan_reaches chk buf start stop reason0 st'.

(** The precondition the source asserts: [ifs.tellg() == 0]. *)
Definition at_start (s : ifstream) : Prop := fst (tellg s) = 0.

(** The file begins with the bytes of [signature]. *)
Definition starts_with (signature data : list byte) : Prop :=
  firstn (List.length signature) data = signature.

(** ** Reference descriptions used by the further properties *)

(** The decision table of [UTF8IsValidLeadingByte], by value of the byte, as
    the comments beside its tests list it: 0xxxxxxx, a stray 10xxxxxx,
    110xxxxx, 1110xxxx, 11110xxx, 111110xx, 1111110x, 1111111x. *)
Definition leading_byte_class (z : Z) : bool * Z :=
  if z <=? 0x7F then (true, 1)
  else if z <=? 0xBF then (false, 1)
  else if z <=? 0xDF then (true, 2)
  else if z <=? 0xEF then (true, 3)
  else if z <=? 0xF7 then (true, 4)
  else if z <=? 0xFB then (false, 5)
  else if z <=? 0xFD then (false, 6)
  else (false, 1).

(** The number a string of binary digits denotes, first digit most
    significant. *)
Fixpoint bin_value_from (acc : Z) (s : string) : Z :=
  match s with
  | EmptyString => acc
  | String c s' => bin_value_from (2 * acc + (if Ascii.eqb c "1" then 1 else 0)) s'
  end.

Definition bin_string_value (s : string) : Z := bin_value_from 0 s.

(** The text [UcharSeqToBinStr] is meant to produce for a window of bytes:
    the octets in binary, separated by single spaces, in brackets. *)
Fixpoint render_tail (w : list byte) : string :=
  match w with
  | [] => ""
  | b :: w' => " " ++ UcharToBinStr (u8 b) ++ render_tail w'
  end.

Definition render_bytes (w : list byte) : string :=
  match w with
  | [] => "[]"
  | b :: w' => "[" ++ UcharToBinStr (u8 b) ++ render_tail w' ++ "]"
  end.

(** [reason'] is [reason] with text appended. *)
Definition log_extends (reason reason' : string) : Prop :=
  exists added, reason' = reason ++ added.

(** What a scan state with [bValidUTF8 = true] stands for: the bytes before
    the cursor are a concatenation of well-formed characters, and
    [b7bitASCIIOnly] tells whether all of them are single bytes. *)
Definition scanned_prefix_valid (buf : list byte) (st : scan_state) : Prop :=
  st_bValidUTF8 st = true ->
  0 <= st_ucharPtr st
  /\ exists chars : list (list byte),
       Forall spec_valid_char chars
       /\ List.concat chars = firstn (Z.to_nat (st_ucharPtr st)) buf
       /\ st_b7bitASCIIOnly st = forallb (fun c => blen c =? 1) chars.

(** ** Basic facts about bytes and reads *)

Lemma u8_range (b : byte) : 0 <= u8 b < 256.
Proof.
  unfold u8. pose proof (Byte.to_N_bounded b) as H.
  split; [apply N2Z.is_nonneg|].
  apply N.lt_succ_r in H. change (N.succ 255) with 256%N in H.
  apply N2Z.inj_lt in H. exact H.
Qed.

Lemma blen_nonneg (l : list byte) : 0 <= blen l.
Proof. unfold blen. lia. Qed.

Lemma blen_app (l1 l2 : list byte) : blen (l1 ++ l2) = blen l1 + blen l2.
Proof. unfold blen. rewrite List.length_app. lia. Qed.

Lemma blen_cons (b : byte) (l : list byte) : blen (b :: l) = 1 + blen l.
Proof. unfold blen. cbn [List.length]. lia. Qed.

Lemma rd_in (buf : list byte) (i : Z) :
  0 <= i < blen buf -> exists b, nth_error buf (Z.to_nat i) = Some b /\ rd buf i = Ok (u8 b).
Proof.
  intros H. unfold rd, blen in *.
  destruct (Z.ltb_spec i 0); [lia|].
  destruct (nth_error buf (Z.to_nat i)) as [b|] eqn:E.
  - exists b. auto.
  - apply nth_error_None in E. lia.
Qed.

Lemma rd_app_r (pre l : list byte) (k : Z) :
  0 <= k -> rd (pre ++ l) (blen pre + k) = rd l k.
Proof.
  intros Hk. unfold rd, blen.
  destruct (Z.ltb_spec (Z.of_nat (List.length pre) + k) 0); [lia|].
  destruct (Z.ltb_spec k 0); [lia|].
  replace (Z.to_nat (Z.of_nat (List.length pre) + k))
    with (List.length pre + Z.to_nat k)%nat by lia.
  now rewrite nth_error_app2, Nat.add_comm, Nat.add_sub by lia.
Qed.

Lemma rd_app_0 (pre l : list byte) : rd (pre ++ l) (blen pre) = rd l 0.
Proof. rewrite <- (rd_app_r pre l 0) by lia. now rewrite Z.add_0_r. Qed.

Lemma rd_0 b l : rd (b :: l) 0 = Ok (u8 b).
Proof. reflexivity. Qed.
Lemma rd_1 a b l : rd (a :: b :: l) 1 = Ok (u8 b).
Proof. reflexivity. Qed.
Lemma rd_2 a b c l : rd (a :: b :: c :: l) 2 = Ok (u8 c).
Proof. reflexivity. Qed.
Lemma rd_3 a b c d l : rd (a :: b :: c :: d :: l) 3 = Ok (u8 d).
Proof. reflexivity. Qed.

Lemma blen_1 (a : byte) : blen [a] = 1.
Proof. reflexivity. Qed.
Lemma blen_2 (a b : byte) : blen [a; b] = 2.
Proof. reflexivity. Qed.
Lemma blen_3 (a b c : byte) : blen [a; b; c] = 3.
Proof. reflexivity. Qed.
Lemma blen_4 (a b c d : byte) : blen [a; b; c; d] = 4.
Proof. reflexivity. Qed.

(** ** Classifiers as boolean tests on the bytes they read *)

Lemma and_then_Ok (a b : bool) : Ok a &&& Ok b = Ok (a && b).
Proof. now destruct a. Qed.

Lemma or_else_Ok (a b : bool) : Ok a ||| Ok b = Ok (a || b).
Proof. now destruct a. Qed.

Ltac view_proof :=
  intros;
  repeat match goal with H : rd _ _ = Ok _ |- _ => rewrite H; clear H end;
  cbn [bind]; repeat (rewrite and_then_Ok || rewrite or_else_Ok); reflexivity.

Section Views.
Variable buf : list byte.
Variable p : Z.
Variables z0 z1 z2 z3 : Z.
Hypothesis R0 : rd buf p = Ok z0.

Lemma UTF8CharASCII7_view :
  UTF8CharASCII7 buf p
  = Ok ((z0 =? 0x09) || (z0 =? 0x0A) || (z0 =? 0x0D) || ((0x20 <=? z0) && (z0 <=? 0x7E))).
Proof. unfold UTF8CharASCII7, in_range, is_byte. revert R0. view_proof. Qed.

Lemma UTF8InvalidControlChar_view :
  UTF8InvalidControlChar buf p
  = Ok ((Z.land z0 0x80 =? 0)
        && negb ((z0 =? 0x09) || (z0 =? 0x0A) || (z0 =? 0x0D) || ((0x20 <=? z0) && (z0 <=? 0x7E)))).
Proof.
  unfold UTF8InvalidControlChar. rewrite UTF8CharASCII7_view. revert R0. view_proof.
Qed.

Lemma UTF8Invalid2BytesOverlong_view :
  UTF8Invalid2BytesOverlong buf p = Ok ((0xC0 <=? z0) && (z0 <=? 0xC1)).
Proof. unfold UTF8Invalid2BytesOverlong, in_range. revert R0. view_proof. Qed.

Lemma UTF8InvalidCodePoint4BytesNonF4_view :
  UTF8InvalidCodePoint4BytesNonF4 buf p = Ok ((0xF5 <=? z0) && (z0 <=? 0xF7)).
Proof. unfold UTF8InvalidCodePoint4BytesNonF4, in_range. revert R0. view_proof. Qed.

Lemma UTF8IsContinuationByte_view :
  UTF8IsContinuationByte buf p = Ok (Z.land z0 0xC0 =? 0x80).
Proof. unfold UTF8IsContinuationByte. revert R0. view_proof. Qed.

Hypothesis R1 : rd buf (p + 1) = Ok z1.

Lemma UTF8CharValid2Bytes_view :
  UTF8CharValid2Bytes buf p
  = Ok (((0xC2 <=? z0) && (z0 <=? 0xDF)) && ((0x80 <=? z1) && (z1 <=? 0xBF))).
Proof. unfold UTF8CharValid2Bytes, in_range. revert R0 R1. view_proof. Qed.

Lemma UTF8Invalid3BytesOverlong_view :
  UTF8Invalid3BytesOverlong buf p = Ok ((z0 =? 0xE0) && ((0x80 <=? z1) && (z1 <=? 0x9F))).
Proof. unfold UTF8Invalid3BytesOverlong, in_range, is_byte. revert R0 R1. view_proof. Qed.

Lemma UTF8Invalid3BytesSurrogateHalf_view :
  UTF8Invalid3BytesSurrogateHalf buf p = Ok ((z0 =? 0xED) && ((0xA0 <=? z1) && (z1 <=? 0xBF))).
Proof. unfold UTF8Invalid3BytesSurrogateHalf, in_range, is_byte. revert R0 R1. view_proof. Qed.

Lemma UTF8Invalid4BytesOverlong_view :
  UTF8Invalid4BytesOverlong buf p = Ok ((z0 =? 0xF0) && ((0x80 <=? z1) && (z1 <=? 0xBF))).
Proof. unfold UTF8Invalid4BytesOverlong, in_range, is_byte. revert R0 R1. view_proof. Qed.

Hypothesis R2 : rd buf (p + 2) = Ok z2.

Lemma UTF8CharValid3Bytes_view :
  UTF8CharValid3Bytes buf p
  = Ok ((((0xE1 <=? z0) && (z0 <=? 0xEC) || (z0 =? 0xEE) || (z0 =? 0xEF))
           && ((0x80 <=? z1) && (z1 <=? 0xBF)) && ((0x80 <=? z2) && (z2 <=? 0xBF)))
        || ((z0 =? 0xE0) && ((0xA0 <=? z1) && (z1 <=? 0xBF)) && ((0x80 <=? z2) && (z2 <=? 0xBF)))
        || ((z0 =? 0xED) && ((0x80 <=? z1) && (z1 <=? 0x9F)) && ((0x80 <=? z2) && (z2 <=? 0xBF)))).
Proof. unfold UTF8CharValid3Bytes, in_range, is_byte. revert R0 R1 R2. view_proof. Qed.

Hypothesis R3 : rd buf (p + 3) = Ok z3.

Lemma UTF8CharValid4Bytes_view :
  UTF8CharValid4Bytes buf p
  = Ok (((z0 =? 0xF0) && ((0x90 <=? z1) && (z1 <=? 0xBF))
           && ((0x80 <=? z2) && (z2 <=? 0xBF)) && ((0x80 <=? z3) && (z3 <=? 0xBF)))
        || (((0xF1 <=? z0) && (z0 <=? 0xF3)) && ((0x80 <=? z1) && (z1 <=? 0xBF))
           && ((0x80 <=? z2) && (z2 <=? 0xBF)) && ((0x80 <=? z3) && (z3 <=? 0xBF)))
        || ((z0 =? 0xF4) && ((0x80 <=? z1) && (z1 <=? 0x8F))
           && ((0x80 <=? z2) && (z2 <=? 0xBF)) && ((0x80 <=? z3) && (z3 <=? 0xBF)))).
Proof. unfold UTF8CharValid4Bytes, in_range, is_byte. revert R0 R1 R2 R3. view_proof. Qed.

Lemma UTF8InvalidCodePoint4BytesF4_view :
  UTF8InvalidCodePoint4BytesF4 buf p
  = Ok (if (z0 =? 0xF4) && ((0x90 <=? z1) && (0xBF <=? z1))
        then Some (Z.lor (Z.lor (Z.shiftl (Z.land z1 0x3F) 12)
                                (Z.shiftl (Z.land z2 0x3F) 6))
                         (Z.land z3 0x3F))
        else None).
Proof.
  unfold UTF8InvalidCodePoint4BytesF4, is_byte. rewrite R0, R1, R2, R3.
  cbn [bind]. rewrite and_then_Ok. cbn [bind].
  now destruct ((z0 =? 0xF4) && ((0x90 <=? z1) && (0xBF <=? z1))).
Qed.
End Views.

(** ** Symbolic execution helpers *)

Ltac monad_step := cbn [bind and_then or_else andb orb negb].

Ltac bool_props :=
  rewrite ?andb_true_iff, ?orb_true_iff, ?negb_true_iff,
    ?Z.leb_le, ?Z.ltb_lt, ?Z.eqb_eq, ?Z.gtb_lt, ?Z.geb_le.

Ltac bool_true := bool_props; lia.
Ltac bool_false := apply not_true_iff_false; bool_props; lia.

(** Decide the test of the [if] at the head of the goal from the context. *)
Ltac step_if :=
  match goal with
  | |- (if ?c then _ else _) = _ =>
      first [ replace c with true by (symmetry; bool_true)
            | replace c with false by (symmetry; bool_false) ]
  end.

Ltac rd_layout :=
  repeat first
    [ rewrite rd_app_0
    | rewrite rd_app_r by lia
    | rewrite rd_0 | rewrite rd_1 | rewrite rd_2 | rewrite rd_3 ].

Ltac rd_known := rd_layout; reflexivity.

Ltac view_step :=
  match goal with
  | |- context [UTF8CharASCII7 ?b ?p] =>
      erewrite (UTF8CharASCII7_view b p) by rd_known
  | |- context [UTF8CharValid2Bytes ?b ?p] =>
      erewrite (UTF8CharValid2Bytes_view b p) by rd_known
  | |- context [UTF8CharValid3Bytes ?b ?p] =>
      erewrite (UTF8CharValid3Bytes_view b p) by rd_known
  | |- context [UTF8CharValid4Bytes ?b ?p] =>
      erewrite (UTF8CharValid4Bytes_view b p) by rd_known
  end.

Ltac run := repeat first [ progress monad_step | step_if | view_step ].

(** ** Scanning well-formed input *)

Lemma UTF8CharValidate_valid_char (c : list byte) :
  spec_valid_char c ->
  forall chk pre suf e reason,
    (chk = true -> blen pre + blen c <= e) ->
    UTF8CharValidate chk (pre ++ c ++ suf) (blen pre) e reason
    = Ok (blen pre + blen c, true, blen c =? 1, reason).
Proof.
  intros Hc chk pre suf e reason He.
  destruct Hc; cbn [app]; unfold spec_ascii_valid, spec_continuation in *;
    rewrite ?blen_1, ?blen_2, ?blen_3, ?blen_4 in He |- *;
    unfold UTF8CharValidate;
    (destruct chk; [specialize (He eq_refl)|clear He]);
    run; reflexivity.
Qed.

Lemma spec_valid_char_len (c : list byte) : spec_valid_char c -> 1 <= blen c <= 4.
Proof. destruct 1; rewrite ?blen_1, ?blen_2, ?blen_3, ?blen_4; lia. Qed.

Lemma blen_concat_nonneg (chars : list (list byte)) : 0 <= blen (List.concat chars).
Proof. apply blen_nonneg. Qed.

(** The loop over a layout of well-formed characters: validity is kept, the
    log is untouched, and the ASCII flag is lowered exactly when a scanned
    character is longer than one byte. *)
Lemma scan_loop_valid (chars : list (list byte)) :
  Forall spec_valid_char chars ->
  forall (chk : bool) pre suf start stop fuel v a reason,
    (if chk then stop = blen pre + blen (List.concat chars)
     else stop <= blen pre + blen (List.concat chars)) ->
    (Z.to_nat (stop - blen pre) <= fuel)%nat ->
    scan_loop chk (pre ++ List.concat chars ++ suf) start stop fuel
      (mkScan (blen pre) v a reason)
    = Ok (mkScan (scanned_end stop (blen pre) chars) v
            (a && scanned_ascii stop (blen pre) chars) reason).
Proof.
  induction 1 as [|c cs Hc Hcs IH]; intros chk pre suf start stop fuel v a reason Hstop Hfuel.
  - cbn [List.concat blen List.length Z.of_nat scanned_end scanned_ascii] in *.
    rewrite andb_true_r.
    assert (stop <= blen pre) by (destruct chk; lia).
    destruct fuel; cbn [scan_loop st_ucharPtr];
      rewrite (proj2 (Z.ltb_ge (blen pre) stop)) by lia; reflexivity.
  - pose proof (spec_valid_char_len c Hc) as Hlen.
    cbn [List.concat scanned_end scanned_ascii] in *.
    rewrite blen_app in Hstop.
    pose proof (blen_concat_nonneg cs).
    destruct (Z.ltb_spec (blen pre) stop) as [Hlt|Hge].
    + destruct fuel as [|fuel]; [lia|].
      cbn [scan_loop st_ucharPtr].
      rewrite (proj2 (Z.ltb_lt (blen pre) stop)) by lia.
      unfold scan_iteration. cbn [st_ucharPtr st_reason st_bValidUTF8 st_b7bitASCIIOnly].
      rewrite <- app_assoc.
      rewrite (UTF8CharValidate_valid_char c Hc) by (intros ->; lia).
      cbn [bind]. unfold UTF8_DETAILED_ERROR_LIST.
      rewrite !andb_true_r, andb_false_r. cbn [negb bind].
      rewrite <- blen_app.
      rewrite (app_assoc pre c).
      rewrite IH.
      * rewrite blen_app, andb_assoc. reflexivity.
      * rewrite blen_app. destruct chk; lia.
      * rewrite blen_app. lia.
    + rewrite andb_true_r.
      destruct fuel; cbn [scan_loop st_ucharPtr];
        rewrite (proj2 (Z.ltb_ge (blen pre) stop)) by lia; reflexivity.
Qed.

Lemma CheckStreamForUTF8NoBOMInternal_valid (chars : list (list byte)) :
  Forall spec_valid_char chars ->
  forall (chk : bool) suf stop reason,
    (if chk then stop = blen (List.concat chars) else stop <= blen (List.concat chars)) ->
    CheckStreamForUTF8NoBOMInternal chk (List.concat chars ++ suf) 0 stop reason
    = Ok (true, scanned_ascii stop 0 chars, reason).
Proof.
  intros Hc chk suf stop reason Hstop.
  unfold CheckStreamForUTF8NoBOMInternal.
  pose proof (scan_loop_valid chars Hc chk (@nil byte) suf 0 stop
                (Z.to_nat (stop - 0)) true true reason) as H.
  change (blen (@nil byte)) with 0 in H. cbn [app] in H.
  rewrite H; [reflexivity | rewrite Z.add_0_l; exact Hstop | lia].
Qed.

(** ** The sample reader on a readable stream *)

Lemma tellg_ok data pos g :
  tellg (mkStream data pos false false false g) = (pos, mkStream data pos false false false g).
Proof. reflexivity. Qed.

Lemma seek_to_ok data pos e g t :
  0 <= t <= blen data ->
  seek_to (mkStream data pos e false false g) t = mkStream data t false false false g.
Proof.
  intros H. unfold seek_to, sentry, good, fail, setstate_fail.
  cbn [content gpos eofbit failbit badbit last_gcount orb negb].
  now rewrite (proj2 (Z.leb_le 0 t)) by lia.
Qed.

Lemma blen_repeat (x : byte) (n : nat) : blen (repeat x n) = Z.of_nat n.
Proof. unfold blen. now rewrite repeat_length. Qed.

Lemma blen_skipn (l : list byte) (n : Z) :
  0 <= n <= blen l -> blen (skipn (Z.to_nat n) l) = blen l - n.
Proof. unfold blen. intros H. rewrite length_skipn. lia. Qed.

Lemma skipn_repeat (x : byte) (k n : nat) : skipn k (repeat x n) = repeat x (n - k).
Proof.
  revert n. induction k as [|k IH]; intros n.
  - now rewrite Nat.sub_0_r.
  - destruct n; [reflexivity|]. cbn [repeat skipn Nat.sub]. apply IH.
Qed.

Lemma read_to_end data pos g :
  0 <= pos <= blen data ->
  read (mkStream data pos false false false g) (blen data)
  = (skipn (Z.to_nat pos) data,
     mkStream data (blen data) (0 <? pos) (0 <? pos) false (blen data - pos)).
Proof.
  intros H. unfold read, good. cbn [content gpos eofbit failbit badbit last_gcount orb negb].
  rewrite firstn_all2 by (unfold blen in *; rewrite length_skipn; lia).
  rewrite blen_skipn by lia.
  replace (blen data - pos <? blen data) with (0 <? pos)
    by (destruct (Z.ltb_spec 0 pos), (Z.ltb_spec (blen data - pos) (blen data)); lia || reflexivity).
  destruct (0 <? pos); f_equal; f_equal; lia.
Qed.

Lemma ReadSampleToBuffer_readable (ifs : ifstream) :
  readable ifs ->
  ReadSampleToBuffer ifs
  = Ok ((sample ifs ++ repeat x00 (Z.to_nat (gpos ifs)))%list,
        blen (content ifs), blen (sample ifs),
        mkStream (content ifs) (gpos ifs) false false false (blen (sample ifs))).
Proof.
  destruct ifs as [data pos e f b g]. unfold readable, good, sample.
  cbn [content gpos eofbit failbit badbit]. intros (Hg & Hpos & Hlen).
  destruct e, f, b; try discriminate Hg. clear Hg.
  pose proof (blen_nonneg data) as Hnn.
  unfold ReadSampleToBuffer.
  rewrite tellg_ok. unfold seekg_end, seekg.
  cbn [content]. rewrite seek_to_ok by lia. rewrite tellg_ok.
  unfold to_size_t, SIZE_MOD. rewrite Z.mod_small by lia.
  rewrite seek_to_ok by lia.
  unfold UTF8_NO_BOM_TEXT_SAMPLE_SIZE. cbn [Z.eqb orb].
  rewrite !Z.add_0_r.
  unfold make_unique_array. rewrite (proj2 (Z.ltb_lt _ _) Hlen). cbn [bind].
  rewrite read_to_end by lia.
  unfold gcount. cbn [last_gcount].
  rewrite blen_skipn by lia.
  rewrite skipn_repeat.
  replace (Z.to_nat (blen data) - List.length (skipn (Z.to_nat pos) data))%nat
    with (Z.to_nat pos) by (rewrite length_skipn; unfold blen in *; lia).
  assert (E : forall s', (if blen data - pos <? blen data then clear s' else s')
                 = (if 0 <? pos then clear s' else s')).
  { intros. destruct (Z.ltb_spec 0 pos), (Z.ltb_spec (blen data - pos) (blen data)); lia || reflexivity. }
  rewrite E.
  destruct (0 <? pos); unfold clear; cbn [content gpos eofbit failbit badbit last_gcount];
    rewrite seek_to_ok by lia; reflexivity.
Qed.

(** ** The ASCII flag on well-formed layouts *)

Lemma concat_singletons (buf : list byte) :
  List.concat (map (fun b => [b]) buf) = buf.
Proof. induction buf as [|b l IH]; [reflexivity|]. cbn. now rewrite IH. Qed.

Lemma Forall_singletons (buf : list byte) :
  Forall spec_ascii_valid buf -> Forall spec_valid_char (map (fun b => [b]) buf).
Proof. induction 1; cbn; constructor; auto using valid_ascii. Qed.

Lemma scanned_ascii_singletons (buf : list byte) (stop p : Z) :
  scanned_ascii stop p (map (fun b => [b]) buf) = true.
Proof.
  revert p. induction buf as [|b l IH]; intros p; [reflexivity|].
  cbn [map scanned_ascii]. rewrite blen_1, IH. now destruct (p <? stop).
Qed.

Lemma spec_valid_char_single (c : list byte) :
  spec_valid_char c -> blen c = 1 -> exists b, c = [b] /\ spec_ascii_valid b.
Proof.
  destruct 1; rewrite ?blen_1, ?blen_2, ?blen_3, ?blen_4; intros E; try discriminate E.
  eauto.
Qed.

Lemma scanned_ascii_high (chars : list (list byte)) :
  Forall spec_valid_char chars ->
  forall stop p i b,
    p <= i < stop ->
    nth_error (List.concat chars) (Z.to_nat (i - p)) = Some b ->
    0x80 <= u8 b ->
    scanned_ascii stop p chars = false.
Proof.
  induction 1 as [|c cs Hc Hcs IH]; intros stop p i b Hi Hn Hb.
  - cbn in Hn. destruct (Z.to_nat (i - p)); discriminate Hn.
  - cbn [scanned_ascii]. rewrite (proj2 (Z.ltb_lt p stop)) by lia.
    destruct (Z.eqb_spec (blen c) 1) as [E|E]; [|reflexivity].
    cbn [andb]. destruct (spec_valid_char_single c Hc E) as (b0 & -> & Hb0).
    cbn [List.concat app] in Hn. rewrite blen_1.
    destruct (Z.eq_dec i p) as [->|Hne].
    + rewrite Z.sub_diag in Hn. cbn in Hn. injection Hn as ->.
      unfold spec_ascii_valid in Hb0. lia.
    + replace (Z.to_nat (i - p)) with (S (Z.to_nat (i - (p + 1)))) in Hn by lia.
      cbn [nth_error] in Hn. apply (IH stop (p + 1) i b); [lia|exact Hn|exact Hb].
Qed.

Lemma sample_scan_valid (chars : list (list byte)) (suf : list byte) (reason : string) :
  Forall spec_valid_char chars ->
  exists reason',
    sample_scan (List.concat chars ++ suf) (blen (List.concat chars)) reason
    = Ok (true, scanned_ascii (scanned_length (blen (List.concat chars))) 0 chars, reason').
Proof.
  intros Hc. unfold sample_scan, scanned_length.
  destruct (blen (List.concat chars) >=? UTF8_TINY_MODE_SIZE_LIMIT) eqn:E.
  - eexists. rewrite (CheckStreamForUTF8NoBOMInternal_valid chars Hc false).
    + rewrite Z.add_0_l. reflexivity.
    + unfold UTF8_MAX_CHAR_SIZE. lia.
  - eexists. rewrite (CheckStreamForUTF8NoBOMInternal_valid chars Hc true).
    + rewrite Z.add_0_l. reflexivity.
    + lia.
Qed.

(** What [CheckStreamForUTF8NoBOM] returns, from what the scan of the
    sample returned. *)
Lemma CheckStreamForUTF8NoBOM_from_scan (ifs : ifstream) (reason : string) (v a : bool) :
  readable ifs ->
  (forall suf, exists reason',
      sample_scan (sample ifs ++ suf) (blen (sample ifs)) reason = Ok (v, a, reason')) ->
  exists ifs' reason',
    CheckStreamForUTF8NoBOM ifs reason = Ok (if a then false else v, ifs', reason').
Proof.
  intros Hr Hs. unfold CheckStreamForUTF8NoBOM.
  rewrite (ReadSampleToBuffer_readable ifs Hr). cbn [bind].
  destruct (Hs (repeat x00 (Z.to_nat (gpos ifs)))) as [r' ->]. cbn [bind].
  destruct a; eauto.
Qed.

(** ** Arbitrary input: no step leaves the buffer, every step advances *)

Lemma to_size_t_small (z : Z) : 0 <= z < SIZE_MOD -> to_size_t z = z.
Proof. intros H. unfold to_size_t. now apply Z.mod_small. Qed.

Lemma rd_ok (buf : list byte) (i : Z) :
  0 <= i < blen buf -> exists z, rd buf i = Ok z.
Proof. intros H. destruct (rd_in buf i H) as (b & _ & E). eauto. Qed.

Lemma UcharSeqToBinStr_loop_ok (buf : list byte) (p : Z) (n : nat) :
  forall i acc,
    0 <= p + i -> p + i + Z.of_nat n <= blen buf ->
    exists s, UcharSeqToBinStr_loop buf p n i acc = Ok s.
Proof.
  induction n as [|n IH]; intros i acc H0 H1; cbn [UcharSeqToBinStr_loop]; [eauto|].
  destruct (rd_ok buf (p + i)) as [z ->]; [lia|]. cbn [bind].
  apply IH; lia.
Qed.

Lemma UcharSeqToBinStr_ok (buf : list byte) (p len : Z) :
  0 <= p -> 0 <= len -> p + len <= blen buf ->
  exists s, UcharSeqToBinStr buf p len = Ok s.
Proof.
  intros Hp Hl Hb. unfold UcharSeqToBinStr.
  destruct (Z.eqb_spec len 0); [eauto|].
  destruct (rd_ok buf p) as [z ->]; [lia|]. cbn [bind].
  destruct (UcharSeqToBinStr_loop_ok buf p (Z.to_nat (len - 1)) 1
              ("[" ++ UcharToBinStr z)) as [s ->]; [lia|lia|].
  cbn [bind]. eauto.
Qed.

Lemma UTF8IsValidLeadingByte_ok (buf : list byte) (p : Z) :
  0 <= p < blen buf ->
  exists v l, UTF8IsValidLeadingByte buf p = Ok (v, l)
              /\ 1 <= l <= 6 /\ (v = true -> l <= 4).
Proof.
  intros H. destruct (rd_ok buf p H) as [z E].
  unfold UTF8IsValidLeadingByte. rewrite E. cbn [bind].
  repeat match goal with
         | |- context [if ?c then _ else _] => destruct c
         end;
    do 2 eexists; (split; [reflexivity|]); split; try lia; intros; try lia; discriminate.
Qed.

Lemma continuation_loop_spec (buf : list byte) (p : Z) (n : nat) :
  forall idx m w,
    0 <= p + idx -> p + idx + Z.of_nat n <= blen buf ->
    exists m' w',
      continuation_loop buf p n idx m w = Ok (m', w') /\
      ((m' = m /\ w' = w /\ continuation_run buf p idx (idx + Z.of_nat n))
       \/ (exists j, idx <= j < idx + Z.of_nat n /\ m' = true /\ w' = Some (p + j)
                     /\ UTF8IsContinuationByte buf (p + j) = Ok false
                     /\ continuation_run buf p idx j)).
Proof.
  induction n as [|n IH]; intros idx m w H0 H1; cbn [continuation_loop].
  - do 2 eexists. split; [reflexivity|]. left. repeat split. intros j Hj. lia.
  - destruct (rd_ok buf (p + idx)) as [z E]; [lia|].
    rewrite (UTF8IsContinuationByte_view buf (p + idx) z E). cbn [bind].
    destruct (Z.land z 0xC0 =? 0x80) eqn:Ec; cbn [negb].
    + destruct (IH (idx + 1) m w) as (m' & w' & -> & Hcase); [lia|lia|].
      do 2 eexists. split; [reflexivity|].
      assert (Hhere : UTF8IsContinuationByte buf (p + idx) = Ok true)
        by (rewrite (UTF8IsContinuationByte_view buf (p + idx) z E); now rewrite Ec).
      destruct Hcase as [(-> & -> & Hrun)|(j & Hj & -> & -> & Hbad & Hrun)].
      * left. repeat split. intros j Hj.
        destruct (Z.eq_dec j idx) as [->|]; [exact Hhere|apply Hrun; lia].
      * right. exists j. repeat split; try lia; auto.
        intros i Hi. destruct (Z.eq_dec i idx) as [->|]; [exact Hhere|apply Hrun; lia].
    + do 2 eexists. split; [reflexivity|]. right. exists idx.
      repeat split; try lia.
      * rewrite (UTF8IsContinuationByte_view buf (p + idx) z E). now rewrite Ec.
      * intros i Hi. lia.
Qed.

Lemma UTF8InvalidNrOfContinuationBytes_spec (buf : list byte) (p k r : Z) (m : bool) (w : option Z) :
  0 <= p -> 1 <= r -> p + r <= blen buf -> 0 <= k -> k + 1 < SIZE_MOD ->
  exists m' w',
    UTF8InvalidNrOfContinuationBytes buf p k r m w = Ok (k + 1 >? r, m', w') /\
    ((m' = m /\ w' = (if k + 1 >? r then Some (p + r) else w)
      /\ continuation_run buf p 1 (Z.min r (k + 1)))
     \/ (exists j, 1 <= j < Z.min r (k + 1) /\ m' = true /\ w' = Some (p + j)
                   /\ UTF8IsContinuationByte buf (p + j) = Ok false
                   /\ continuation_run buf p 1 j)).
Proof.
  intros Hp Hr Hb Hk Hk1. unfold UTF8InvalidNrOfContinuationBytes.
  rewrite (to_size_t_small (k + 1)) by lia.
  rewrite Z.gtb_ltb.
  destruct (Z.ltb_spec r (k + 1)) as [Ht|Ht].
  - destruct (continuation_loop_spec buf p (Z.to_nat (r - 1)) 1 m (Some (p + r)))
      as (m' & w' & -> & Hcase); [lia|lia|].
    cbn [bind]. do 2 eexists. split; [reflexivity|].
    destruct Hcase as [(-> & -> & Hrun)|(j & Hj & -> & -> & Hbad & Hrun)].
    + left. repeat split. intros j Hj. apply Hrun. lia.
    + right. exists j. repeat split; auto; lia.
  - destruct (continuation_loop_spec buf p (Z.to_nat (k + 1 - 1)) 1 m w)
      as (m' & w' & -> & Hcase); [lia|lia|].
    cbn [bind]. do 2 eexists. split; [reflexivity|].
    destruct Hcase as [(-> & -> & Hrun)|(j & Hj & -> & -> & Hbad & Hrun)].
    + left. repeat split. intros j Hj. apply Hrun. lia.
    + right. exists j. repeat split; auto; lia.
Qed.

Lemma UTF8InvalidLeadingOrContinuation_spec (buf : list byte) (p start e : Z) (reason : string) :
  addressable buf -> 0 <= p < e -> e <= blen buf ->
  exists bad p' reason',
    UTF8InvalidLeadingOrContinuation buf p start e reason = Ok (bad, p', reason')
    /\ (bad = true -> p < p' <= e)
    /\ (bad = false -> p' = p /\ reason' = reason).
Proof.
  unfold addressable. intros Ha Hp He. unfold UTF8InvalidLeadingOrContinuation.
  destruct (UTF8IsValidLeadingByte_ok buf p) as (v & l & -> & Hl & Hv); [lia|].
  cbn [bind]. rewrite (to_size_t_small (e - p)) by lia.
  destruct v; cbn [negb].
  - specialize (Hv eq_refl).
    rewrite (to_size_t_small (l - 1)) by (unfold SIZE_MOD; lia).
    destruct (UTF8InvalidNrOfContinuationBytes_spec buf p (l - 1) (e - p) false None)
      as (m' & w' & -> & Hcase); try lia; [unfold SIZE_MOD; lia|].
    cbn [bind]. replace (l - 1 + 1) with l in * by lia.
    rewrite Z.gtb_ltb in *.
    destruct (Z.ltb_spec (e - p) l) as [Ht|Ht].
    + destruct (UcharSeqToBinStr_ok buf p (e - p)) as [s ->]; try lia. cbn [bind].
      destruct Hcase as [(-> & -> & _)|(j & Hj & -> & -> & _ & _)]; cbn [ptr_value bind];
        do 3 eexists; (split; [reflexivity|]); split; intros; try discriminate; lia.
    + destruct Hcase as [(-> & -> & _)|(j & Hj & -> & -> & _ & _)].
      * do 3 eexists. split; [reflexivity|]. split; intros; [discriminate|auto].
      * destruct (UcharSeqToBinStr_ok buf p l) as [s ->]; try lia. cbn [ptr_value bind].
        do 3 eexists. split; [reflexivity|]. split; intros; try discriminate; lia.
  - rewrite Z.gtb_ltb.
    destruct (Z.ltb_spec (e - p) l) as [Ht|Ht].
    + destruct (UcharSeqToBinStr_ok buf p (e - p)) as [s ->]; try lia. cbn [bind].
      do 3 eexists. split; [reflexivity|]. split; intros; try discriminate; lia.
    + destruct (UcharSeqToBinStr_ok buf p l) as [s ->]; try lia. cbn [bind].
      do 3 eexists. split; [reflexivity|]. split; intros; try discriminate; lia.
Qed.

(** Finish a branch of the classifier that dumps [n] bytes and returns. *)
Ltac dump_and_return buf p n :=
  let s := fresh "s" in
  destruct (UcharSeqToBinStr_ok buf p n) as [s ->]; try lia;
  cbn [bind]; do 2 eexists; (split; [reflexivity|]); lia.

Lemma UTF8CheckErrors_spec (buf : list byte) (p start e : Z) (reason : string) :
  addressable buf -> 0 <= p < e -> e <= blen buf ->
  exists p' reason',
    UTF8CheckErrors buf p start e reason = Ok (p', reason') /\ p < p' <= e.
Proof.
  intros Ha Hp He. unfold UTF8CheckErrors.
  rewrite Z.gtb_ltb. rewrite (proj2 (Z.ltb_ge (e - 1) p)) by lia.
  destruct (UTF8InvalidLeadingOrContinuation_spec buf p start e reason Ha Hp He)
    as (bad & q & r' & -> & Hbad & Hok).
  cbn [bind]. destruct bad.
  { do 2 eexists. split; [reflexivity|]. auto. }
  destruct (Hok eq_refl) as [-> ->]. clear Hbad Hok.
  assert (Hsz : to_size_t (e - p) = e - p)
    by (apply to_size_t_small; unfold addressable in Ha; lia).
  destruct (rd_ok buf p) as [z0 R0]; [lia|].
  rewrite (UTF8InvalidControlChar_view buf p z0 R0). cbn [bind].
  match goal with |- context [if ?c then _ else _] => destruct c end.
  { dump_and_return buf p 1. }
  rewrite Z.gtb_ltb. destruct (Z.ltb_spec (e - 2) p).
  { rewrite Hsz. dump_and_return buf p (e - p). }
  rewrite (UTF8Invalid2BytesOverlong_view buf p z0 R0). cbn [bind].
  match goal with |- context [if ?c then _ else _] => destruct c end.
  { dump_and_return buf p 2. }
  rewrite Z.gtb_ltb. destruct (Z.ltb_spec (e - 3) p).
  { rewrite Hsz. dump_and_return buf p (e - p). }
  destruct (rd_ok buf (p + 1)) as [z1 R1]; [lia|].
  rewrite (UTF8Invalid3BytesOverlong_view buf p z0 z1 R0 R1). cbn [bind].
  match goal with |- context [if ?c then _ else _] => destruct c end.
  { dump_and_return buf p 3. }
  rewrite (UTF8Invalid3BytesSurrogateHalf_view buf p z0 z1 R0 R1). cbn [bind].
  match goal with |- context [if ?c then _ else _] => destruct c end.
  { dump_and_return buf p 3. }
  rewrite Z.gtb_ltb. destruct (Z.ltb_spec (e - 4) p).
  { rewrite Hsz. dump_and_return buf p (e - p). }
  rewrite (UTF8Invalid4BytesOverlong_view buf p z0 z1 R0 R1). cbn [bind].
  match goal with |- context [if ?c then _ else _] => destruct c end.
  { dump_and_return buf p 4. }
  destruct (rd_ok buf (p + 2)) as [z2 R2]; [lia|].
  destruct (rd_ok buf (p + 3)) as [z3 R3]; [lia|].
  rewrite (UTF8InvalidCodePoint4BytesF4_view buf p z0 z1 z2 z3 R0 R1 R2 R3). cbn [bind].
  match goal with |- context [if ?c then Some _ else None] => destruct c end.
  { dump_and_return buf p 4. }
  rewrite (UTF8InvalidCodePoint4BytesNonF4_view buf p z0 R0). cbn [bind].
  match goal with |- context [if ?c then _ else _] => destruct c end.
  { dump_and_return buf p 4. }
  destruct (Z.ltb_spec 16 (e - p)).
  - rewrite to_size_t_small by (unfold SIZE_MOD; lia). dump_and_return buf p 16.
  - rewrite Hsz. dump_and_return buf p (e - p).
Qed.

Ltac validate_done :=
  do 4 eexists; (split; [reflexivity|]);
  repeat first [ split | match goal with |- (_ = _) -> _ => intro end ];
  try discriminate; try reflexivity;
  repeat match goal with
         | H : ?c = true -> _, H' : ?c = true |- _ => specialize (H H')
         end;
  try lia.

Lemma guard_passed (chk : bool) (p e k : Z) :
  chk && (p >? e - k) = false -> chk = true -> p + k <= e.
Proof.
  intros G ->. cbn [andb] in G. rewrite Z.gtb_ltb in G. apply Z.ltb_ge in G. lia.
Qed.

Lemma UTF8CharValidate_spec (chk : bool) (buf : list byte) (p e : Z) (reason : string) :
  0 <= p ->
  (if chk then p < e /\ e <= blen buf else p + 4 <= blen buf) ->
  exists p' v a reason',
    UTF8CharValidate chk buf p e reason = Ok (p', v, a, reason')
    /\ (a = true -> v = true)
    /\ (v = true -> p < p' <= p + 4 /\ (chk = true -> p' <= e))
    /\ (v = false -> p' = p).
Proof.
  intros Hp Hb. unfold UTF8CharValidate.
  assert (H0 : 0 <= p < blen buf) by (destruct chk; lia).
  assert (G1 : chk = true -> p + 1 <= e) by (intros ->; lia).
  destruct (rd_ok buf p H0) as [z0 R0].
  replace (chk && (p >? e - 1)) with false
    by (destruct chk; [cbn [andb]; rewrite Z.gtb_ltb; symmetry; apply Z.ltb_ge; lia|reflexivity]).
  rewrite (UTF8CharASCII7_view buf p z0 R0). cbn [bind].
  match goal with |- context [if ?c then _ else _] => destruct c end.
  { validate_done. }
  destruct (chk && (p >? e - 2)) eqn:G2.
  { validate_done. }
  pose proof (guard_passed _ _ _ _ G2) as K2.
  assert (H1 : 0 <= p + 1 < blen buf) by (destruct chk; [specialize (K2 eq_refl)|]; lia).
  destruct (rd_ok buf (p + 1) H1) as [z1 R1].
  rewrite (UTF8CharValid2Bytes_view buf p z0 z1 R0 R1). cbn [bind].
  match goal with |- context [if ?c then _ else _] => destruct c end.
  { validate_done. }
  destruct (chk && (p >? e - 3)) eqn:G3.
  { validate_done. }
  pose proof (guard_passed _ _ _ _ G3) as K3.
  assert (H2 : 0 <= p + 2 < blen buf) by (destruct chk; [specialize (K3 eq_refl)|]; lia).
  destruct (rd_ok buf (p + 2) H2) as [z2 R2].
  rewrite (UTF8CharValid3Bytes_view buf p z0 z1 z2 R0 R1 R2). cbn [bind].
  match goal with |- context [if ?c then _ else _] => destruct c end.
  { validate_done. }
  destruct (chk && (p >? e - 4)) eqn:G4.
  { validate_done. }
  pose proof (guard_passed _ _ _ _ G4) as K4.
  assert (H3 : 0 <= p + 3 < blen buf) by (destruct chk; [specialize (K4 eq_refl)|]; lia).
  destruct (rd_ok buf (p + 3) H3) as [z3 R3].
  rewrite (UTF8CharValid4Bytes_view buf p z0 z1 z2 z3 R0 R1 R2 R3). cbn [bind].
  match goal with |- context [if ?c then _ else _] => destruct c end.
  { validate_done. }
  validate_done.
Qed.

Lemma scan_iteration_spec (chk : bool) (buf : list byte) (start stop : Z) (st : scan_state) :
  addressable buf ->
  0 <= st_ucharPtr st < stop ->
  scan_limit chk stop <= blen buf ->
  exists st',
    scan_iteration chk buf start stop st = Ok (st', false)
    /\ st_ucharPtr st < st_ucharPtr st' <= scan_limit chk stop.
Proof.
  intros Ha Hp Hb. unfold scan_limit in *. unfold scan_iteration.
  destruct (UTF8CharValidate_spec chk buf (st_ucharPtr st) stop (st_reason st))
    as (p' & v & a & r' & -> & _ & Hv & Hnv); [lia|destruct chk; lia|].
  cbn [bind]. unfold UTF8_DETAILED_ERROR_LIST. cbn [negb]. rewrite andb_false_r.
  destruct v; cbn [negb].
  - eexists. split; [reflexivity|]. cbn [st_ucharPtr].
    destruct (Hv eq_refl) as [H1 H2]. destruct chk; [specialize (H2 eq_refl)|]; lia.
  - rewrite (Hnv eq_refl).
    destruct (UTF8CheckErrors_spec buf (st_ucharPtr st) start stop r' Ha)
      as (q & r'' & -> & Hq); [lia|destruct chk; lia|].
    cbn [bind]. eexists. split; [reflexivity|]. cbn [st_ucharPtr]. destruct chk; lia.
Qed.

Lemma scan_loop_total (chk : bool) (buf : list byte) (start stop : Z) :
  addressable buf ->
  scan_limit chk stop <= blen buf ->
  forall fuel st,
    0 <= st_ucharPtr st ->
    (Z.to_nat (stop - st_ucharPtr st) <= fuel)%nat ->
    exists st', scan_loop chk buf start stop fuel st = Ok st'
                /\ stop <= st_ucharPtr st'.
Proof.
  intros Ha Hb. induction fuel as [|fuel IH]; intros st Hp Hf.
  - cbn [scan_loop]. rewrite (proj2 (Z.ltb_ge (st_ucharPtr st) stop)) by lia.
    eexists. split; [reflexivity|lia].
  - cbn [scan_loop]. destruct (Z.ltb_spec (st_ucharPtr st) stop) as [Hlt|Hge].
    + destruct (scan_iteration_spec chk buf start stop st Ha) as (st1 & -> & Hadv); [lia|exact Hb|].
      cbn [bind]. apply IH; lia.
    + eexists. split; [reflexivity|lia].
Qed.

Lemma CheckStreamForUTF8NoBOMInternal_total (chk : bool) (buf : list byte) (stop : Z) (reason : string) :
  addressable buf ->
  scan_limit chk stop <= blen buf ->
  exists v a reason', CheckStreamForUTF8NoBOMInternal chk buf 0 stop reason = Ok (v, a, reason').
Proof.
  intros Ha Hb. unfold CheckStreamForUTF8NoBOMInternal.
  destruct (scan_loop_total chk buf 0 stop Ha Hb (Z.to_nat (stop - 0)) (mkScan 0 true true reason))
    as (st' & -> & _); cbn [st_ucharPtr]; [lia|lia|].
  cbn [bind]. eauto.
Qed.

Lemma sample_scan_total (buf : list byte) (readCount : Z) (reason : string) :
  addressable buf ->
  0 <= readCount <= blen buf ->
  exists v a reason', sample_scan buf readCount reason = Ok (v, a, reason').
Proof.
  intros Ha Hr. unfold sample_scan. rewrite Z.geb_leb.
  destruct (Z.leb_spec UTF8_TINY_MODE_SIZE_LIMIT readCount) as [Hbig|Hsmall].
  - apply CheckStreamForUTF8NoBOMInternal_total; [exact Ha|].
    unfold scan_limit, UTF8_MAX_CHAR_SIZE. lia.
  - apply CheckStreamForUTF8NoBOMInternal_total; [exact Ha|].
    unfold scan_limit. lia.
Qed.

(** ** The running verdict *)

Ltac crack H :=
  repeat match type of H with
         | context [bind ?m _] => destruct m; cbn [bind] in H
         | context [if ?c then _ else _] => destruct c
         | Ok _ = Ok _ => inversion H; subst; clear H
         | Fault _ = Ok _ => discriminate H
         end.

Lemma UTF8CharValidate_ascii_implies_valid (chk : bool) (buf : list byte) (p e : Z)
    (reason : string) p' v a reason' :
  UTF8CharValidate chk buf p e reason = Ok (p', v, a, reason') ->
  a = true -> v = true.
Proof.
  unfold UTF8CharValidate. intros H Ha.
  crack H; try reflexivity; discriminate.
Qed.

Lemma scan_iteration_invariant (chk : bool) (buf : list byte) (start stop : Z)
    (st st' : scan_state) (brk : bool) :
  scan_iteration chk buf start stop st = Ok (st', brk) ->
  (st_b7bitASCIIOnly st = true -> st_bValidUTF8 st = true) ->
  st_b7bitASCIIOnly st' = true -> st_bValidUTF8 st' = true.
Proof.
  unfold scan_iteration. intros H Hinv.
  destruct (UTF8CharValidate chk buf (st_ucharPtr st) stop (st_reason st))
    as [[[[p' v] a] r]|] eqn:EV; cbn [bind] in H; [|discriminate].
  pose proof (UTF8CharValidate_ascii_implies_valid _ _ _ _ _ _ _ _ _ EV) as Hva.
  assert (Hgoal : st_b7bitASCIIOnly st && a = true -> st_bValidUTF8 st && v = true).
  { intros E. apply andb_true_iff in E as [E1 E2]. apply andb_true_iff. auto. }
  destruct (negb (st_bValidUTF8 st && v) && negb UTF8_DETAILED_ERROR_LIST).
  - inversion H; subst. exact Hgoal.
  - destruct (negb v).
    + destruct (UTF8CheckErrors buf p' start stop r) as [[q r']|]; cbn [bind] in H;
        [|discriminate]. inversion H; subst. exact Hgoal.
    + inversion H; subst. exact Hgoal.
Qed.

Lemma scan_reaches_invariant (chk : bool) (buf : list byte) (start stop : Z)
    (reason0 : string) (st : scan_state) :
  scan_reaches chk buf start stop reason0 st ->
  st_b7bitASCIIOnly st = true -> st_bValidUTF8 st = true.
Proof.
  induction 1 as [|st st' brk Hr IH Hlt Hit]; [reflexivity|].
  exact (scan_iteration_invariant _ _ _ _ _ _ _ Hit IH).
Qed.

Lemma scan_loop_reaches (chk : bool) (buf : list byte) (start stop : Z) (reason0 : string) :
  forall fuel st st',
    scan_reaches chk buf start stop reason0 st ->
    scan_loop chk buf start stop fuel st = Ok st' ->
    scan_reaches chk buf start stop reason0 st'.
Proof.
  induction fuel as [|fuel IH]; intros st st' Hr H; cbn [scan_loop] in H.
  - destruct (Z.ltb_spec (st_ucharPtr st) stop); [discriminate|]. now inversion H; subst.
  - destruct (Z.ltb_spec (st_ucharPtr st) stop) as [Hlt|]; [|now inversion H; subst].
    destruct (scan_iteration chk buf start stop st) as [[st1 brk]|] eqn:Hit;
      cbn [bind] in H; [|discriminate].
    assert (Hr1 : scan_reaches chk buf start stop reason0 st1)
      by (eapply reaches_step; eauto).
    destruct brk; [now inversion H; subst|]. eapply IH; eauto.
Qed.

(** ** The signature matcher on a stream at offset 0 *)

Lemma u8_inj (a b : byte) : u8 a = u8 b -> a = b.
Proof.
  unfold u8. intros H. apply N2Z.inj in H.
  pose proof (Byte.of_to_N a) as Ha. rewrite H, Byte.of_to_N in Ha. now inversion Ha.
Qed.

Lemma signature_loop_spec (sig : list byte) :
  forall rb pre_r pre_s,
    List.length pre_r = List.length pre_s ->
    List.length rb = List.length sig ->
    exists d,
      signature_loop (pre_r ++ rb) (pre_s ++ sig) (List.length sig) (blen pre_r) = Ok d
      /\ (d = false <-> rb = sig).
Proof.
  induction sig as [|s sig IH]; intros rb pre_r pre_s Hpre Hlen.
  - destruct rb; [|discriminate Hlen]. exists false. split; [reflexivity|tauto].
  - destruct rb as [|r rb]; [discriminate Hlen|].
    cbn [List.length signature_loop].
    rewrite rd_app_0, rd_0. cbn [bind].
    assert (Eb : blen pre_r = blen pre_s) by (unfold blen; now rewrite Hpre).
    assert (R : rd (pre_s ++ s :: sig) (blen pre_r) = Ok (u8 s))
      by (rewrite Eb; now rewrite rd_app_0).
    rewrite R. cbn [bind].
    destruct (Z.eqb_spec (u8 r) (u8 s)) as [E|E]; cbn [negb].
    + apply u8_inj in E. subst s.
      destruct (IH rb (pre_r ++ [r])%list (pre_s ++ [r])%list) as (d & Hd & Hiff).
      * rewrite !List.length_app. now rewrite Hpre.
      * now injection Hlen.
      * exists d. rewrite <- !app_assoc in Hd. cbn [app] in Hd.
        rewrite blen_app, blen_1 in Hd. rewrite Hd. split; [reflexivity|].
        rewrite Hiff. split; [now intros ->|now intros [= ->]].
    + exists true. split; [reflexivity|]. split; [discriminate|].
      intros [= -> _]. contradiction.
Qed.

Lemma read_good (data : list byte) (pos g n : Z) :
  let got := firstn (Z.to_nat n) (skipn (Z.to_nat pos) data) in
  read (mkStream data pos false false false g) n
  = (got, mkStream data (pos + blen got) (blen got <? n) (blen got <? n) false (blen got)).
Proof.
  intros got. unfold read, good.
  cbn [content gpos eofbit failbit badbit last_gcount orb negb]. fold got.
  now destruct (blen got <? n).
Qed.

Lemma to_nat_blen (l : list byte) : Z.to_nat (blen l) = List.length l.
Proof. unfold blen. apply Nat2Z.id. Qed.

Lemma CheckStreamForSignature_found (data : list byte) (g : Z) (reason : string)
    (sig : list byte) :
  starts_with sig data ->
  CheckStreamForSignature (mkStream data 0 false false false g) reason sig
  = Ok (SIGNATURE_CHECK_RESULT_FOUND,
        mkStream data (blen sig) false false false (blen sig), reason).
Proof.
  unfold starts_with. intros Hs. unfold CheckStreamForSignature.
  unfold fail, eof. cbn [failbit badbit eofbit orb].
  rewrite tellg_ok, read_good. cbn [skipn Z.to_nat].
  rewrite !to_nat_blen, !Hs.
  unfold gcount. cbn [last_gcount]. rewrite !Z.ltb_irrefl.
  destruct (signature_loop_spec sig sig [] [] eq_refl eq_refl) as (d & Hd & Hiff).
  cbn [app] in Hd. change (blen []) with 0 in Hd.
  rewrite Hd. cbn [bind].
  destruct d; [|reflexivity]. destruct Hiff as [_ Hiff]. discriminate (Hiff eq_refl).
Qed.

Lemma CheckStreamForSignature_not_found (data : list byte) (g : Z) (reason : string)
    (sig : list byte) :
  ~ starts_with sig data ->
  exists g',
    CheckStreamForSignature (mkStream data 0 false false false g) reason sig
    = Ok (SIGNATURE_CHECK_RESULT_NOT_FOUND,
          mkStream data 0 false false false g', reason).
Proof.
  unfold starts_with. intros Hs. unfold CheckStreamForSignature.
  unfold fail, eof. cbn [failbit badbit eofbit orb].
  rewrite tellg_ok, read_good. cbn [skipn Z.to_nat].
  rewrite !to_nat_blen.
  unfold gcount. cbn [last_gcount].
  set (got := firstn (List.length sig) data) in *.
  pose proof (firstn_le_length (List.length sig) data) as Hle. fold got in Hle.
  pose proof (blen_nonneg data) as Hnn.
  destruct (Z.ltb_spec (blen got) (blen sig)) as [Hlt|Hge].
  - unfold clear. cbn [content gpos eofbit failbit badbit last_gcount].
    unfold seekg. rewrite seek_to_ok by lia. eauto.
  - assert (Hlen : List.length got = List.length sig) by (unfold blen in *; lia).
    destruct (signature_loop_spec sig got [] [] eq_refl Hlen) as (d & Hd & Hiff).
    cbn [app] in Hd. change (blen []) with 0 in Hd. rewrite Hd. cbn [bind].
    destruct d.
    + unfold fail. cbn [failbit badbit orb]. unfold seekg.
      rewrite seek_to_ok by lia. eauto.
    + destruct Hiff as [Hiff _]. elim Hs. exact (Hiff eq_refl).
Qed.

Lemma at_start_inv (s : ifstream) :
  at_start s -> s = mkStream (content s) 0 false false false (last_gcount s).
Proof.
  destruct s as [data pos e f b g]. unfold at_start, tellg, sentry, good, fail, setstate_fail.
  destruct e, f, b; cbn; intros H; try discriminate H. now subst.
Qed.

Lemma assert_at_start_ok (data : list byte) (g : Z) :
  assert_at_start (mkStream data 0 false false false g)
  = Ok (mkStream data 0 false false false g).
Proof. reflexivity. Qed.

(** ** A long ASCII text that ends in one 2-byte character *)

Lemma scanned_ascii_prefix_singletons (l : list byte) (rest : list (list byte)) :
  forall stop p,
    stop <= p + blen l ->
    scanned_ascii stop p (map (fun b => [b]) l ++ rest) = true.
Proof.
  induction l as [|b l IH]; intros stop p H.
  - change (blen []) with 0 in H. cbn [map app].
    destruct rest as [|c cs]; [reflexivity|]. cbn [scanned_ascii].
    now rewrite (proj2 (Z.ltb_ge p stop)) by lia.
  - cbn [map app scanned_ascii]. rewrite blen_1, blen_cons in *.
    rewrite IH by lia. now destruct (p <? stop).
Qed.

Lemma Forall_ascii_repeat_a (n : nat) : Forall spec_ascii_valid (repeat x61 n).
Proof.
  apply Forall_forall. intros b Hb. apply repeat_spec in Hb. subst b.
  unfold spec_ascii_valid. change (u8 x61) with 97. lia.
Qed.

Lemma ascii_text_then_2byte_char (n : Z) :
  UTF8_TINY_MODE_SIZE_LIMIT - 2 <= n -> n + 2 < 2 ^ 63 ->
  let buf := (repeat x61 (Z.to_nat n) ++ [xc2; x80])%list in
  spec_valid_utf8 buf
  /\ Exists (fun b => 0x80 <= u8 b) buf
  /\ (exists reason', sample_scan buf (blen buf) "" = Ok (true, true, reason'))
  /\ (exists ifs' reason',
        CheckStreamForUTF8NoBOM (ifstream_open buf) "" = Ok (false, ifs', reason')).
Proof.
  intros Hbig Hsmall buf.
  set (chars := (map (fun b => [b]) (repeat x61 (Z.to_nat n)) ++ [[xc2; x80]])%list).
  assert (Hn : 0 <= n) by (unfold UTF8_TINY_MODE_SIZE_LIMIT in Hbig; lia).
  assert (Hcat : List.concat chars = buf).
  { unfold chars, buf. rewrite concat_app, concat_singletons. reflexivity. }
  assert (Hchars : Forall spec_valid_char chars).
  { unfold chars. apply Forall_app. split.
    - apply Forall_singletons, Forall_ascii_repeat_a.
    - constructor; [|constructor].
      apply valid_2; unfold spec_continuation;
        [change (u8 xc2) with 194|change (u8 x80) with 128]; lia. }
  assert (Hlen : blen buf = n + 2).
  { unfold buf. rewrite blen_app, blen_repeat, blen_2. lia. }
  assert (Hscan : forall suf, exists reason',
             sample_scan (buf ++ suf) (blen buf) "" = Ok (true, true, reason')).
  { intros suf. destruct (sample_scan_valid chars suf "" Hchars) as [r Hr].
    rewrite Hcat in Hr. exists r. rewrite Hr. do 3 f_equal.
    unfold chars. apply scanned_ascii_prefix_singletons.
    rewrite blen_repeat, Hlen. unfold scanned_length.
    rewrite Z.geb_leb, (proj2 (Z.leb_le _ _)) by lia.
    unfold UTF8_MAX_CHAR_SIZE. lia. }
  split; [exists chars; auto|]. split.
  { unfold buf. apply Exists_app. right. constructor. change (u8 xc2) with 194. lia. }
  split.
  { destruct (Hscan []) as [r Hr]. rewrite app_nil_r in Hr. eauto. }
  apply (CheckStreamForUTF8NoBOM_from_scan (ifstream_open buf) "" true true).
  - unfold readable, ifstream_open, good. cbn [content gpos eofbit failbit badbit orb negb].
    pose proof (blen_nonneg buf). lia.
  - exact Hscan.
Qed.

(** A raw control byte is not an ASCII-valid byte for the classifier: it
    makes the sample invalid although the bytes after it are well formed. *)
Lemma control_byte_lowers_validity :
  exists reason', sample_scan [x01; xc3; xa9] 3 "" = Ok (false, false, reason').
Proof. eexists. vm_compute. reflexivity. Qed.

(** * The claims *)

(** ** C1 *)

(** C1, as the code has it.  For every sample that is a concatenation of
    well-formed characters and has a byte >= 0x80 within the part that
    [CheckStreamForUTF8NoBOM] scans (the whole sample in bounds-checked
    mode, all but its last 4 bytes in unchecked mode), the scan ends with
    [bValidUTF8 = true] and [b7bitASCIIOnly = false], and
    [CheckStreamForUTF8NoBOM] returns true. *)
Theorem C1_valid_utf8_with_scanned_high_byte (buf : list byte) :
  spec_valid_utf8 buf ->
  has_high_byte_before buf (scanned_length (blen buf)) ->
  (forall suf reason, exists reason',
      sample_scan (buf ++ suf) (blen buf) reason = Ok (true, false, reason'))
  /\ (forall ifs reason,
        readable ifs -> sample ifs = buf ->
        exists ifs' reason', CheckStreamForUTF8NoBOM ifs reason = Ok (true, ifs', reason')).
Proof.
  intros (chars & Hchars & Hcat) (i & b & Hi & Hnth & Hb).
  assert (Hscan : forall suf reason, exists reason',
             sample_scan (buf ++ suf) (blen buf) reason = Ok (true, false, reason')).
  { intros suf reason. destruct (sample_scan_valid chars suf reason Hchars) as [r Hr].
    rewrite Hcat in Hr. exists r. rewrite Hr. do 3 f_equal.
    apply (scanned_ascii_high chars Hchars _ 0 i b); [lia| |exact Hb].
    now rewrite Hcat, Z.sub_0_r. }
  split; [exact Hscan|].
  intros ifs reason Hr Hs.
  apply (CheckStreamForUTF8NoBOM_from_scan ifs reason true false Hr).
  intros suf. rewrite Hs. apply Hscan.
Qed.

(** C1 fails as stated in unchecked mode: a sample of 10^9 letters [a]
    followed by the 2-byte character C2 80 is valid UTF-8 and contains bytes
    >= 0x80, yet the scan, which leaves the last 4 bytes out, ends with
    [b7bitASCIIOnly = true] and [CheckStreamForUTF8NoBOM] returns false. *)
Lemma C1_unchecked_mode_skips_trailing_char :
  let buf := (repeat x61 (Z.to_nat 1000000000) ++ [xc2; x80])%list in
  spec_valid_utf8 buf
  /\ Exists (fun b => 0x80 <= u8 b) buf
  /\ (exists reason', sample_scan buf (blen buf) "" = Ok (true, true, reason'))
  /\ (exists ifs' reason',
        CheckStreamForUTF8NoBOM (ifstream_open buf) "" = Ok (false, ifs', reason')).
Proof.
  apply (ascii_text_then_2byte_char 1000000000).
  - unfold UTF8_TINY_MODE_SIZE_LIMIT. lia.
  - lia.
Qed.

Lemma C1_valid_utf8_with_scanned_high_byte_witness :
  (exists reason', sample_scan [x61; xc3; xa9] 3 "" = Ok (true, false, reason'))
  /\ (exists ifs' reason',
        CheckStreamForUTF8NoBOM (ifstream_open [x61; xc3; xa9]) "" = Ok (true, ifs', reason')).
Proof.
  assert (Hv : spec_valid_utf8 [x61; xc3; xa9]).
  { exists [[x61]; [xc3; xa9]]. split; [|reflexivity].
    repeat constructor; unfold spec_ascii_valid, spec_continuation; cbn; lia. }
  assert (Hh : has_high_byte_before [x61; xc3; xa9] (scanned_length (blen [x61; xc3; xa9]))).
  { exists 1, xc3. cbn. repeat split; lia || discriminate. }
  pose proof (C1_valid_utf8_with_scanned_high_byte [x61; xc3; xa9] Hv Hh) as [H1 H2].
  split.
  - exact (H1 [] "").
  - apply H2; [|reflexivity].
    unfold readable. cbn. repeat split; lia || discriminate.
Defined.

(** ** C2 *)

(** C2.  For every sample made only of bytes in {0x09, 0x0A, 0x0D} and
    [0x20, 0x7E], the scan ends with [bValidUTF8 = true] and
    [b7bitASCIIOnly = true], and [CheckStreamForUTF8NoBOM] returns false,
    in either scanning mode. *)
Theorem C2_ascii_sample_yields_false (buf : list byte) :
  Forall spec_ascii_valid buf ->
  (forall suf reason, exists reason',
      sample_scan (buf ++ suf) (blen buf) reason = Ok (true, true, reason'))
  /\ (forall ifs reason,
        readable ifs -> sample ifs = buf ->
        exists ifs' reason', CheckStreamForUTF8NoBOM ifs reason = Ok (false, ifs', reason')).
Proof.
  intros Hascii.
  assert (Hscan : forall suf reason, exists reason',
             sample_scan (buf ++ suf) (blen buf) reason = Ok (true, true, reason')).
  { intros suf reason.
    destruct (sample_scan_valid (map (fun b => [b]) buf) suf reason
                (Forall_singletons buf Hascii)) as [r Hr].
    rewrite concat_singletons, scanned_ascii_singletons in Hr. eauto. }
  split; [exact Hscan|].
  intros ifs reason Hr Hs.
  apply (CheckStreamForUTF8NoBOM_from_scan ifs reason true true Hr).
  intros suf. rewrite Hs. apply Hscan.
Qed.

Lemma C2_ascii_sample_yields_false_witness :
  (exists reason', sample_scan [x68; x69; x0a] 3 "" = Ok (true, true, reason'))
  /\ (exists ifs' reason',
        CheckStreamForUTF8NoBOM (ifstream_open [x68; x69; x0a]) "" = Ok (false, ifs', reason')).
Proof.
  assert (Ha : Forall spec_ascii_valid [x68; x69; x0a])
    by (repeat constructor; unfold spec_ascii_valid; cbn; lia).
  pose proof (C2_ascii_sample_yields_false [x68; x69; x0a] Ha) as [H1 H2].
  split.
  - exact (H1 [] "").
  - apply H2; [|reflexivity].
    unfold readable. cbn. repeat split; lia || discriminate.
Defined.

(** ** C3 *)

(** C3, what the code does at the quadruple F4 90 80 80: the test of
    [UTF8InvalidCodePoint4BytesF4] does not match it, the classifier falls
    through to its last case, logs an unknown error and advances by one
    byte; the scan still ends with [bValidUTF8 = false].  Where the test
    does match (second byte 0xBF), the value it
    decodes leaves out the bits of the leading byte. *)
Theorem C3_F4_90_80_80_reported_as_unknown_error :
  (exists reason', sample_scan [xf4; x90; x80; x80] 4 "" = Ok (false, false, reason'))
  /\ UTF8InvalidCodePoint4BytesF4 [xf4; x90; x80; x80] 0 = Ok None
  /\ UTF8InvalidCodePoint4BytesF4 [xf4; xbf; x80; x80] 0 = Ok (Some 0x3F000)
  /\ UTF8CheckErrors [xf4; x90; x80; x80] 0 0 4 ""
     = Ok (1, "Unknown UTF-8 error: checked all known UTF-8 error classes, none of them matched at 0 (assumed length=1): [11110100 10010000 10000000 10000000]" ++ endl).
Proof.
  split; [eexists; vm_compute; reflexivity|].
  repeat split; vm_compute; reflexivity.
Qed.

(** The test of the F4 class holds exactly when the lead is 0xF4 and the
    second byte is at least 0xBF. *)
Lemma UTF8InvalidCodePoint4BytesF4_matches (b0 b1 b2 b3 : byte) (suf : list byte) :
  (exists cp, UTF8InvalidCodePoint4BytesF4 (b0 :: b1 :: b2 :: b3 :: suf) 0 = Ok (Some cp))
  <-> u8 b0 = 0xF4 /\ 0xBF <= u8 b1.
Proof.
  rewrite (UTF8InvalidCodePoint4BytesF4_view _ 0 (u8 b0) (u8 b1) (u8 b2) (u8 b3))
    by reflexivity.
  destruct (Z.eqb_spec (u8 b0) 0xF4), (Z.leb_spec 0x90 (u8 b1)), (Z.leb_spec 0xBF (u8 b1));
    cbn [andb]; (split; [intros [cp Hcp]; try discriminate Hcp; lia | intros Hc; try lia; eauto]).
Qed.

(** ** The 4-byte overlong test on its own *)

(** Taken by itself, the test of [UTF8Invalid4BytesOverlong] holds for the
    leading byte F0 with any continuation byte after it, [0x80, 0xBF]; the
    comment at its definition gives the range as [0x80, 0x8F].  Which byte
    pairs the test is called with is settled below, at its call site. *)
Lemma UTF8Invalid4BytesOverlong_range (b0 b1 : byte) (suf : list byte) :
  UTF8Invalid4BytesOverlong (b0 :: b1 :: suf) 0 = Ok true
  <-> u8 b0 = 0xF0 /\ 0x80 <= u8 b1 <= 0xBF.
Proof.
  rewrite (UTF8Invalid4BytesOverlong_view _ 0 (u8 b0) (u8 b1)) by reflexivity.
  destruct (Z.eqb_spec (u8 b0) 0xF0), (Z.leb_spec 0x80 (u8 b1)), (Z.leb_spec (u8 b1) 0xBF);
    cbn [andb]; split; try discriminate; try lia; reflexivity.
Qed.

(** ** C4 *)

(** C4, as the code has it.  When [k + 1 > r] the verifier reports
    truncation and reads no byte at offset [r] or beyond (it returns on a
    buffer that ends there).  The resume position is the end of the buffer
    when the bytes at offsets 1..r-1 are all continuation bytes; otherwise it
    is the first of them that is not, and a mismatch is reported as well. *)
Theorem C4_truncated_continuation_check (buf : list byte) (p k r : Z)
    (bMismatchFound : bool) (whereToContinueChecking : option Z) :
  0 <= p -> 1 <= r -> p + r <= blen buf -> 0 <= k -> k + 1 < SIZE_MOD ->
  k + 1 > r ->
  exists m q,
    UTF8InvalidNrOfContinuationBytes buf p k r bMismatchFound whereToContinueChecking
    = Ok (true, m, Some q)
    /\ ((q = p + r /\ m = bMismatchFound /\ continuation_run buf p 1 r)
        \/ (p + 1 <= q < p + r /\ m = true
            /\ UTF8IsContinuationByte buf q = Ok false
            /\ continuation_run buf p 1 (q - p))).
Proof.
  intros Hp Hr Hb Hk Hk1 Ht.
  destruct (UTF8InvalidNrOfContinuationBytes_spec buf p k r bMismatchFound
              whereToContinueChecking Hp Hr Hb Hk Hk1) as (m & w & E & Hcase).
  assert (Hgt : (k + 1 >? r) = true) by (rewrite Z.gtb_ltb; apply Z.ltb_lt; lia).
  rewrite Hgt in *. rewrite Z.min_l in Hcase by lia.
  destruct Hcase as [(-> & -> & Hrun)|(j & Hj & -> & -> & Hbad & Hrun)].
  - exists bMismatchFound, (p + r). split; [exact E|]. left. auto.
  - exists true, (p + j). split; [exact E|]. right.
    replace (p + j - p) with j by lia. repeat split; auto; lia.
Qed.

(** C4 fails as stated: for the two remaining bytes F0 41 and three
    required continuation bytes, the verifier reports truncation but the
    resume position is offset 1, the byte 0x41, not the end of the buffer at
    offset 2; [UTF8InvalidLeadingOrContinuation] moves the cursor there. *)
Lemma C4_truncated_resumes_at_mismatch :
  UTF8InvalidNrOfContinuationBytes [xf0; x41] 0 3 2 false None = Ok (true, true, Some 1)
  /\ Some 1 <> Some (0 + 2)
  /\ exists reason',
       UTF8InvalidLeadingOrContinuation [xf0; x41] 0 0 2 "" = Ok (true, 1, reason').
Proof.
  split; [reflexivity|]. split; [discriminate|]. eexists. vm_compute. reflexivity.
Qed.

Lemma C4_truncated_continuation_check_witness :
  exists m q,
    UTF8InvalidNrOfContinuationBytes [xe2; x82] 0 2 2 false None = Ok (true, m, Some q)
    /\ ((q = 0 + 2 /\ m = false /\ continuation_run [xe2; x82] 0 1 2)
        \/ (0 + 1 <= q < 0 + 2 /\ m = true
            /\ UTF8IsContinuationByte [xe2; x82] q = Ok false
            /\ continuation_run [xe2; x82] 0 1 (q - 0))).
Proof.
  apply (C4_truncated_continuation_check [xe2; x82] 0 2 2 false None);
    unfold SIZE_MOD; cbn; lia.
Defined.

(** ** C5 *)

(** C5.  On every sample that fits the address space, no step of the scan
    reads outside the buffer: at every cursor position, including the last
    byte, the bounds-checked validation and the error classifier return
    without fault; so does the unchecked validation wherever the unchecked
    scan can stand (at least 4 bytes before the end); and so does the whole
    scan of the sample, in the mode [CheckStreamForUTF8NoBOM] selects. *)
Theorem C5_scan_reads_inside_buffer (buf : list byte) :
  addressable buf ->
  (forall p reason, 0 <= p < blen buf ->
     (exists r, UTF8CharValidate true buf p (blen buf) reason = Ok r)
     /\ (exists r, UTF8CheckErrors buf p 0 (blen buf) reason = Ok r))
  /\ (forall p e reason, 0 <= p -> p + 4 <= blen buf ->
        exists r, UTF8CharValidate false buf p e reason = Ok r)
  /\ (forall reason, exists r, sample_scan buf (blen buf) reason = Ok r).
Proof.
  intros Ha. split; [|split].
  - intros p reason Hp. split.
    + destruct (UTF8CharValidate_spec true buf p (blen buf) reason) as (p' & v & a & r & E & _);
        [lia|lia|]. eauto.
    + destruct (UTF8CheckErrors_spec buf p 0 (blen buf) reason Ha) as (p' & r & E & _);
        [lia|lia|]. eauto.
  - intros p e reason Hp Hb.
    destruct (UTF8CharValidate_spec false buf p e reason) as (p' & v & a & r & E & _);
      [lia|exact Hb|]. eauto.
  - intros reason. pose proof (blen_nonneg buf).
    destruct (sample_scan_total buf (blen buf) reason Ha) as (v & a & r & E); [lia|]. eauto.
Qed.

Lemma C5_scan_reads_inside_buffer_witness :
  ((exists r, UTF8CharValidate true [x61; xe2; x82; xf0] 3 4 "" = Ok r)
   /\ (exists r, UTF8CheckErrors [x61; xe2; x82; xf0] 3 0 4 "" = Ok r))
  /\ (exists r, UTF8CharValidate false [x61; xe2; x82; xf0] 0 0 "" = Ok r)
  /\ (exists r, sample_scan [x61; xe2; x82; xf0] 4 "" = Ok r).
Proof.
  assert (Ha : addressable [x61; xe2; x82; xf0]) by (unfold addressable, SIZE_MOD; cbn; lia).
  pose proof (C5_scan_reads_inside_buffer [x61; xe2; x82; xf0] Ha) as (H1 & H2 & H3).
  split; [|split].
  - apply (H1 3 ""). cbn. lia.
  - apply (H2 0 0 ""); cbn; lia.
  - exact (H3 "").
Defined.

(** ** C6 *)

(** C6.  On every sample of length L that fits the address space, each
    execution of the loop body entered with the cursor before [stopPos]
    returns with the cursor strictly larger (the validation advances it when
    the character is valid, the error classifier when it is not), and the
    loop over the whole sample ends within L iterations. *)
Theorem C6_cursor_advances_and_scan_terminates (buf : list byte) :
  addressable buf ->
  (forall chk start stop st,
     0 <= st_ucharPtr st < stop -> scan_limit chk stop <= blen buf ->
     exists st', scan_iteration chk buf start stop st = Ok (st', false)
                 /\ st_ucharPtr st < st_ucharPtr st')
  /\ (forall p e reason, 0 <= p < e -> e <= blen buf ->
        exists p' reason', UTF8CheckErrors buf p 0 e reason = Ok (p', reason') /\ p < p')
  /\ (forall reason, exists st',
        scan_loop true buf 0 (blen buf) (List.length buf) (mkScan 0 true true reason) = Ok st'
        /\ st_ucharPtr st' = blen buf)
  /\ (forall reason, exists r, sample_scan buf (blen buf) reason = Ok r).
Proof.
  intros Ha. split; [|split; [|split]].
  - intros chk start stop st Hp Hb.
    destruct (scan_iteration_spec chk buf start stop st Ha Hp Hb) as (st' & E & Hadv).
    exists st'. split; [exact E|lia].
  - intros p e reason Hp He.
    destruct (UTF8CheckErrors_spec buf p 0 e reason Ha Hp He) as (p' & r & E & Hadv).
    exists p', r. split; [exact E|lia].
  - intros reason.
    assert (Hstay : forall fuel st st',
               st_ucharPtr st <= blen buf ->
               0 <= st_ucharPtr st ->
               scan_loop true buf 0 (blen buf) fuel st = Ok st' ->
               st_ucharPtr st' <= blen buf).
    { induction fuel as [|fuel IH]; intros st st' Hle Hge H; cbn [scan_loop] in H.
      - destruct (Z.ltb_spec (st_ucharPtr st) (blen buf)); [discriminate|].
        now inversion H; subst.
      - destruct (Z.ltb_spec (st_ucharPtr st) (blen buf)) as [Hlt|];
          [|now inversion H; subst].
        destruct (scan_iteration_spec true buf 0 (blen buf) st Ha) as (st1 & E & Hadv);
          [lia|unfold scan_limit; lia|].
        rewrite E in H. cbn [bind] in H. unfold scan_limit in Hadv.
        apply (IH st1 st'); [lia|lia|exact H]. }
    destruct (scan_loop_total true buf 0 (blen buf) Ha) with
      (fuel := List.length buf) (st := mkScan 0 true true reason) as (st' & E & Hend);
      [unfold scan_limit; lia|cbn [st_ucharPtr]; lia|cbn [st_ucharPtr]; unfold blen; lia|].
    exists st'. split; [exact E|].
    pose proof (blen_nonneg buf).
    assert (Hle : st_ucharPtr st' <= blen buf)
      by (apply (Hstay (List.length buf) (mkScan 0 true true reason) st');
          [cbn [st_ucharPtr]; lia|cbn [st_ucharPtr]; lia|exact E]).
    lia.
  - intros reason. pose proof (blen_nonneg buf).
    destruct (sample_scan_total buf (blen buf) reason Ha) as (v & a & r & E); [lia|]. eauto.
Qed.

Lemma C6_cursor_advances_and_scan_terminates_witness :
  (exists st', scan_iteration true [xc0; x80; x61] 0 3 (mkScan 0 true true "") = Ok (st', false)
               /\ 0 < st_ucharPtr st')
  /\ (exists p' reason', UTF8CheckErrors [xc0; x80; x61] 0 0 3 "" = Ok (p', reason') /\ 0 < p')
  /\ (exists st', scan_loop true [xc0; x80; x61] 0 3 3 (mkScan 0 true true "") = Ok st'
                  /\ st_ucharPtr st' = 3)
  /\ (exists r, sample_scan [xc0; x80; x61] 3 "" = Ok r).
Proof.
  assert (Ha : addressable [xc0; x80; x61]) by (unfold addressable, SIZE_MOD; cbn; lia).
  pose proof (C6_cursor_advances_and_scan_terminates [xc0; x80; x61] Ha)
    as (H1 & H2 & H3 & H4).
  split; [|split; [|split]].
  - apply (H1 true 0 3 (mkScan 0 true true "")); cbn; lia.
  - apply (H2 0 3 ""); cbn; lia.
  - exact (H3 "").
  - exact (H4 "").
Defined.

(** ** C10 *)

(** C10.  In every state the scan loop passes through, and so in the
    verdict it returns, [b7bitASCIIOnly = true] implies
    [bValidUTF8 = true]. *)
Theorem C10_ascii_only_implies_valid (chk : bool) (buf : list byte) (start stop : Z)
    (reason0 : string) :
  (forall st, scan_reaches chk buf start stop reason0 st ->
     st_b7bitASCIIOnly st = true -> st_bValidUTF8 st = true)
  /\ (forall v a reason',
        CheckStreamForUTF8NoBOMInternal chk buf start stop reason0 = Ok (v, a, reason') ->
        a = true -> v = true).
Proof.
  split.
  - intros st. apply scan_reaches_invariant.
  - unfold CheckStreamForUTF8NoBOMInternal. intros v a reason' H Ha.
    destruct (scan_loop chk buf start stop (Z.to_nat (stop - start))
                (mkScan start true true reason0)) as [st'|] eqn:E; cbn [bind] in H;
      [|discriminate].
    injection H as Hv Hasc _. rewrite <- Hv. rewrite <- Hasc in Ha.
    apply (scan_reaches_invariant chk buf start stop reason0 st'); [|exact Ha].
    eapply scan_loop_reaches; [apply reaches_init|exact E].
Qed.

Lemma C10_ascii_only_implies_valid_witness :
  CheckStreamForUTF8NoBOMInternal true [x61; x62] 0 2 "" = Ok (true, true, "")
  /\ st_bValidUTF8 (mkScan 1 true true "") = true.
Proof.
  pose proof (C10_ascii_only_implies_valid true [x61; x62] 0 2 "") as [H1 H2].
  split; [reflexivity|].
  apply H1; [|reflexivity].
  eapply reaches_step; [apply reaches_init| |]; cbn; [lia|reflexivity].
Defined.

(** ** C7 *)

Lemma LE_BOM_is_not_BE_BOM (data : list byte) :
  starts_with UTF16BE_BOM data -> ~ starts_with UTF16LE_BOM data.
Proof.
  unfold starts_with, UTF16BE_BOM, UTF16LE_BOM. cbn [List.length].
  intros H1 H2. rewrite H1 in H2. discriminate H2.
Qed.

(** C7, as the code has it.  On a stream at offset 0: if it starts with
    FF FE the result is true and the flag is set to little-endian; if it
    starts with FE FF the result is true and the flag is set to big-endian;
    if it starts with neither the result is false and the flag holds the
    value the caller passed in, which the function does not assign. *)
Theorem C7_utf16_bom_endianness (ifs : ifstream) (reason : string) (bLittleEndian : bool) :
  at_start ifs ->
  (starts_with UTF16LE_BOM (content ifs) ->
     exists ifs' reason',
       CheckStreamForUTF16BOM ifs reason bLittleEndian = Ok (true, true, ifs', reason'))
  /\ (starts_with UTF16BE_BOM (content ifs) ->
        exists ifs' reason',
          CheckStreamForUTF16BOM ifs reason bLittleEndian = Ok (true, false, ifs', reason'))
  /\ (~ starts_with UTF16LE_BOM (content ifs) -> ~ starts_with UTF16BE_BOM (content ifs) ->
        exists ifs' reason',
          CheckStreamForUTF16BOM ifs reason bLittleEndian
          = Ok (false, bLittleEndian, ifs', reason')).
Proof.
  intros Hs. rewrite (at_start_inv ifs Hs). cbn [content].
  generalize (content ifs) (last_gcount ifs). clear ifs Hs. intros data g.
  unfold CheckStreamForUTF16BOM. rewrite assert_at_start_ok. cbn [bind].
  split; [|split].
  - intros HLE. rewrite (CheckStreamForSignature_found _ _ _ _ HLE). cbn. eauto.
  - intros HBE.
    destruct (CheckStreamForSignature_not_found data g reason UTF16LE_BOM
                (LE_BOM_is_not_BE_BOM data HBE)) as [g' ->].
    cbn [bind]. rewrite (CheckStreamForSignature_found _ _ _ _ HBE). cbn. eauto.
  - intros HLE HBE.
    destruct (CheckStreamForSignature_not_found data g reason UTF16LE_BOM HLE) as [g' ->].
    cbn [bind].
    destruct (CheckStreamForSignature_not_found data g' reason UTF16BE_BOM HBE) as [g'' ->].
    cbn. eauto.
Qed.

(** C7 fails as stated on the not-found path: on the stream 00 00 the flag
    comes back true when the caller passed true and false when the caller
    passed false, so the function leaves it at no value of its own. *)
Lemma C7_flag_not_assigned_when_no_bom :
  (exists ifs' reason',
     CheckStreamForUTF16BOM (ifstream_open [x00; x00]) "" true = Ok (false, true, ifs', reason'))
  /\ (exists ifs' reason',
        CheckStreamForUTF16BOM (ifstream_open [x00; x00]) "" false
        = Ok (false, false, ifs', reason'))
  /\ ~ (exists d, forall le, exists ifs' reason',
          CheckStreamForUTF16BOM (ifstream_open [x00; x00]) "" le = Ok (false, d, ifs', reason')).
Proof.
  split; [do 2 eexists; vm_compute; reflexivity|].
  split; [do 2 eexists; vm_compute; reflexivity|].
  intros [d Hd].
  destruct (Hd true) as (i1 & r1 & H1). destruct (Hd false) as (i2 & r2 & H2).
  vm_compute in H1, H2. congruence.
Qed.

Lemma C7_utf16_bom_endianness_witness :
  (exists ifs' reason',
     CheckStreamForUTF16BOM (ifstream_open [xff; xfe; x41; x00]) "" false
     = Ok (true, true, ifs', reason'))
  /\ (exists ifs' reason',
        CheckStreamForUTF16BOM (ifstream_open [xfe; xff; x00; x41]) "" true
        = Ok (true, false, ifs', reason'))
  /\ (exists ifs' reason',
        CheckStreamForUTF16BOM (ifstream_open [x00; x00]) "" true
        = Ok (false, true, ifs', reason')).
Proof.
  split; [|split].
  - apply (C7_utf16_bom_endianness (ifstream_open [xff; xfe; x41; x00]) "" false);
      reflexivity.
  - apply (C7_utf16_bom_endianness (ifstream_open [xfe; xff; x00; x41]) "" true);
      reflexivity.
  - apply (C7_utf16_bom_endianness (ifstream_open [x00; x00]) "" true);
      [reflexivity|discriminate|discriminate].
Defined.

(** ** C8 *)

(** C8.  On a stream at offset 0: if it starts with EF BB BF,
    [CheckStreamForUTF8BOM] returns true and leaves the stream at offset 3,
    just after the signature; otherwise (a differing byte, or fewer than 3
    bytes) it returns false and leaves the stream at offset 0. *)
Theorem C8_utf8_bom_consumed_or_rewound (ifs : ifstream) (reason : string) :
  at_start ifs ->
  (starts_with UTF8BOM (content ifs) ->
     exists ifs' reason',
       CheckStreamForUTF8BOM ifs reason = Ok (true, ifs', reason')
       /\ fst (tellg ifs') = 3)
  /\ (~ starts_with UTF8BOM (content ifs) ->
        exists ifs' reason',
          CheckStreamForUTF8BOM ifs reason = Ok (false, ifs', reason')
          /\ fst (tellg ifs') = 0).
Proof.
  intros Hs. rewrite (at_start_inv ifs Hs). cbn [content].
  generalize (content ifs) (last_gcount ifs). clear ifs Hs. intros data g.
  unfold CheckStreamForUTF8BOM. rewrite assert_at_start_ok. cbn [bind].
  split.
  - intros HB. rewrite (CheckStreamForSignature_found _ _ _ _ HB). cbn.
    do 2 eexists. split; reflexivity.
  - intros HB.
    destruct (CheckStreamForSignature_not_found data g reason UTF8BOM HB) as [g' ->].
    cbn. do 2 eexists. split; reflexivity.
Qed.

Lemma C8_utf8_bom_consumed_or_rewound_witness :
  (exists ifs' reason',
     CheckStreamForUTF8BOM (ifstream_open [xef; xbb; xbf; x78]) "" = Ok (true, ifs', reason')
     /\ fst (tellg ifs') = 3)
  /\ (exists ifs' reason',
        CheckStreamForUTF8BOM (ifstream_open [xef; xbb; x00]) "" = Ok (false, ifs', reason')
        /\ fst (tellg ifs') = 0).
Proof.
  split.
  - apply (C8_utf8_bom_consumed_or_rewound (ifstream_open [xef; xbb; xbf; x78]) "");
      reflexivity.
  - apply (C8_utf8_bom_consumed_or_rewound (ifstream_open [xef; xbb; x00]) "");
      [reflexivity|discriminate].
Defined.

(** * Further properties of the code *)

(** ** Single-byte tests *)

Lemma rd_inv (buf : list byte) (i z : Z) :
  rd buf i = Ok z ->
  0 <= i /\ exists b, nth_error buf (Z.to_nat i) = Some b /\ z = u8 b.
Proof.
  unfold rd. destruct (Z.ltb_spec i 0); [discriminate|].
  destruct (nth_error buf (Z.to_nat i)) as [b|]; [|discriminate].
  intros [= <-]. eauto.
Qed.

Lemma land_C0_range (b : byte) :
  (Z.land (u8 b) 0xC0 =? 0x80) = (0x80 <=? u8 b) && (u8 b <=? 0xBF).
Proof. destruct b; reflexivity. Qed.

Lemma land_80_range (b : byte) : (Z.land (u8 b) 0x80 =? 0) = (u8 b <=? 0x7F).
Proof. destruct b; reflexivity. Qed.

Lemma UTF8IsValidLeadingByte_rd (buf : list byte) (p : Z) (b : byte) :
  rd buf p = Ok (u8 b) ->
  UTF8IsValidLeadingByte buf p = Ok (leading_byte_class (u8 b)).
Proof.
  intros R. unfold UTF8IsValidLeadingByte. rewrite R. cbn [bind].
  destruct b; reflexivity.
Qed.

(** X1.  [UTF8IsValidLeadingByte] decides by the value of the byte alone:
    0x00-0x7F valid, length 1; 0x80-0xBF invalid, assumed length 1;
    0xC0-0xDF valid, 2; 0xE0-0xEF valid, 3; 0xF0-0xF7 valid, 4; 0xF8-0xFB
    invalid, 5; 0xFC-0xFD invalid, 6; 0xFE-0xFF invalid, 1. *)
Theorem X1_leading_byte_decoder_table (pre suf : list byte) (b : byte) :
  UTF8IsValidLeadingByte (pre ++ b :: suf) (blen pre) = Ok (leading_byte_class (u8 b)).
Proof. apply UTF8IsValidLeadingByte_rd. now rewrite rd_app_0. Qed.

(** X2.  The bit test of [UTF8IsContinuationByte] holds exactly for the
    bytes 0x80-0xBF. *)
Theorem X2_continuation_byte_range (pre suf : list byte) (b : byte) :
  UTF8IsContinuationByte (pre ++ b :: suf) (blen pre)
  = Ok ((0x80 <=? u8 b) && (u8 b <=? 0xBF)).
Proof.
  rewrite (UTF8IsContinuationByte_view _ _ (u8 b)) by now rewrite rd_app_0.
  now rewrite land_C0_range.
Qed.

(** X3.  Every byte below 0x80 is either ASCII-valid for [UTF8CharASCII7]
    or a control character for [UTF8InvalidControlChar], never both, and no
    byte from 0x80 on is either; the control characters are 0x00-0x08,
    0x0B, 0x0C, 0x0E-0x1F and 0x7F. *)
Theorem X3_ascii_or_control_below_0x80 (pre suf : list byte) (b : byte) :
  exists a c,
    UTF8CharASCII7 (pre ++ b :: suf) (blen pre) = Ok a
    /\ UTF8InvalidControlChar (pre ++ b :: suf) (blen pre) = Ok c
    /\ a || c = (u8 b <=? 0x7F)
    /\ a && c = false
    /\ (c = true <-> u8 b <= 0x08 \/ u8 b = 0x0B \/ u8 b = 0x0C
                     \/ 0x0E <= u8 b <= 0x1F \/ u8 b = 0x7F).
Proof.
  assert (R : rd (pre ++ b :: suf) (blen pre) = Ok (u8 b)) by now rewrite rd_app_0.
  rewrite (UTF8CharASCII7_view _ _ _ R), (UTF8InvalidControlChar_view _ _ _ R).
  rewrite land_80_range. do 2 eexists. split; [reflexivity|]. split; [reflexivity|].
  pose proof (u8_range b).
  destruct (Z.eqb_spec (u8 b) 0x09), (Z.eqb_spec (u8 b) 0x0A), (Z.eqb_spec (u8 b) 0x0D),
    (Z.leb_spec 0x20 (u8 b)), (Z.leb_spec (u8 b) 0x7E), (Z.leb_spec (u8 b) 0x7F);
    cbn [andb orb negb]; repeat split; intros; try discriminate; try reflexivity; lia.
Qed.

Ltac decide_leb :=
  repeat match goal with
         | |- context [?a <=? ?b] =>
             first [ rewrite (proj2 (Z.leb_le a b)) by lia
                   | rewrite (proj2 (Z.leb_gt a b)) by lia ]
         end.

(** Compute [leading_byte_class] from what the context knows of the byte. *)
Ltac class_by_range :=
  subst; unfold leading_byte_class; decide_leb; reflexivity.

Ltac test_true_ranges H R :=
  unfold UTF8CharASCII7, UTF8CharValid2Bytes, UTF8CharValid3Bytes, UTF8CharValid4Bytes,
    in_range, is_byte, and_then, or_else in H;
  rewrite R in H; cbn [bind] in H.

Lemma rd_first_of_test (buf : list byte) (p : Z) (k : Z -> result bool) :
  (z <- rd buf p ;; k z) = Ok true -> exists b, rd buf p = Ok (u8 b).
Proof.
  destruct (rd buf p) as [z|] eqn:R; cbn [bind]; [|discriminate]. intros _.
  destruct (rd_inv buf p z R) as (_ & b & _ & ->). eauto.
Qed.

(** X4.  The four validity tests agree with the leading-byte decoder on the
    length: where the 1-, 2-, 3- or 4-byte test holds, the decoder reports a
    valid leading byte of exactly that length.  So at most one of the four
    tests holds at a position. *)
Theorem X4_valid_tests_agree_with_decoder (buf : list byte) (p : Z) :
  (UTF8CharASCII7 buf p = Ok true -> UTF8IsValidLeadingByte buf p = Ok (true, 1))
  /\ (UTF8CharValid2Bytes buf p = Ok true -> UTF8IsValidLeadingByte buf p = Ok (true, 2))
  /\ (UTF8CharValid3Bytes buf p = Ok true -> UTF8IsValidLeadingByte buf p = Ok (true, 3))
  /\ (UTF8CharValid4Bytes buf p = Ok true -> UTF8IsValidLeadingByte buf p = Ok (true, 4)).
Proof.
  repeat split; intros H.
  all: assert (Hb : exists b, rd buf p = Ok (u8 b))
         by (revert H;
             unfold UTF8CharASCII7, UTF8CharValid2Bytes, UTF8CharValid3Bytes,
               UTF8CharValid4Bytes, in_range, is_byte, and_then, or_else;
             destruct (rd buf p) as [z|] eqn:R; cbn [bind]; [|discriminate];
             intros _; destruct (rd_inv buf p z R) as (_ & b & _ & ->); eauto).
  all: destruct Hb as [b R]; rewrite (UTF8IsValidLeadingByte_rd buf p b R);
    test_true_ranges H R; pose proof (u8_range b);
    remember (leading_byte_class (u8 b)) as cls eqn:Ecls.
  - destruct (Z.eqb_spec (u8 b) 0x09), (Z.eqb_spec (u8 b) 0x0A), (Z.eqb_spec (u8 b) 0x0D),
      (Z.leb_spec 0x20 (u8 b)), (Z.leb_spec (u8 b) 0x7E);
      cbn [andb bind] in H; try discriminate H; class_by_range.
  - destruct (Z.leb_spec 0xC2 (u8 b)), (Z.leb_spec (u8 b) 0xDF);
      cbn [andb bind] in H; try discriminate H; class_by_range.
  - destruct (Z.leb_spec 0xE1 (u8 b)), (Z.leb_spec (u8 b) 0xEC), (Z.eqb_spec (u8 b) 0xEE),
      (Z.eqb_spec (u8 b) 0xEF), (Z.eqb_spec (u8 b) 0xE0), (Z.eqb_spec (u8 b) 0xED);
      cbn [andb orb bind] in H; try discriminate H; try lia; class_by_range.
  - destruct (Z.eqb_spec (u8 b) 0xF0), (Z.leb_spec 0xF1 (u8 b)), (Z.leb_spec (u8 b) 0xF3),
      (Z.eqb_spec (u8 b) 0xF4);
      cbn [andb orb bind] in H; try discriminate H; try lia; class_by_range.
Qed.

Lemma X4_valid_tests_agree_with_decoder_witness :
  UTF8IsValidLeadingByte [x61; xc3; xa9; xe2; x82; xac; xf0; x9f; x98; x80] 0 = Ok (true, 1)
  /\ UTF8IsValidLeadingByte [x61; xc3; xa9; xe2; x82; xac; xf0; x9f; x98; x80] 1 = Ok (true, 2)
  /\ UTF8IsValidLeadingByte [x61; xc3; xa9; xe2; x82; xac; xf0; x9f; x98; x80] 3 = Ok (true, 3)
  /\ UTF8IsValidLeadingByte [x61; xc3; xa9; xe2; x82; xac; xf0; x9f; x98; x80] 6 = Ok (true, 4).
Proof.
  split; [|split; [|split]].
  - apply (X4_valid_tests_agree_with_decoder _ 0). reflexivity.
  - apply (X4_valid_tests_agree_with_decoder _ 1). reflexivity.
  - apply (X4_valid_tests_agree_with_decoder _ 3). reflexivity.
  - apply (X4_valid_tests_agree_with_decoder _ 6). reflexivity.
Defined.

(** ** Rendering *)

(** X5.  [UcharToBinStr] writes 8 binary digits that denote the byte: read
    back as a binary number they give the byte's value, so distinct bytes
    have distinct renderings. *)
Theorem X5_UcharToBinStr_round_trip (b : byte) :
  bin_string_value (UcharToBinStr (u8 b)) = u8 b
  /\ String.length (UcharToBinStr (u8 b)) = 8%nat
  /\ forall b', UcharToBinStr (u8 b) = UcharToBinStr (u8 b') -> b = b'.
Proof.
  assert (RT : forall x, bin_string_value (UcharToBinStr (u8 x)) = u8 x)
    by (intros x; destruct x; reflexivity).
  split; [apply RT|]. split; [destruct b; reflexivity|].
  intros b' E. apply u8_inj. rewrite <- (RT b), <- (RT b'). now rewrite E.
Qed.

Lemma string_app_assoc (a b c : string) : (a ++ b) ++ c = a ++ b ++ c.
Proof. induction a as [|x a IH]; cbn; [reflexivity|now rewrite IH]. Qed.

Lemma string_app_nil_r (a : string) : a ++ "" = a.
Proof. induction a as [|x a IH]; cbn; [reflexivity|now rewrite IH]. Qed.

Lemma rd_beyond (buf : list byte) (i : Z) : blen buf <= i -> rd buf i = Fault OutOfBounds.
Proof.
  intros H. unfold rd, blen in *. destruct (Z.ltb_spec i 0); [reflexivity|].
  destruct (nth_error buf (Z.to_nat i)) eqn:E; [|reflexivity].
  assert (Z.to_nat i < List.length buf)%nat by (apply nth_error_Some; congruence). lia.
Qed.

Lemma UcharSeqToBinStr_loop_render (pre suf w : list byte) :
  forall done acc,
    UcharSeqToBinStr_loop (pre ++ done ++ w ++ suf) (blen pre) (List.length w) (blen done) acc
    = Ok (acc ++ render_tail w).
Proof.
  induction w as [|b w IH]; intros done acc.
  - cbn [List.length UcharSeqToBinStr_loop render_tail]. now rewrite string_app_nil_r.
  - cbn [List.length UcharSeqToBinStr_loop render_tail].
    rewrite rd_app_r by apply blen_nonneg. rewrite rd_app_0. cbn [app]. rewrite rd_0.
    cbn [bind].
    replace (blen done + 1) with (blen (done ++ [b])) by (rewrite blen_app, blen_1; lia).
    replace (pre ++ done ++ b :: w ++ suf)%list with (pre ++ (done ++ [b]) ++ w ++ suf)%list
      by (rewrite <- (app_assoc done); reflexivity).
    rewrite IH. now rewrite !string_app_assoc.
Qed.

Lemma UcharSeqToBinStr_loop_beyond (buf : list byte) (p : Z) (n : nat) :
  forall i acc,
    0 <= p + i <= blen buf -> blen buf < p + i + Z.of_nat n ->
    UcharSeqToBinStr_loop buf p n i acc = Fault OutOfBounds.
Proof.
  induction n as [|n IH]; intros i acc H0 H1; [lia|].
  cbn [UcharSeqToBinStr_loop].
  destruct (Z.eq_dec (p + i) (blen buf)) as [E|E].
  - rewrite rd_beyond by lia. reflexivity.
  - destruct (rd_ok buf (p + i)) as [z ->]; [lia|]. cbn [bind]. apply IH; lia.
Qed.

Lemma UcharSeqToBinStr_window (pre w suf : list byte) :
  UcharSeqToBinStr (pre ++ w ++ suf) (blen pre) (blen w) = Ok (render_bytes w).
Proof.
  unfold UcharSeqToBinStr. destruct w as [|b w].
  - reflexivity.
  - rewrite blen_cons. pose proof (blen_nonneg w).
    rewrite (proj2 (Z.eqb_neq _ _)) by lia.
    rewrite rd_app_0. cbn [app]. rewrite rd_0. cbn [bind render_bytes].
    replace (Z.to_nat (1 + blen w - 1)) with (List.length w) by (unfold blen; lia).
    change 1 with (blen [b]) at 1.
    change (pre ++ b :: w ++ suf)%list with (pre ++ [b] ++ w ++ suf)%list.
    rewrite UcharSeqToBinStr_loop_render. cbn [bind].
    now rewrite !string_app_assoc.
Qed.

(** X6.  [UcharSeqToBinStr] over a window of the buffer returns the octets
    of exactly that window in binary, separated by single spaces and
    enclosed in brackets ("[]" for an empty window); asked for a window that
    runs past the end of the buffer it reads outside the buffer. *)
Theorem X6_UcharSeqToBinStr_renders_window :
  (forall pre w suf : list byte,
     UcharSeqToBinStr (pre ++ w ++ suf) (blen pre) (blen w) = Ok (render_bytes w))
  /\ (forall (buf : list byte) (p len : Z),
        0 <= p -> 0 < len -> blen buf < p + len ->
        UcharSeqToBinStr buf p len = Fault OutOfBounds).
Proof.
  split.
  - apply UcharSeqToBinStr_window.
  - intros buf p len Hp Hl Hb. unfold UcharSeqToBinStr.
    rewrite (proj2 (Z.eqb_neq _ _)) by lia.
    destruct (Z.le_gt_cases (blen buf) p) as [Hout|Hin].
    + now rewrite rd_beyond.
    + destruct (rd_ok buf p) as [z ->]; [lia|]. cbn [bind].
      rewrite UcharSeqToBinStr_loop_beyond; [reflexivity|lia|lia].
Qed.

Lemma X6_UcharSeqToBinStr_renders_window_witness :
  UcharSeqToBinStr [x00; xff; x00; xff] 0 4 = Ok "[00000000 11111111 00000000 11111111]"
  /\ UcharSeqToBinStr [x00; xff] 1 2 = Fault OutOfBounds.
Proof.
  split.
  - exact (proj1 X6_UcharSeqToBinStr_renders_window [] [x00; xff; x00; xff] []).
  - apply (proj2 X6_UcharSeqToBinStr_renders_window); cbn; lia.
Defined.

(** ** What a verdict of the bounds-checked scan means *)

From Stdlib Require Import ZifyBool.

Lemma firstn_snoc_nth (l : list byte) :
  forall i a, nth_error l i = Some a -> firstn (S i) l = (firstn i l ++ [a])%list.
Proof.
  induction l as [|x l IH]; intros [|i] a H; try discriminate H.
  - now injection H as ->.
  - cbn [firstn app]. f_equal. now apply IH.
Qed.

Lemma rd_byte (buf : list byte) (i z : Z) :
  rd buf i = Ok z -> exists b, z = u8 b /\ nth_error buf (Z.to_nat i) = Some b /\ 0 <= i.
Proof. intros R. destruct (rd_inv buf i z R) as (H0 & b & Hn & ->). eauto. Qed.

(** Case analysis on a test whose reads have been resolved. *)
Ltac split_test H :=
  repeat (cbn [bind] in H;
          match type of H with
          | context [if ?c then _ else _] => destruct c eqn:?
          end);
  cbn [bind] in H; try discriminate H;
  try match type of H with Ok _ = Ok _ => injection H as H end.

Ltac name_bytes :=
  repeat match goal with
         | R : rd _ _ = Ok _ |- _ =>
             let b := fresh "b" in
             destruct (rd_byte _ _ _ R) as (b & -> & ? & ?); clear R
         end.

Lemma UTF8CharASCII7_true (buf : list byte) (p : Z) :
  UTF8CharASCII7 buf p = Ok true ->
  0 <= p /\ exists b0,
    nth_error buf (Z.to_nat p) = Some b0 /\ spec_valid_char [b0].
Proof.
  unfold UTF8CharASCII7, in_range, is_byte, and_then, or_else. intros H.
  destruct (rd buf p) as [z0|] eqn:R0; cbn [bind] in H; [|discriminate].
  split_test H; name_bytes; (split; [assumption|]); eexists; (split; [eassumption|]);
    apply valid_ascii; unfold spec_ascii_valid; lia.
Qed.

Lemma UTF8CharValid2Bytes_true (buf : list byte) (p : Z) :
  UTF8CharValid2Bytes buf p = Ok true ->
  0 <= p /\ exists b0 b1,
    nth_error buf (Z.to_nat p) = Some b0
    /\ nth_error buf (Z.to_nat (p + 1)) = Some b1
    /\ spec_valid_char [b0; b1].
Proof.
  unfold UTF8CharValid2Bytes, in_range, is_byte, and_then, or_else. intros H.
  destruct (rd buf p) as [z0|] eqn:R0; cbn [bind] in H; [|discriminate].
  destruct (rd buf (p + 1)) as [z1|] eqn:R1;
    split_test H; name_bytes; (split; [assumption|]); do 2 eexists;
    (split; [eassumption|]); (split; [eassumption|]);
    apply valid_2; unfold spec_continuation; lia.
Qed.

Lemma UTF8CharValid3Bytes_true (buf : list byte) (p : Z) :
  UTF8CharValid3Bytes buf p = Ok true ->
  0 <= p /\ exists b0 b1 b2,
    nth_error buf (Z.to_nat p) = Some b0
    /\ nth_error buf (Z.to_nat (p + 1)) = Some b1
    /\ nth_error buf (Z.to_nat (p + 2)) = Some b2
    /\ spec_valid_char [b0; b1; b2].
Proof.
  unfold UTF8CharValid3Bytes, in_range, is_byte, and_then, or_else. intros H.
  destruct (rd buf p) as [z0|] eqn:R0; cbn [bind] in H; [|discriminate].
  destruct (rd buf (p + 1)) as [z1|] eqn:R1; destruct (rd buf (p + 2)) as [z2|] eqn:R2;
    split_test H; name_bytes; (split; [assumption|]); do 3 eexists;
    (split; [eassumption|]); (split; [eassumption|]); (split; [eassumption|]);
    first [ apply valid_3; unfold spec_continuation; lia
          | apply valid_3_E0; unfold spec_continuation; lia
          | apply valid_3_ED; unfold spec_continuation; lia ].
Qed.

Lemma UTF8CharValid4Bytes_true (buf : list byte) (p : Z) :
  UTF8CharValid4Bytes buf p = Ok true ->
  0 <= p /\ exists b0 b1 b2 b3,
    nth_error buf (Z.to_nat p) = Some b0
    /\ nth_error buf (Z.to_nat (p + 1)) = Some b1
    /\ nth_error buf (Z.to_nat (p + 2)) = Some b2
    /\ nth_error buf (Z.to_nat (p + 3)) = Some b3
    /\ spec_valid_char [b0; b1; b2; b3].
Proof.
  unfold UTF8CharValid4Bytes, in_range, is_byte, and_then, or_else. intros H.
  destruct (rd buf p) as [z0|] eqn:R0; cbn [bind] in H; [|discriminate].
  destruct (rd buf (p + 1)) as [z1|] eqn:R1; destruct (rd buf (p + 2)) as [z2|] eqn:R2;
    destruct (rd buf (p + 3)) as [z3|] eqn:R3;
    split_test H; name_bytes; (split; [assumption|]); do 4 eexists;
    (split; [eassumption|]); (split; [eassumption|]); (split; [eassumption|]);
    (split; [eassumption|]);
    first [ apply valid_4_F0; unfold spec_continuation; lia
          | apply valid_4; unfold spec_continuation; lia
          | apply valid_4_F4; unfold spec_continuation; lia ].
Qed.

Lemma UTF8CharValidate_true_char (chk : bool) (buf : list byte) (p e : Z)
    (reason : string) p' a reason' :
  UTF8CharValidate chk buf p e reason = Ok (p', true, a, reason') ->
  0 <= p
  /\ reason' = reason
  /\ (chk = true -> p' <= e)
  /\ exists c,
       spec_valid_char c /\ p' = p + blen c /\ a = (blen c =? 1)
       /\ firstn (Z.to_nat p') buf = (firstn (Z.to_nat p) buf ++ c)%list.
Proof.
  unfold UTF8CharValidate. intros H.
  destruct (chk && (p >? e - 1)) eqn:G1; [discriminate|].
  pose proof (guard_passed _ _ _ _ G1) as K1.
  destruct (UTF8CharASCII7 buf p) as [[|]|] eqn:T1; cbn [bind] in H; [| |discriminate].
  { injection H as <- <- <-.
    destruct (UTF8CharASCII7_true buf p T1) as (Hp & b0 & N0 & Hc).
    repeat split; auto. exists [b0]. rewrite blen_1. repeat split; auto.
    replace (Z.to_nat (p + 1)) with (S (Z.to_nat p)) by lia.
    now apply firstn_snoc_nth. }
  destruct (chk && (p >? e - 2)) eqn:G2; [discriminate|].
  pose proof (guard_passed _ _ _ _ G2) as K2.
  destruct (UTF8CharValid2Bytes buf p) as [[|]|] eqn:T2; cbn [bind] in H; [| |discriminate].
  { injection H as <- <- <-.
    destruct (UTF8CharValid2Bytes_true buf p T2) as (Hp & b0 & b1 & N0 & N1 & Hc).
    repeat split; auto. exists [b0; b1]. rewrite blen_2. repeat split; auto.
    replace (Z.to_nat (p + 2)) with (S (S (Z.to_nat p))) by lia.
    replace (Z.to_nat (p + 1)) with (S (Z.to_nat p)) in N1 by lia.
    rewrite (firstn_snoc_nth _ _ _ N1), (firstn_snoc_nth _ _ _ N0).
    now rewrite <- app_assoc. }
  destruct (chk && (p >? e - 3)) eqn:G3; [discriminate|].
  pose proof (guard_passed _ _ _ _ G3) as K3.
  destruct (UTF8CharValid3Bytes buf p) as [[|]|] eqn:T3; cbn [bind] in H; [| |discriminate].
  { injection H as <- <- <-.
    destruct (UTF8CharValid3Bytes_true buf p T3) as (Hp & b0 & b1 & b2 & N0 & N1 & N2 & Hc).
    repeat split; auto. exists [b0; b1; b2]. rewrite blen_3. repeat split; auto.
    replace (Z.to_nat (p + 3)) with (S (S (S (Z.to_nat p)))) by lia.
    replace (Z.to_nat (p + 1)) with (S (Z.to_nat p)) in N1 by lia.
    replace (Z.to_nat (p + 2)) with (S (S (Z.to_nat p))) in N2 by lia.
    rewrite (firstn_snoc_nth _ _ _ N2), (firstn_snoc_nth _ _ _ N1),
      (firstn_snoc_nth _ _ _ N0).
    now rewrite <- !app_assoc. }
  destruct (chk && (p >? e - 4)) eqn:G4; [discriminate|].
  pose proof (guard_passed _ _ _ _ G4) as K4.
  destruct (UTF8CharValid4Bytes buf p) as [[|]|] eqn:T4; cbn [bind] in H;
    [|discriminate|discriminate].
  injection H as <- <- <-.
  destruct (UTF8CharValid4Bytes_true buf p T4)
    as (Hp & b0 & b1 & b2 & b3 & N0 & N1 & N2 & N3 & Hc).
  repeat split; auto. exists [b0; b1; b2; b3]. rewrite blen_4. repeat split; auto.
  replace (Z.to_nat (p + 4)) with (S (S (S (S (Z.to_nat p))))) by lia.
  replace (Z.to_nat (p + 1)) with (S (Z.to_nat p)) in N1 by lia.
  replace (Z.to_nat (p + 2)) with (S (S (Z.to_nat p))) in N2 by lia.
  replace (Z.to_nat (p + 3)) with (S (S (S (Z.to_nat p)))) in N3 by lia.
  rewrite (firstn_snoc_nth _ _ _ N3), (firstn_snoc_nth _ _ _ N2),
    (firstn_snoc_nth _ _ _ N1), (firstn_snoc_nth _ _ _ N0).
  now rewrite <- !app_assoc.
Qed.

Lemma forallb_snoc {A} (f : A -> bool) (l : list A) (x : A) :
  forallb f (l ++ [x]) = forallb f l && f x.
Proof. rewrite forallb_app. cbn. now rewrite andb_true_r. Qed.

Lemma scan_iteration_prefix (chk : bool) (buf : list byte) (start stop : Z)
    (st st' : scan_state) (brk : bool) :
  scan_iteration chk buf start stop st = Ok (st', brk) ->
  scanned_prefix_valid buf st ->
  scanned_prefix_valid buf st'
  /\ (chk = true -> st_bValidUTF8 st' = true -> st_ucharPtr st' <= stop)
  /\ (brk = true -> st_bValidUTF8 st' = false).
Proof.
  unfold scan_iteration. intros H Hinv.
  destruct (UTF8CharValidate chk buf (st_ucharPtr st) stop (st_reason st))
    as [[[[p' v] a] r]|] eqn:EV; cbn [bind] in H; [|discriminate].
  unfold UTF8_DETAILED_ERROR_LIST in H. cbn [negb] in H. rewrite andb_false_r in H.
  destruct v; cbn [negb] in H.
  - injection H as <- <-.
    destruct (UTF8CharValidate_true_char _ _ _ _ _ _ _ _ EV)
      as (Hp & _ & Hle & c & Hc & -> & -> & Hseg).
    unfold scanned_prefix_valid. cbn [st_bValidUTF8 st_ucharPtr st_b7bitASCIIOnly].
    rewrite andb_true_r. split; [|split; [auto|discriminate]].
    intros Hv. destruct (Hinv Hv) as (_ & chars & Hchars & Hcat & Hasc).
    pose proof (spec_valid_char_len c Hc).
    split; [lia|]. exists (chars ++ [c])%list. repeat split.
    + apply Forall_app. auto.
    + rewrite concat_app. cbn [List.concat]. rewrite app_nil_r, Hcat. now rewrite Hseg.
    + now rewrite forallb_snoc, Hasc.
  - destruct (UTF8CheckErrors buf p' start stop r) as [[q r']|]; cbn [bind] in H;
      [|discriminate].
    injection H as <- <-. unfold scanned_prefix_valid.
    cbn [st_bValidUTF8]. rewrite andb_false_r.
    repeat split; intros; discriminate.
Qed.

Lemma scan_loop_prefix (chk : bool) (buf : list byte) (start stop : Z) :
  forall fuel st st',
    scan_loop chk buf start stop fuel st = Ok st' ->
    scanned_prefix_valid buf st ->
    (chk = true -> st_bValidUTF8 st = true -> st_ucharPtr st <= stop) ->
    scanned_prefix_valid buf st'
    /\ (st_bValidUTF8 st' = true -> stop <= st_ucharPtr st')
    /\ (chk = true -> st_bValidUTF8 st' = true -> st_ucharPtr st' <= stop).
Proof.
  induction fuel as [|fuel IH]; intros st st' H Hinv Hle; cbn [scan_loop] in H.
  - destruct (Z.ltb_spec (st_ucharPtr st) stop); [discriminate|].
    injection H as <-. auto.
  - destruct (Z.ltb_spec (st_ucharPtr st) stop) as [Hlt|Hge].
    + destruct (scan_iteration chk buf start stop st) as [[st1 brk]|] eqn:Hit;
        cbn [bind] in H; [|discriminate].
      destruct (scan_iteration_prefix _ _ _ _ _ _ _ Hit Hinv) as (Hinv1 & Hle1 & Hbrk).
      destruct brk.
      * injection H as <-. specialize (Hbrk eq_refl).
        repeat split; auto; intros; congruence.
      * apply (IH st1 st' H Hinv1 Hle1).
    + injection H as <-. auto.
Qed.

Lemma single_chars_are_ascii (chars : list (list byte)) :
  Forall spec_valid_char chars ->
  forallb (fun c => blen c =? 1) chars = true ->
  Forall spec_ascii_valid (List.concat chars).
Proof.
  induction 1 as [|c cs Hc Hcs IH]; cbn [forallb List.concat]; intros E; [constructor|].
  apply andb_true_iff in E as [E1 E2]. apply Z.eqb_eq in E1.
  destruct (spec_valid_char_single c Hc E1) as (b & -> & Hb).
  cbn [app]. constructor; auto.
Qed.

Lemma firstn_blen_app (buf suf : list byte) :
  firstn (Z.to_nat (blen buf)) (buf ++ suf) = buf.
Proof.
  rewrite to_nat_blen, firstn_app, Nat.sub_diag, firstn_all. cbn [firstn].
  now rewrite app_nil_r.
Qed.

Lemma checked_scan_verdict (buf suf : list byte) (reason : string) v a reason' :
  CheckStreamForUTF8NoBOMInternal true (buf ++ suf) 0 (blen buf) reason = Ok (v, a, reason') ->
  (v = true <-> spec_valid_utf8 buf) /\ (a = true <-> Forall spec_ascii_valid buf).
Proof.
  intros H. pose proof H as H0. unfold CheckStreamForUTF8NoBOMInternal in H.
  destruct (scan_loop true (buf ++ suf) 0 (blen buf) (Z.to_nat (blen buf - 0))
              (mkScan 0 true true reason)) as [st'|] eqn:E; cbn [bind] in H; [|discriminate].
  injection H as <- <- <-.
  pose proof (blen_nonneg buf) as Hnn.
  destruct (scan_loop_prefix true (buf ++ suf) 0 (blen buf) _ _ _ E) as (Hinv & Hge & Hle).
  { intros _. cbn [st_ucharPtr]. split; [lia|]. exists []. repeat split; constructor. }
  { cbn [st_ucharPtr]. lia. }
  assert (Hvalid : st_bValidUTF8 st' = true ->
                   exists chars, Forall spec_valid_char chars /\ List.concat chars = buf
                                 /\ st_b7bitASCIIOnly st' = forallb (fun c => blen c =? 1) chars).
  { intros Hv. destruct (Hinv Hv) as (_ & chars & Hc & Hcat & Hasc).
    exists chars. repeat split; auto.
    replace (st_ucharPtr st') with (blen buf) in Hcat by (specialize (Hge Hv); specialize (Hle eq_refl Hv); lia).
    now rewrite firstn_blen_app in Hcat. }
  assert (Hav : st_b7bitASCIIOnly st' = true -> st_bValidUTF8 st' = true).
  { apply (scan_reaches_invariant true (buf ++ suf) 0 (blen buf) reason).
    eapply scan_loop_reaches; [apply reaches_init|exact E]. }
  split; split.
  - intros Hv. destruct (Hvalid Hv) as (chars & Hc & Hcat & _). exists chars. auto.
  - intros (chars & Hc & Hcat).
    pose proof (CheckStreamForUTF8NoBOMInternal_valid chars Hc true suf (blen buf) reason) as Hr.
    rewrite Hcat in Hr. rewrite Hr in H0 by reflexivity. now injection H0.
  - intros Ha. destruct (Hvalid (Hav Ha)) as (chars & Hc & <- & Hasc).
    apply single_chars_are_ascii; [exact Hc|]. now rewrite <- Hasc.
  - intros Hascii.
    pose proof (CheckStreamForUTF8NoBOMInternal_valid (map (fun b => [b]) buf)
                  (Forall_singletons buf Hascii) true suf (blen buf) reason) as Hr.
    rewrite concat_singletons, scanned_ascii_singletons in Hr.
    rewrite Hr in H0 by reflexivity. now injection H0.
Qed.

(** X7.  The verdict of the bounds-checked scan over a whole sample is
    exact: it returns [bValidUTF8 = true] if and only if the sample is a
    concatenation of characters inside the envelopes of the validity tests,
    and [b7bitASCIIOnly = true] if and only if every byte of the sample is
    ASCII-valid. *)
Theorem X7_checked_scan_verdict_is_exact (buf suf : list byte) (reason : string)
    v a reason' :
  CheckStreamForUTF8NoBOMInternal true (buf ++ suf) 0 (blen buf) reason = Ok (v, a, reason') ->
  (v = true <-> spec_valid_utf8 buf) /\ (a = true <-> Forall spec_ascii_valid buf).
Proof. apply checked_scan_verdict. Qed.

Lemma X7_checked_scan_verdict_is_exact_witness :
  (false = true <-> spec_valid_utf8 [x61; xed; xa0; x80])
  /\ (false = true <-> Forall spec_ascii_valid [x61; xed; xa0; x80]).
Proof.
  eapply (X7_checked_scan_verdict_is_exact [x61; xed; xa0; x80] [] "").
  vm_compute. reflexivity.
Defined.

Lemma readable_padded_addressable (ifs : ifstream) :
  readable ifs ->
  addressable (sample ifs ++ repeat x00 (Z.to_nat (gpos ifs)))
  /\ 0 <= blen (sample ifs)
     <= blen (sample ifs ++ repeat x00 (Z.to_nat (gpos ifs))).
Proof.
  intros (_ & Hpos & Hlen). unfold addressable, sample, SIZE_MOD.
  rewrite blen_app, blen_repeat, blen_skipn by lia. lia.
Qed.

(** X8.  On a readable stream whose remaining bytes number less than the
    tiny-mode limit, [CheckStreamForUTF8NoBOM] returns, and returns true
    exactly when the remaining bytes are a concatenation of well-formed
    characters that are not all ASCII-valid bytes. *)
Theorem X8_CheckStreamForUTF8NoBOM_decides_small_samples (ifs : ifstream) (reason : string) :
  readable ifs ->
  blen (sample ifs) < UTF8_TINY_MODE_SIZE_LIMIT ->
  exists b ifs' reason',
    CheckStreamForUTF8NoBOM ifs reason = Ok (b, ifs', reason')
    /\ (b = true <-> spec_valid_utf8 (sample ifs) /\ ~ Forall spec_ascii_valid (sample ifs)).
Proof.
  intros Hr Hsmall. unfold CheckStreamForUTF8NoBOM.
  rewrite (ReadSampleToBuffer_readable ifs Hr). cbn [bind].
  destruct (readable_padded_addressable ifs Hr) as (Ha & Hb).
  destruct (sample_scan_total _ (blen (sample ifs)) reason Ha Hb) as (v & a & r & E).
  rewrite E. cbn [bind].
  unfold sample_scan in E. rewrite Z.geb_leb, (proj2 (Z.leb_gt _ _)) in E by lia.
  rewrite Z.add_0_l in E.
  destruct (checked_scan_verdict _ _ _ _ _ _ E) as (Hv & Hasc).
  destruct a.
  - do 3 eexists. split; [reflexivity|]. split; [discriminate|].
    intros [_ Hn]. elim Hn. now apply Hasc.
  - do 3 eexists. split; [reflexivity|]. rewrite Hv. split.
    + intros Hs. split; [exact Hs|]. intros Hn. apply Hasc in Hn. discriminate.
    + now intros [Hs _].
Qed.

Lemma X8_CheckStreamForUTF8NoBOM_decides_small_samples_witness :
  exists b ifs' reason',
    CheckStreamForUTF8NoBOM (ifstream_open [xc3; x28]) "" = Ok (b, ifs', reason')
    /\ (b = true <-> spec_valid_utf8 (sample (ifstream_open [xc3; x28]))
                     /\ ~ Forall spec_ascii_valid (sample (ifstream_open [xc3; x28]))).
Proof.
  apply (X8_CheckStreamForUTF8NoBOM_decides_small_samples (ifstream_open [xc3; x28]) "").
  - unfold readable. cbn. repeat split; lia || discriminate.
  - cbn. unfold UTF8_TINY_MODE_SIZE_LIMIT. lia.
Defined.

(** X9.  On every readable stream [CheckStreamForUTF8NoBOM] returns and
    leaves the stream as it found it: same content, same read position,
    no state bit set. *)
Theorem X9_CheckStreamForUTF8NoBOM_restores_stream (ifs : ifstream) (reason : string) :
  readable ifs ->
  exists b ifs' reason',
    CheckStreamForUTF8NoBOM ifs reason = Ok (b, ifs', reason')
    /\ content ifs' = content ifs
    /\ fst (tellg ifs') = gpos ifs
    /\ good ifs' = true.
Proof.
  intros Hr. unfold CheckStreamForUTF8NoBOM.
  rewrite (ReadSampleToBuffer_readable ifs Hr). cbn [bind].
  destruct (readable_padded_addressable ifs Hr) as (Ha & Hb).
  destruct (sample_scan_total _ (blen (sample ifs)) reason Ha Hb) as (v & a & r & ->).
  cbn [bind]. destruct a; do 3 eexists; (split; [reflexivity|]); repeat split.
Qed.

Lemma X9_CheckStreamForUTF8NoBOM_restores_stream_witness :
  exists b ifs' reason',
    CheckStreamForUTF8NoBOM (mkStream [xef; xbb; xbf; xff; x41] 3 false false false 3) ""
    = Ok (b, ifs', reason')
    /\ content ifs' = [xef; xbb; xbf; xff; x41]
    /\ fst (tellg ifs') = 3
    /\ good ifs' = true.
Proof.
  apply (X9_CheckStreamForUTF8NoBOM_restores_stream
           (mkStream [xef; xbb; xbf; xff; x41] 3 false false false 3) "").
  unfold readable. cbn. repeat split; lia || discriminate.
Defined.

(** X10.  On a readable stream [ReadSampleToBuffer] allocates as many bytes
    as the whole file holds, not as many as remain to be read; the usable
    size is the number of remaining bytes, the buffer starts with them and
    is zero after them, and the stream is left at the position it had, in
    good state. *)
Theorem X10_ReadSampleToBuffer_result (ifs : ifstream) :
  readable ifs ->
  exists buf ifs',
    ReadSampleToBuffer ifs = Ok (buf, blen (content ifs), blen (sample ifs), ifs')
    /\ blen buf = blen (content ifs)
    /\ firstn (Z.to_nat (blen (sample ifs))) buf = sample ifs
    /\ Forall (fun b => b = x00) (skipn (Z.to_nat (blen (sample ifs))) buf)
    /\ content ifs' = content ifs
    /\ fst (tellg ifs') = gpos ifs
    /\ good ifs' = true.
Proof.
  intros Hr. rewrite (ReadSampleToBuffer_readable ifs Hr).
  do 2 eexists. split; [reflexivity|].
  destruct Hr as (_ & Hpos & Hlen).
  split; [|split; [|split]].
  - unfold sample. rewrite blen_app, blen_repeat, blen_skipn by lia. lia.
  - apply firstn_blen_app.
  - rewrite to_nat_blen, skipn_app, Nat.sub_diag, skipn_all. cbn [skipn app].
    apply Forall_forall. intros b Hb. now apply repeat_spec in Hb.
  - repeat split.
Qed.

Lemma X10_ReadSampleToBuffer_result_witness :
  exists buf ifs',
    ReadSampleToBuffer (mkStream [xef; xbb; xbf; x68; x69] 3 false false false 3)
    = Ok (buf, 5, 2, ifs')
    /\ blen buf = 5
    /\ firstn 2 buf = [x68; x69]
    /\ Forall (fun b => b = x00) (skipn 2 buf)
    /\ content ifs' = [xef; xbb; xbf; x68; x69]
    /\ fst (tellg ifs') = 3
    /\ good ifs' = true.
Proof.
  apply (X10_ReadSampleToBuffer_result (mkStream [xef; xbb; xbf; x68; x69] 3 false false false 3)).
  unfold readable. cbn. repeat split; lia || discriminate.
Defined.

(** ** The signature matcher at any position, and chains of checks *)

Lemma starts_with_dec (sig data : list byte) :
  starts_with sig data \/ ~ starts_with sig data.
Proof.
  unfold starts_with.
  destruct (list_eq_dec Byte.byte_eq_dec (firstn (List.length sig) data) sig); auto.
Qed.

Lemma CheckStreamForSignature_found_at (data : list byte) (pos g : Z) (reason : string)
    (sig : list byte) :
  starts_with sig (skipn (Z.to_nat pos) data) ->
  CheckStreamForSignature (mkStream data pos false false false g) reason sig
  = Ok (SIGNATURE_CHECK_RESULT_FOUND,
        mkStream data (pos + blen sig) false false false (blen sig), reason).
Proof.
  unfold starts_with. intros Hs. unfold CheckStreamForSignature.
  unfold fail, eof. cbn [failbit badbit eofbit orb].
  rewrite tellg_ok, read_good.
  rewrite !to_nat_blen, !Hs.
  unfold gcount. cbn [last_gcount]. rewrite !Z.ltb_irrefl.
  destruct (signature_loop_spec sig sig [] [] eq_refl eq_refl) as (d & Hd & Hiff).
  cbn [app] in Hd. change (blen []) with 0 in Hd.
  rewrite Hd. cbn [bind].
  destruct d; [|reflexivity]. destruct Hiff as [_ Hiff]. discriminate (Hiff eq_refl).
Qed.

Lemma CheckStreamForSignature_not_found_at (data : list byte) (pos g : Z) (reason : string)
    (sig : list byte) :
  0 <= pos <= blen data ->
  ~ starts_with sig (skipn (Z.to_nat pos) data) ->
  exists g',
    CheckStreamForSignature (mkStream data pos false false false g) reason sig
    = Ok (SIGNATURE_CHECK_RESULT_NOT_FOUND,
          mkStream data pos false false false g', reason).
Proof.
  unfold starts_with. intros Hpos Hs. unfold CheckStreamForSignature.
  unfold fail, eof. cbn [failbit badbit eofbit orb].
  rewrite tellg_ok, read_good.
  rewrite !to_nat_blen.
  unfold gcount. cbn [last_gcount].
  set (got := firstn (List.length sig) (skipn (Z.to_nat pos) data)) in *.
  pose proof (firstn_le_length (List.length sig) (skipn (Z.to_nat pos) data)) as Hle.
  fold got in Hle.
  destruct (Z.ltb_spec (blen got) (blen sig)) as [Hlt|Hge].
  - unfold clear. cbn [content gpos eofbit failbit badbit last_gcount].
    unfold seekg. rewrite seek_to_ok by lia. eauto.
  - assert (Hlen : List.length got = List.length sig) by (unfold blen in *; lia).
    destruct (signature_loop_spec sig got [] [] eq_refl Hlen) as (d & Hd & Hiff).
    cbn [app] in Hd. change (blen []) with 0 in Hd. rewrite Hd. cbn [bind].
    destruct d.
    + unfold fail. cbn [failbit badbit orb]. unfold seekg.
      rewrite seek_to_ok by lia. eauto.
    + destruct Hiff as [Hiff _]. elim Hs. exact (Hiff eq_refl).
Qed.

Lemma readable_inv (s : ifstream) :
  readable s ->
  s = mkStream (content s) (gpos s) false false false (last_gcount s)
  /\ 0 <= gpos s <= blen (content s).
Proof.
  destruct s as [data pos e f b g]. unfold readable, good.
  cbn [content gpos eofbit failbit badbit last_gcount].
  intros (Hg & Hpos & _). destruct e, f, b; try discriminate Hg. auto.
Qed.

(** X11.  [CheckStreamForSignature] on a readable stream, at whatever
    position it stands: when the bytes from the read position on begin with
    the signature it answers found and leaves the stream just after the
    signature; otherwise (a differing byte or too few bytes left) it answers
    not-found and leaves the stream at the position it had.  Either way the
    stream stays in good state and the log is untouched; a stream already
    in failed state is answered with the failure result and a log line. *)
Theorem X11_CheckStreamForSignature_consumes_or_rewinds (ifs : ifstream) (reason : string)
    (sig : list byte) :
  (readable ifs ->
   exists result ifs',
     CheckStreamForSignature ifs reason sig = Ok (result, ifs', reason)
     /\ content ifs' = content ifs
     /\ good ifs' = true
     /\ ((starts_with sig (sample ifs)
          /\ result = SIGNATURE_CHECK_RESULT_FOUND
          /\ fst (tellg ifs') = gpos ifs + blen sig)
         \/ (~ starts_with sig (sample ifs)
             /\ result = SIGNATURE_CHECK_RESULT_NOT_FOUND
             /\ fst (tellg ifs') = gpos ifs)))
  /\ (fail ifs = true ->
      CheckStreamForSignature ifs reason sig
      = Ok (SIGNATURE_CHECK_RESULT_FAIL, ifs, reason ++ "stream.fail()" ++ endl)).
Proof.
  split.
  - intros Hr. destruct (readable_inv ifs Hr) as (E & Hpos).
    unfold sample. rewrite E. cbn [content gpos].
    generalize (content ifs) (gpos ifs) (last_gcount ifs) Hpos. clear.
    intros data pos g Hpos.
    destruct (starts_with_dec sig (skipn (Z.to_nat pos) data)) as [Hs|Hs].
    + rewrite (CheckStreamForSignature_found_at _ _ _ _ _ Hs).
      do 2 eexists. split; [reflexivity|]. repeat split. left. repeat split. exact Hs.
    + destruct (CheckStreamForSignature_not_found_at data pos g reason sig Hpos Hs) as [g' ->].
      do 2 eexists. split; [reflexivity|]. repeat split. right. repeat split. exact Hs.
  - intros Hf. unfold CheckStreamForSignature. now rewrite Hf.
Qed.

Lemma X11_CheckStreamForSignature_consumes_or_rewinds_witness :
  (exists result ifs',
     CheckStreamForSignature (mkStream [x00; xff; xfe; x41] 1 false false false 0) "" [xff; xfe]
     = Ok (result, ifs', "")
     /\ content ifs' = [x00; xff; xfe; x41]
     /\ good ifs' = true
     /\ ((starts_with [xff; xfe] [xff; xfe; x41]
          /\ result = SIGNATURE_CHECK_RESULT_FOUND
          /\ fst (tellg ifs') = 1 + 2)
         \/ (~ starts_with [xff; xfe] [xff; xfe; x41]
             /\ result = SIGNATURE_CHECK_RESULT_NOT_FOUND
             /\ fst (tellg ifs') = 1)))
  /\ CheckStreamForSignature (mkStream [xff; xfe] 0 false true false 0) "" [xff; xfe]
     = Ok (SIGNATURE_CHECK_RESULT_FAIL, mkStream [xff; xfe] 0 false true false 0,
           "" ++ "stream.fail()" ++ endl).
Proof.
  split.
  - apply (proj1 (X11_CheckStreamForSignature_consumes_or_rewinds
                    (mkStream [x00; xff; xfe; x41] 1 false false false 0) "" [xff; xfe])).
    unfold readable. cbn. repeat split; lia || discriminate.
  - apply (proj2 (X11_CheckStreamForSignature_consumes_or_rewinds
                    (mkStream [xff; xfe] 0 false true false 0) "" [xff; xfe])).
    reflexivity.
Defined.

(** X12.  On a stream at offset 0 each BOM check returns, keeps the
    content, and answers true exactly when the file begins with a signature
    it looks for (EF BB BF; FF FE or FE FF).  After true the stream stands
    just after the signature (offset 3, respectively 2); after false it is
    back at offset 0 in good state, so another check can follow. *)
Theorem X12_bom_checks_decide_and_position (ifs : ifstream) (reason : string) (le : bool) :
  at_start ifs ->
  (exists b ifs' reason',
     CheckStreamForUTF8BOM ifs reason = Ok (b, ifs', reason')
     /\ content ifs' = content ifs
     /\ (b = true <-> starts_with UTF8BOM (content ifs))
     /\ fst (tellg ifs') = (if b then 3 else 0))
  /\ (exists b le' ifs' reason',
        CheckStreamForUTF16BOM ifs reason le = Ok (b, le', ifs', reason')
        /\ content ifs' = content ifs
        /\ (b = true <-> starts_with UTF16LE_BOM (content ifs)
                         \/ starts_with UTF16BE_BOM (content ifs))
        /\ fst (tellg ifs') = (if b then 2 else 0)).
Proof.
  intros Hs. rewrite (at_start_inv ifs Hs). cbn [content].
  generalize (content ifs) (last_gcount ifs). clear ifs Hs. intros data g.
  unfold CheckStreamForUTF8BOM, CheckStreamForUTF16BOM.
  rewrite assert_at_start_ok. cbn [bind]. split.
  - destruct (starts_with_dec UTF8BOM data) as [HB|HB].
    + rewrite (CheckStreamForSignature_found _ _ _ _ HB). cbn.
      do 3 eexists. repeat split; auto.
    + destruct (CheckStreamForSignature_not_found data g reason UTF8BOM HB) as [g' ->].
      cbn. do 3 eexists. repeat split; auto; discriminate.
  - destruct (starts_with_dec UTF16LE_BOM data) as [HLE|HLE].
    + rewrite (CheckStreamForSignature_found _ _ _ _ HLE). cbn.
      do 4 eexists. repeat split; auto.
    + destruct (CheckStreamForSignature_not_found data g reason UTF16LE_BOM HLE) as [g' ->].
      cbn [bind].
      destruct (starts_with_dec UTF16BE_BOM data) as [HBE|HBE].
      * rewrite (CheckStreamForSignature_found _ _ _ _ HBE). cbn.
        do 4 eexists. repeat split; auto.
      * destruct (CheckStreamForSignature_not_found data g' reason UTF16BE_BOM HBE)
          as [g'' ->].
        cbn. do 4 eexists. repeat split; auto; try discriminate. tauto.
Qed.

Lemma X12_bom_checks_decide_and_position_witness :
  (exists b ifs' reason',
     CheckStreamForUTF8BOM (ifstream_open [xfe; xff; x00; x41]) "" = Ok (b, ifs', reason')
     /\ content ifs' = [xfe; xff; x00; x41]
     /\ (b = true <-> starts_with UTF8BOM [xfe; xff; x00; x41])
     /\ fst (tellg ifs') = (if b then 3 else 0))
  /\ (exists b le' ifs' reason',
        CheckStreamForUTF16BOM (ifstream_open [xfe; xff; x00; x41]) "" true
        = Ok (b, le', ifs', reason')
        /\ content ifs' = [xfe; xff; x00; x41]
        /\ (b = true <-> starts_with UTF16LE_BOM [xfe; xff; x00; x41]
                         \/ starts_with UTF16BE_BOM [xfe; xff; x00; x41])
        /\ fst (tellg ifs') = (if b then 2 else 0)).
Proof.
  apply (X12_bom_checks_decide_and_position (ifstream_open [xfe; xff; x00; x41]) "" true).
  reflexivity.
Defined.

Lemma valid_sample_scan_result (ifs : ifstream) (reason : string)
    (chars : list (list byte)) :
  readable ifs ->
  Forall spec_valid_char chars ->
  List.concat chars = sample ifs ->
  exists ifs' reason',
    CheckStreamForUTF8NoBOM ifs reason
    = Ok (negb (scanned_ascii (scanned_length (blen (sample ifs))) 0 chars), ifs', reason')
    /\ fst (tellg ifs') = gpos ifs.
Proof.
  intros Hr Hc Hcat. unfold CheckStreamForUTF8NoBOM.
  rewrite (ReadSampleToBuffer_readable ifs Hr). cbn [bind].
  destruct (sample_scan_valid chars (repeat x00 (Z.to_nat (gpos ifs))) reason Hc) as [r Hs].
  rewrite Hcat in Hs. rewrite Hs. cbn [bind].
  destruct (scanned_ascii (scanned_length (blen (sample ifs))) 0 chars);
    do 2 eexists; split; reflexivity.
Qed.

(** X13.  The three checks chained on a file that holds the UTF-8
    signature followed by ASCII-valid text: the UTF-16 check answers false
    and rewinds, the UTF-8 signature check answers true and consumes the 3
    bytes, and the content check, reading from there, answers false (plain
    ASCII) and leaves the stream at offset 3.  Run on the same file from
    offset 0 instead, the content check answers true: it takes the
    signature for a 3-byte character. *)
Theorem X13_checks_chained_on_bom_and_ascii_text (text : list byte) (reason : string)
    (le : bool) :
  Forall spec_ascii_valid text ->
  blen text + 3 < 2 ^ 63 ->
  let ifs := ifstream_open (UTF8BOM ++ text) in
  (exists ifs1 r1 ifs2 r2 ifs3 r3,
     CheckStreamForUTF16BOM ifs reason le = Ok (false, le, ifs1, r1)
     /\ CheckStreamForUTF8BOM ifs1 r1 = Ok (true, ifs2, r2)
     /\ CheckStreamForUTF8NoBOM ifs2 r2 = Ok (false, ifs3, r3)
     /\ fst (tellg ifs3) = 3)
  /\ (exists ifs4 r4, CheckStreamForUTF8NoBOM ifs reason = Ok (true, ifs4, r4)).
Proof.
  intros Hascii Hlen ifs. pose proof (blen_nonneg text) as Hnn. split.
  - unfold ifs, ifstream_open, CheckStreamForUTF16BOM.
    rewrite assert_at_start_ok. cbn [bind].
    destruct (CheckStreamForSignature_not_found (UTF8BOM ++ text) 0 reason UTF16LE_BOM)
      as [g1 ->]; [unfold starts_with; cbn; discriminate|].
    cbn [bind].
    destruct (CheckStreamForSignature_not_found (UTF8BOM ++ text) g1 reason UTF16BE_BOM)
      as [g2 ->]; [unfold starts_with; cbn; discriminate|].
    cbn -[UTF8BOM]. do 2 eexists.
    unfold CheckStreamForUTF8BOM. rewrite assert_at_start_ok. cbn [bind].
    assert (HB : starts_with UTF8BOM (UTF8BOM ++ text)) by reflexivity.
    rewrite (CheckStreamForSignature_found _ _ _ _ HB).
    cbn -[UTF8BOM app]. do 2 eexists.
    set (ifs2 := mkStream (UTF8BOM ++ text) (blen UTF8BOM) false false false (blen UTF8BOM)).
    assert (Hr2 : readable ifs2).
    { unfold readable, ifs2, good. cbn [content gpos eofbit failbit badbit orb negb].
      rewrite blen_app. change (blen UTF8BOM) with 3. lia. }
    destruct (valid_sample_scan_result ifs2 (reason ++ "No UTF-16 BOM found" ++ endl
                                             ++ "UTF-8 BOM found" ++ endl)
                (map (fun b => [b]) text) Hr2 (Forall_singletons text Hascii))
      as (ifs3 & r3 & E3 & Hpos3).
    { rewrite concat_singletons. reflexivity. }
    rewrite scanned_ascii_singletons in E3. cbn [negb] in E3.
    exists ifs3, r3. split; [reflexivity|]. split; [reflexivity|].
    split; [|exact Hpos3].
    rewrite <- E3. f_equal. now rewrite !string_app_assoc.
  - assert (Hr : readable ifs).
    { unfold readable, ifs, ifstream_open, good.
      cbn [content gpos eofbit failbit badbit orb negb].
      rewrite blen_app. change (blen UTF8BOM) with 3. lia. }
    destruct (valid_sample_scan_result ifs reason ([xef; xbb; xbf] :: map (fun b => [b]) text)
                Hr) as (ifs4 & r4 & E4 & _).
    { constructor; [|apply Forall_singletons; exact Hascii].
      apply valid_3; unfold spec_continuation; cbn; lia. }
    { cbn [List.concat]. rewrite concat_singletons. reflexivity. }
    exists ifs4, r4. rewrite E4. do 2 f_equal.
    cbn [scanned_ascii]. rewrite blen_3.
    assert (Hscan : 0 < scanned_length (blen (sample ifs))).
    { unfold scanned_length, sample, ifs, ifstream_open. cbn [gpos content Z.to_nat skipn].
      rewrite blen_app. change (blen UTF8BOM) with 3.
      unfold UTF8_TINY_MODE_SIZE_LIMIT, UTF8_MAX_CHAR_SIZE.
      destruct (3 + blen text >=? 1000000000) eqn:G; lia. }
    rewrite (proj2 (Z.ltb_lt _ _) Hscan). reflexivity.
Qed.

Lemma X13_checks_chained_on_bom_and_ascii_text_witness :
  let ifs := ifstream_open (UTF8BOM ++ [x68; x69]) in
  (exists ifs1 r1 ifs2 r2 ifs3 r3,
     CheckStreamForUTF16BOM ifs "" false = Ok (false, false, ifs1, r1)
     /\ CheckStreamForUTF8BOM ifs1 r1 = Ok (true, ifs2, r2)
     /\ CheckStreamForUTF8NoBOM ifs2 r2 = Ok (false, ifs3, r3)
     /\ fst (tellg ifs3) = 3)
  /\ (exists ifs4 r4, CheckStreamForUTF8NoBOM ifs "" = Ok (true, ifs4, r4)).
Proof.
  apply (X13_checks_chained_on_bom_and_ascii_text [x68; x69] "" false).
  - repeat constructor; unfold spec_ascii_valid; cbn; lia.
  - cbn. lia.
Defined.

(** ** The diagnostic log *)

Lemma log_extends_refl (r : string) : log_extends r r.
Proof. exists "". symmetry. apply string_app_nil_r. Qed.

Lemma log_extends_app (r r1 s : string) : log_extends r r1 -> log_extends r (r1 ++ s).
Proof. intros [a ->]. exists (a ++ s). apply string_app_assoc. Qed.

Lemma log_extends_trans (r r1 r2 : string) :
  log_extends r r1 -> log_extends r1 r2 -> log_extends r r2.
Proof. intros H [a ->]. now apply log_extends_app. Qed.

(** Case analysis on every test and call result an equation [H] between
    results depends on. *)
Ltac crack_all H :=
  repeat (cbn [bind ptr_value] in H; cbv beta iota in H;
          match type of H with
          | context [bind ?m _] => destruct m
          | context [match ?x with _ => _ end] => destruct x
          end);
  cbn [bind ptr_value] in H; cbv beta iota in H;
  try discriminate H.

Ltac log_done H :=
  inversion H; subst; clear H;
  repeat first [ apply log_extends_refl | apply log_extends_app ]; assumption.

Lemma UTF8InvalidLeadingOrContinuation_log (buf : list byte) (p start e : Z)
    (reason : string) bad p' reason' :
  UTF8InvalidLeadingOrContinuation buf p start e reason = Ok (bad, p', reason') ->
  log_extends reason reason'.
Proof.
  unfold UTF8InvalidLeadingOrContinuation. intros H.
  crack_all H; inversion H; subst; clear H;
    repeat first [ apply log_extends_refl | apply log_extends_app ].
Qed.

Lemma UTF8CheckErrors_log (buf : list byte) (p start e : Z) (reason : string) p' reason' :
  UTF8CheckErrors buf p start e reason = Ok (p', reason') ->
  log_extends reason reason'.
Proof.
  unfold UTF8CheckErrors. intros H.
  destruct (p >? e - 1); [inversion H; apply log_extends_refl|].
  destruct (UTF8InvalidLeadingOrContinuation buf p start e reason)
    as [[[bad q] r1]|] eqn:E; cbn [bind] in H; [|discriminate].
  apply UTF8InvalidLeadingOrContinuation_log in E.
  crack_all H; inversion H; subst; clear H;
    repeat first [ assumption | apply log_extends_app ].
Qed.

Lemma UTF8CharValidate_log (chk : bool) (buf : list byte) (p e : Z) (reason : string)
    p' v a reason' :
  UTF8CharValidate chk buf p e reason = Ok (p', v, a, reason') ->
  log_extends reason reason'.
Proof.
  unfold UTF8CharValidate. intros H.
  crack_all H; inversion H; subst; clear H;
    repeat first [ apply log_extends_refl | apply log_extends_app ].
Qed.

Lemma scan_iteration_log (chk : bool) (buf : list byte) (start stop : Z)
    (st st' : scan_state) (brk : bool) :
  scan_iteration chk buf start stop st = Ok (st', brk) ->
  log_extends (st_reason st) (st_reason st').
Proof.
  unfold scan_iteration. intros H.
  destruct (UTF8CharValidate chk buf (st_ucharPtr st) stop (st_reason st))
    as [[[[p' v] a] r]|] eqn:EV; cbn [bind] in H; [|discriminate].
  apply UTF8CharValidate_log in EV.
  destruct (negb (st_bValidUTF8 st && v) && negb UTF8_DETAILED_ERROR_LIST);
    [now inversion H; subst|].
  destruct (negb v); [|now inversion H; subst].
  destruct (UTF8CheckErrors buf p' start stop r) as [[q r']|] eqn:EC; cbn [bind] in H;
    [|discriminate].
  apply UTF8CheckErrors_log in EC. inversion H; subst. cbn [st_reason].
  eapply log_extends_trans; eauto.
Qed.

Lemma scan_loop_log (chk : bool) (buf : list byte) (start stop : Z) :
  forall fuel st st',
    scan_loop chk buf start stop fuel st = Ok st' ->
    log_extends (st_reason st) (st_reason st').
Proof.
  induction fuel as [|fuel IH]; intros st st' H; cbn [scan_loop] in H.
  - destruct (st_ucharPtr st <? stop); [discriminate|].
    inversion H; subst. apply log_extends_refl.
  - destruct (st_ucharPtr st <? stop); [|inversion H; subst; apply log_extends_refl].
    destruct (scan_iteration chk buf start stop st) as [[st1 brk]|] eqn:Hit;
      cbn [bind] in H; [|discriminate].
    apply scan_iteration_log in Hit.
    destruct brk; [now inversion H; subst|].
    eapply log_extends_trans; eauto.
Qed.

Lemma CheckStreamForSignature_log (ifs : ifstream) (reason : string) (sig : list byte)
    result ifs' reason' :
  CheckStreamForSignature ifs reason sig = Ok (result, ifs', reason') ->
  log_extends reason reason'.
Proof.
  unfold CheckStreamForSignature. intros H.
  destruct (fail ifs); [inversion H; apply log_extends_app, log_extends_refl|].
  destruct (eof ifs); [inversion H; apply log_extends_app, log_extends_refl|].
  destruct (tellg ifs) as [saved s1]. destruct (read s1 (blen sig)) as [readBuf s2].
  destruct (gcount s2 <? blen sig); [inversion H; apply log_extends_refl|].
  destruct (signature_loop readBuf sig (Z.to_nat (blen sig)) 0) as [[|]|];
    cbn [bind] in H; try discriminate H; inversion H; apply log_extends_refl.
Qed.

(** X14.  The log is append-only: whatever the input, each public
    operation and the scan return the caller's log with text added at its
    end, never changed or shortened. *)
Theorem X14_log_is_append_only :
  (forall chk buf start stop reason v a reason',
     CheckStreamForUTF8NoBOMInternal chk buf start stop reason = Ok (v, a, reason') ->
     log_extends reason reason')
  /\ (forall ifs reason b ifs' reason',
        CheckStreamForUTF8NoBOM ifs reason = Ok (b, ifs', reason') ->
        log_extends reason reason')
  /\ (forall ifs reason b ifs' reason',
        CheckStreamForUTF8BOM ifs reason = Ok (b, ifs', reason') ->
        log_extends reason reason')
  /\ (forall ifs reason le b le' ifs' reason',
        CheckStreamForUTF16BOM ifs reason le = Ok (b, le', ifs', reason') ->
        log_extends reason reason').
Proof.
  assert (HI : forall chk buf start stop reason v a reason',
             CheckStreamForUTF8NoBOMInternal chk buf start stop reason = Ok (v, a, reason') ->
             log_extends reason reason').
  { intros chk buf start stop reason v a reason' H.
    unfold CheckStreamForUTF8NoBOMInternal in H.
    destruct (scan_loop chk buf start stop (Z.to_nat (stop - start))
                (mkScan start true true reason)) as [st'|] eqn:E; cbn [bind] in H;
      [|discriminate].
    apply scan_loop_log in E. cbn [st_reason] in E. now inversion H; subst. }
  split; [exact HI|]. split; [|split].
  - intros ifs reason b ifs' reason' H. unfold CheckStreamForUTF8NoBOM in H.
    destruct (ReadSampleToBuffer ifs) as [[[[sb al] rc] s1]|]; cbn [bind] in H;
      [|discriminate].
    destruct (sample_scan sb rc reason) as [[[v a] r]|] eqn:E; cbn [bind] in H;
      [|discriminate].
    assert (Hr : log_extends reason r).
    { unfold sample_scan in E. destruct (rc >=? UTF8_TINY_MODE_SIZE_LIMIT).
      - eapply HI; eauto.
      - apply HI in E. eapply log_extends_trans; [|exact E].
        apply log_extends_app, log_extends_refl. }
    destruct a, v; inversion H; subst;
      repeat first [ assumption | apply log_extends_app ].
  - intros ifs reason b ifs' reason' H. unfold CheckStreamForUTF8BOM in H.
    destruct (assert_at_start ifs) as [s0|]; cbn [bind] in H; [|discriminate].
    destruct (CheckStreamForSignature s0 reason UTF8BOM) as [[[res s1] r1]|] eqn:E;
      cbn [bind] in H; [|discriminate].
    apply CheckStreamForSignature_log in E.
    crack_all H; inversion H; subst;
      repeat first [ assumption | apply log_extends_app ].
  - intros ifs reason le b le' ifs' reason' H. unfold CheckStreamForUTF16BOM in H.
    destruct (assert_at_start ifs) as [s0|]; cbn [bind] in H; [|discriminate].
    destruct (CheckStreamForSignature s0 reason UTF16LE_BOM) as [[[res s1] r1]|] eqn:E;
      cbn [bind] in H; [|discriminate].
    apply CheckStreamForSignature_log in E.
    destruct (res =? SIGNATURE_CHECK_RESULT_FAIL); [now inversion H; subst|].
    destruct (res =? SIGNATURE_CHECK_RESULT_NOT_FOUND).
    + destruct (CheckStreamForSignature s1 r1 UTF16BE_BOM) as [[[res2 s2] r2]|] eqn:E2;
        cbn [bind] in H; [|discriminate].
      apply CheckStreamForSignature_log in E2.
      assert (log_extends reason r2) by (eapply log_extends_trans; eauto).
      crack_all H; inversion H; subst;
        repeat first [ assumption | apply log_extends_app ].
    + crack_all H; inversion H; subst;
        repeat first [ assumption | apply log_extends_app ].
Qed.

Lemma X14_log_is_append_only_witness :
  log_extends "seen: " ("seen: " ++ "No UTF-8 BOM found" ++ endl).
Proof.
  apply (proj1 (proj2 (proj2 X14_log_is_append_only))
           (ifstream_open [x41]) "seen: " false (mkStream [x41] 0 false false false 1)).
  vm_compute. reflexivity.
Defined.

(** ** What the error classifier reports, class by class *)

Lemma leading_byte_class_valid_len (z L : Z) :
  leading_byte_class z = (true, L) -> 1 <= L <= 4.
Proof.
  unfold leading_byte_class.
  repeat match goal with |- context [if ?c then _ else _] => destruct c end;
    intros [= <-]; lia.
Qed.

Lemma no_primary_error (buf : list byte) (p start e : Z) (reason : string)
    (b0 : byte) (L : Z) :
  addressable buf -> 0 <= p -> e <= blen buf ->
  rd buf p = Ok (u8 b0) ->
  leading_byte_class (u8 b0) = (true, L) ->
  p + L <= e ->
  continuation_run buf p 1 L ->
  UTF8InvalidLeadingOrContinuation buf p start e reason = Ok (false, p, reason).
Proof.
  unfold addressable. intros Ha Hp He R0 Hcls HL Hrun.
  pose proof (leading_byte_class_valid_len _ _ Hcls) as HLr.
  unfold UTF8InvalidLeadingOrContinuation.
  rewrite (UTF8IsValidLeadingByte_rd buf p b0 R0), Hcls. cbn [bind negb].
  rewrite (to_size_t_small (e - p)) by lia.
  rewrite (to_size_t_small (L - 1)) by (unfold SIZE_MOD; lia).
  destruct (UTF8InvalidNrOfContinuationBytes_spec buf p (L - 1) (e - p) false None)
    as (m' & w' & -> & Hcase); try (unfold SIZE_MOD; lia).
  cbn [bind]. replace (L - 1 + 1) with L in * by lia.
  replace (L >? e - p) with false by lia.
  rewrite Z.min_r in Hcase by lia.
  destruct Hcase as [(-> & -> & _)|(j & Hj & -> & -> & Hbad & _)]; [reflexivity|].
  rewrite (Hrun j Hj) in Hbad. discriminate Hbad.
Qed.

Lemma continuation_at (buf : list byte) (q : Z) (b : byte) :
  rd buf q = Ok (u8 b) -> spec_continuation b -> UTF8IsContinuationByte buf q = Ok true.
Proof.
  unfold spec_continuation. intros R H.
  rewrite (UTF8IsContinuationByte_view buf q (u8 b) R), land_C0_range.
  f_equal. lia.
Qed.

(** Decide the test at the head of the goal with [lia]. *)
Ltac head_if :=
  match goal with
  | |- (if ?c then _ else _) = _ =>
      first [ replace c with true by (symmetry; lia)
            | replace c with false by (symmetry; lia) ]
  end.

Ltac classifier_view :=
  match goal with
  | |- context [UTF8InvalidControlChar ?b ?p] =>
      erewrite (UTF8InvalidControlChar_view b p) by rd_known; rewrite land_80_range
  | |- context [UTF8Invalid2BytesOverlong ?b ?p] =>
      erewrite (UTF8Invalid2BytesOverlong_view b p) by rd_known
  | |- context [UTF8Invalid3BytesOverlong ?b ?p] =>
      erewrite (UTF8Invalid3BytesOverlong_view b p) by rd_known
  | |- context [UTF8Invalid3BytesSurrogateHalf ?b ?p] =>
      erewrite (UTF8Invalid3BytesSurrogateHalf_view b p) by rd_known
  | |- context [UTF8Invalid4BytesOverlong ?b ?p] =>
      erewrite (UTF8Invalid4BytesOverlong_view b p) by rd_known
  | |- context [UTF8InvalidCodePoint4BytesF4 ?b ?p] =>
      erewrite (UTF8InvalidCodePoint4BytesF4_view b p) by rd_known
  | |- context [UTF8InvalidCodePoint4BytesNonF4 ?b ?p] =>
      erewrite (UTF8InvalidCodePoint4BytesNonF4_view b p) by rd_known
  end.

(** Run the classifier past the tests that do not apply. *)
Ltac classify :=
  repeat first [ progress cbn [bind] | head_if | classifier_view ].

(** X15.  Two bytes C0 or C1 followed by a continuation byte are reported
    by [UTF8CheckErrors] as a 2-byte overlong: one line with the offset and
    the two octets, and the cursor moves past both bytes. *)
Theorem X15_two_byte_overlong_reported (pre suf : list byte) (b0 b1 : byte)
    (start e : Z) (reason : string) :
  let buf := (pre ++ b0 :: b1 :: suf)%list in
  addressable buf ->
  blen pre + 2 <= e <= blen buf ->
  0xC0 <= u8 b0 <= 0xC1 -> spec_continuation b1 ->
  UTF8CheckErrors buf (blen pre) start e reason
  = Ok (blen pre + 2,
        reason ++ "Invalid 2-byte overlong found at " ++ to_string (blen pre - start) ++ ": "
          ++ render_bytes [b0; b1] ++ endl).
Proof.
  intros buf Ha He H0 H1. pose proof (blen_nonneg pre) as Hnn. subst buf.
  unfold UTF8CheckErrors. replace (blen pre >? e - 1) with false by lia.
  rewrite (no_primary_error _ (blen pre) start e reason b0 2); try lia; try assumption.
  - classify.
    change (pre ++ b0 :: b1 :: suf)%list with (pre ++ [b0; b1] ++ suf)%list.
    change 2 with (blen [b0; b1]) at 2.
    rewrite UcharSeqToBinStr_window. reflexivity.
  - rd_known.
  - class_by_range.
  - intros j Hj. replace j with 1 by lia.
    apply (continuation_at _ _ b1); [rd_known|assumption].
Qed.

(** Side conditions of the examples: lengths, byte values and ranges. *)
Ltac by_evaluation :=
  unfold addressable, SIZE_MOD, spec_continuation; cbn; first [ lia | reflexivity | tauto ].

Lemma X15_two_byte_overlong_reported_witness :
  UTF8CheckErrors [x61; xc0; x80] 1 0 3 ""
  = Ok (3, "Invalid 2-byte overlong found at 1: [11000000 10000000]" ++ endl).
Proof.
  apply (X15_two_byte_overlong_reported [x61] [] xc0 x80 0 3 ""); by_evaluation.
Defined.

(** The [if] scrutinised at the head of the goal, also under a [match]. *)
Ltac head_if' :=
  match goal with
  | |- match (if ?c then _ else _) with _ => _ end = _ =>
      first [ replace c with true by (symmetry; lia)
            | replace c with false by (symmetry; lia) ]
  end.

Ltac classify' := repeat first [ progress cbn [bind] | head_if | head_if' | classifier_view ].

(** Rewrite the dump of the window [w] laid out between [pre] and [suf]. *)
Ltac dump_window pre w suf :=
  let D := fresh "D" in
  pose proof (UcharSeqToBinStr_window pre w suf) as D;
  cbn [app] in D; rewrite ?blen_1, ?blen_2, ?blen_3, ?blen_4 in D;
  rewrite D; clear D; cbn [bind].

Ltac run_of_continuations :=
  let j := fresh "j" in
  let Hj := fresh "Hj" in
  intros j Hj;
  assert (j = 1 \/ j = 2 \/ j = 3) as [->|[->| ->]] by lia;
  try lia;
  (eapply continuation_at;
   [rd_known|first [assumption | unfold spec_continuation; lia]]).

(** X16.  A leading byte E0 with second byte 0x80-0x9F is reported as a
    3-byte overlong, and a leading byte ED with second byte 0xA0-0xBF as a
    UTF-16 surrogate half, when a continuation byte follows; either way the
    line shows the three octets and the cursor moves past all three. *)
Theorem X16_three_byte_classes_reported (pre suf : list byte) (b0 b1 b2 : byte)
    (start e : Z) (reason : string) :
  let buf := (pre ++ b0 :: b1 :: b2 :: suf)%list in
  addressable buf ->
  blen pre + 3 <= e <= blen buf ->
  spec_continuation b2 ->
  (u8 b0 = 0xE0 -> 0x80 <= u8 b1 <= 0x9F ->
   UTF8CheckErrors buf (blen pre) start e reason
   = Ok (blen pre + 3,
         reason ++ "Invalid 3-byte overlong found at " ++ to_string (blen pre - start) ++ ": "
           ++ render_bytes [b0; b1; b2] ++ endl))
  /\ (u8 b0 = 0xED -> 0xA0 <= u8 b1 <= 0xBF ->
      UTF8CheckErrors buf (blen pre) start e reason
      = Ok (blen pre + 3,
            reason ++ "Invalid UTF-16 surrogate half found at "
              ++ to_string (blen pre - start) ++ ": " ++ render_bytes [b0; b1; b2] ++ endl)).
Proof.
  intros buf Ha He H2. pose proof (blen_nonneg pre) as Hnn. subst buf.
  split; intros H0 H1; unfold UTF8CheckErrors;
    replace (blen pre >? e - 1) with false by lia;
    (rewrite (no_primary_error _ (blen pre) start e reason b0 3);
     [ | assumption | lia | lia | rd_known | class_by_range | lia
       | run_of_continuations ]);
    classify'; dump_window pre [b0; b1; b2] suf; reflexivity.
Qed.

Lemma X16_three_byte_classes_reported_witness :
  UTF8CheckErrors [x61; xe0; x80; x80] 1 0 4 ""
  = Ok (4, "Invalid 3-byte overlong found at 1: [11100000 10000000 10000000]" ++ endl)
  /\ UTF8CheckErrors [x61; xed; xa0; x80] 1 0 4 ""
     = Ok (4, "Invalid UTF-16 surrogate half found at 1: [11101101 10100000 10000000]" ++ endl).
Proof.
  split.
  - apply (proj1 (X16_three_byte_classes_reported [x61] [] xe0 x80 x80 0 4 ""
                    ltac:(by_evaluation) ltac:(by_evaluation) ltac:(by_evaluation)));
      by_evaluation.
  - apply (proj2 (X16_three_byte_classes_reported [x61] [] xed xa0 x80 0 4 ""
                    ltac:(by_evaluation) ltac:(by_evaluation) ltac:(by_evaluation)));
      by_evaluation.
Defined.

(** X17.  With three continuation bytes after it, a leading byte F0 whose
    second byte is 0x80-0x8F is reported as a 4-byte overlong, and a leading
    byte F5, F6 or F7 as a code point out of range (non-F4); the line shows
    the four octets and the cursor moves past all four. *)
Theorem X17_four_byte_classes_reported (pre suf : list byte) (b0 b1 b2 b3 : byte)
    (start e : Z) (reason : string) :
  let buf := (pre ++ b0 :: b1 :: b2 :: b3 :: suf)%list in
  addressable buf ->
  blen pre + 4 <= e <= blen buf ->
  spec_continuation b1 -> spec_continuation b2 -> spec_continuation b3 ->
  (u8 b0 = 0xF0 -> u8 b1 <= 0x8F ->
   UTF8CheckErrors buf (blen pre) start e reason
   = Ok (blen pre + 4,
         reason ++ "Invalid 4-byte overlong found at " ++ to_string (blen pre - start) ++ ": "
           ++ render_bytes [b0; b1; b2; b3] ++ endl))
  /\ (0xF5 <= u8 b0 <= 0xF7 ->
      UTF8CheckErrors buf (blen pre) start e reason
      = Ok (blen pre + 4,
            reason ++ "Invalid code point specified by 4-byte encoding (non-F4) at "
              ++ to_string (blen pre - start) ++ ": "
              ++ render_bytes [b0; b1; b2; b3] ++ endl)).
Proof.
  intros buf Ha He H1 H2 H3. pose proof (blen_nonneg pre) as Hnn. subst buf.
  pose proof H1 as H1'. unfold spec_continuation in H1'.
  split; intros H0; try intros H1''; unfold UTF8CheckErrors;
    replace (blen pre >? e - 1) with false by lia;
    (rewrite (no_primary_error _ (blen pre) start e reason b0 4);
     [ | assumption | lia | lia | rd_known | class_by_range | lia
       | run_of_continuations ]);
    classify'; dump_window pre [b0; b1; b2; b3] suf; reflexivity.
Qed.

Lemma X17_four_byte_classes_reported_witness :
  UTF8CheckErrors [x61; xf0; x80; x80; x80] 1 0 5 ""
  = Ok (5, "Invalid 4-byte overlong found at 1: [11110000 10000000 10000000 10000000]" ++ endl)
  /\ UTF8CheckErrors [x61; xf5; x80; x80; x80] 1 0 5 ""
     = Ok (5, "Invalid code point specified by 4-byte encoding (non-F4) at 1: [11110101 10000000 10000000 10000000]" ++ endl).
Proof.
  split.
  - apply (proj1 (X17_four_byte_classes_reported [x61] [] xf0 x80 x80 x80 0 5 ""
                    ltac:(by_evaluation) ltac:(by_evaluation) ltac:(by_evaluation)
                    ltac:(by_evaluation) ltac:(by_evaluation)));
      by_evaluation.
  - apply (proj2 (X17_four_byte_classes_reported [x61] [] xf5 x80 x80 x80 0 5 ""
                    ltac:(by_evaluation) ltac:(by_evaluation) ltac:(by_evaluation)
                    ltac:(by_evaluation) ltac:(by_evaluation)));
      by_evaluation.
Defined.

(** X18.  A leading byte F4 followed by three continuation bytes of which
    the first is 0x90 or more encodes a code point above U+10FFFF.
    [UTF8CheckErrors] reports it through the F4 class, moving past the four
    bytes, only when that byte is 0xBF; for 0x90-0xBE no class matches and
    it reports an unknown error and moves on by a single byte. *)
Theorem X18_F4_out_of_range_reporting (pre suf : list byte) (b0 b1 b2 b3 : byte)
    (start e : Z) (reason : string) :
  let buf := (pre ++ b0 :: b1 :: b2 :: b3 :: suf)%list in
  addressable buf ->
  blen pre + 4 <= e <= blen buf ->
  u8 b0 = 0xF4 -> 0x90 <= u8 b1 <= 0xBF ->
  spec_continuation b2 -> spec_continuation b3 ->
  (u8 b1 = 0xBF ->
   UTF8CheckErrors buf (blen pre) start e reason
   = Ok (blen pre + 4,
         reason ++ "Invalid code point specified by 4-byte encoding (F4) at "
           ++ to_string (blen pre - start) ++ ": "
           ++ render_bytes [b0; b1; b2; b3] ++ endl))
  /\ (u8 b1 <= 0xBE ->
      exists dump,
        UTF8CheckErrors buf (blen pre) start e reason
        = Ok (blen pre + 1,
              reason ++ "Unknown UTF-8 error: checked all known UTF-8 error classes, none of them matched at "
                ++ to_string (blen pre - start) ++ " (assumed length=1): " ++ dump ++ endl)).
Proof.
  intros buf Ha He H0 H1 H2 H3. pose proof (blen_nonneg pre) as Hnn.
  assert (Hb : 0 <= blen buf - blen pre)
    by (unfold buf; rewrite blen_app; pose proof (blen_nonneg (b0 :: b1 :: b2 :: b3 :: suf)); lia).
  subst buf.
  assert (Hprim : UTF8InvalidLeadingOrContinuation (pre ++ b0 :: b1 :: b2 :: b3 :: suf)
                    (blen pre) start e reason = Ok (false, blen pre, reason)).
  { apply (no_primary_error _ (blen pre) start e reason b0 4);
      [assumption|lia|lia|rd_known|class_by_range|lia|run_of_continuations]. }
  split; intros H1'.
  - unfold UTF8CheckErrors.
    replace (blen pre >? e - 1) with false by lia. rewrite Hprim. classify'.
    dump_window pre [b0; b1; b2; b3] suf. reflexivity.
  - destruct (UcharSeqToBinStr_ok (pre ++ b0 :: b1 :: b2 :: b3 :: suf) (blen pre)
                (to_size_t (if 16 <? e - blen pre then 16 else e - blen pre)))
      as [dump D]; [lia| | | ].
    + unfold to_size_t. apply Z.mod_pos_bound. reflexivity.
    + unfold addressable, SIZE_MOD in Ha.
      rewrite to_size_t_small by (destruct (16 <? e - blen pre); unfold SIZE_MOD; lia).
      destruct (16 <? e - blen pre) eqn:E; lia.
    + exists dump. unfold UTF8CheckErrors.
      replace (blen pre >? e - 1) with false by lia. rewrite Hprim. classify'.
      rewrite D. reflexivity.
Qed.

Lemma X18_F4_out_of_range_reporting_witness :
  UTF8CheckErrors [x61; xf4; xbf; x80; x80] 1 0 5 ""
  = Ok (5, "Invalid code point specified by 4-byte encoding (F4) at 1: [11110100 10111111 10000000 10000000]" ++ endl)
  /\ exists dump,
       UTF8CheckErrors [x61; xf4; x90; x80; x80] 1 0 5 ""
       = Ok (2, "Unknown UTF-8 error: checked all known UTF-8 error classes, none of them matched at 1 (assumed length=1): "
                  ++ dump ++ endl).
Proof.
  split.
  - apply (proj1 (X18_F4_out_of_range_reporting [x61] [] xf4 xbf x80 x80 0 5 ""
                    ltac:(by_evaluation) ltac:(by_evaluation) ltac:(by_evaluation)
                    ltac:(by_evaluation) ltac:(by_evaluation) ltac:(by_evaluation)));
      by_evaluation.
  - apply (proj2 (X18_F4_out_of_range_reporting [x61] [] xf4 x90 x80 x80 0 5 ""
                    ltac:(by_evaluation) ltac:(by_evaluation) ltac:(by_evaluation)
                    ltac:(by_evaluation) ltac:(by_evaluation) ltac:(by_evaluation)));
      by_evaluation.
Defined.

(** X19.  A control character (0x00-0x08, 0x0B, 0x0C, 0x0E-0x1F or 0x7F) is
    reported by [UTF8CheckErrors] as an invalid 1-byte sequence, with its
    octet, and the cursor moves past that byte only. *)
Theorem X19_control_char_reported (pre suf : list byte) (b0 : byte)
    (start e : Z) (reason : string) :
  let buf := (pre ++ b0 :: suf)%list in
  addressable buf ->
  blen pre + 1 <= e <= blen buf ->
  u8 b0 <= 0x08 \/ u8 b0 = 0x0B \/ u8 b0 = 0x0C \/ 0x0E <= u8 b0 <= 0x1F \/ u8 b0 = 0x7F ->
  UTF8CheckErrors buf (blen pre) start e reason
  = Ok (blen pre + 1,
        reason ++ "Invalid 1 byte sequence: control char found at "
          ++ to_string (blen pre - start) ++ ": " ++ render_bytes [b0] ++ endl).
Proof.
  intros buf Ha He H0. pose proof (blen_nonneg pre) as Hnn. subst buf.
  pose proof (u8_range b0).
  unfold UTF8CheckErrors. replace (blen pre >? e - 1) with false by lia.
  rewrite (no_primary_error _ (blen pre) start e reason b0 1);
    [ | assumption | lia | lia | rd_known | class_by_range | lia | intros j Hj; lia ].
  classify'. dump_window pre [b0] suf. reflexivity.
Qed.

Lemma X19_control_char_reported_witness :
  UTF8CheckErrors [x61; x07; x62] 1 0 3 ""
  = Ok (2, "Invalid 1 byte sequence: control char found at 1: [00000111]" ++ endl).
Proof.
  apply (X19_control_char_reported [x61] [x62] x07 0 3 ""); by_evaluation.
Defined.

Lemma rd_cons (b : byte) (l : list byte) (k : Z) :
  0 <= k -> rd (b :: l) (1 + k) = rd l k.
Proof.
  intros Hk. unfold rd.
  replace (1 + k <? 0) with false by lia. replace (k <? 0) with false by lia.
  replace (Z.to_nat (1 + k)) with (S (Z.to_nat k)) by lia. reflexivity.
Qed.

Lemma rd_app_left (l suf : list byte) (i : Z) :
  0 <= i < blen l -> rd (l ++ suf) i = rd l i.
Proof.
  intros H. unfold rd, blen in *. replace (i <? 0) with false by lia.
  now rewrite nth_error_app1 by lia.
Qed.

Lemma continuation_run_layout (pre mid tail : list byte) (b0 : byte) :
  Forall spec_continuation mid ->
  continuation_run (pre ++ b0 :: mid ++ tail) (blen pre) 1 (1 + blen mid).
Proof.
  intros Hmid j Hj.
  assert (R : rd (pre ++ b0 :: mid ++ tail) (blen pre + j) = rd mid (j - 1)).
  { rewrite rd_app_r by lia. replace j with (1 + (j - 1)) at 1 by lia.
    rewrite rd_cons by lia. apply rd_app_left. lia. }
  destruct (rd_in mid (j - 1)) as (b & Hn & Hb); [lia|].
  apply (continuation_at _ _ b); [now rewrite R|].
  rewrite Forall_forall in Hmid. apply Hmid. eapply nth_error_In; eauto.
Qed.

Lemma rd_layout_after (pre mid rest : list byte) (b0 x : byte) :
  rd (pre ++ b0 :: mid ++ x :: rest) (blen pre + (1 + blen mid)) = Ok (u8 x).
Proof.
  pose proof (blen_nonneg mid).
  rewrite rd_app_r by lia. rewrite rd_cons by lia. now rewrite rd_app_0.
Qed.

(** X20.  At a byte that cannot lead a character (0x80-0xBF, 0xF8-0xFF)
    [UTF8CheckErrors] logs an invalid leading byte and skips the length it
    assumes for it (1, 5 or 6 bytes), or what is left of the buffer when
    that is less, marking the end of the buffer in the line.  The bytes it
    skips after the first are not examined, whatever they are. *)
Theorem X20_invalid_leading_byte_skips_assumed_length (pre w suf : list byte) (b0 : byte)
    (L start e : Z) (reason : string) :
  let buf := (pre ++ (b0 :: w) ++ suf)%list in
  addressable buf ->
  blen pre < e <= blen buf ->
  leading_byte_class (u8 b0) = (false, L) ->
  1 + blen w = Z.min L (e - blen pre) ->
  UTF8CheckErrors buf (blen pre) start e reason
  = Ok (blen pre + (1 + blen w),
        reason ++ "Invalid leading byte found at " ++ to_string (blen pre - start)
          ++ " (assumed length=" ++ to_string L ++ "): " ++ render_bytes (b0 :: w)
          ++ (if L >? e - blen pre then "<end-of-buffer>" else "") ++ endl).
Proof.
  intros buf Ha He Hcls Hw. pose proof (blen_nonneg pre) as Hnn.
  pose proof (UcharSeqToBinStr_window pre (b0 :: w) suf) as D. rewrite blen_cons in D.
  subst buf. unfold addressable, SIZE_MOD in Ha.
  unfold UTF8CheckErrors. replace (blen pre >? e - 1) with false by lia.
  unfold UTF8InvalidLeadingOrContinuation.
  rewrite (UTF8IsValidLeadingByte_rd _ _ b0) by (cbn [app]; rd_known).
  rewrite Hcls. cbn [bind negb].
  rewrite (to_size_t_small (e - blen pre)) by (unfold SIZE_MOD; lia).
  destruct (L >? e - blen pre) eqn:G.
  - replace (e - blen pre) with (1 + blen w) by lia. rewrite D. reflexivity.
  - assert (L = 1 + blen w) as -> by lia. rewrite D. reflexivity.
Qed.

Lemma X20_invalid_leading_byte_skips_assumed_length_witness :
  UTF8CheckErrors [x61; xfc; x62; x63; x64; x65; x66] 1 0 7 ""
  = Ok (7, "Invalid leading byte found at 1 (assumed length=6): [11111100 01100010 01100011 01100100 01100101 01100110]" ++ endl)
  /\ UTF8CheckErrors [x61; xfc; x62; x63] 1 0 4 ""
     = Ok (4, "Invalid leading byte found at 1 (assumed length=6): [11111100 01100010 01100011]<end-of-buffer>" ++ endl).
Proof.
  split.
  - apply (X20_invalid_leading_byte_skips_assumed_length
             [x61] [x62; x63; x64; x65; x66] [] xfc 6 0 7 ""); by_evaluation.
  - apply (X20_invalid_leading_byte_skips_assumed_length
             [x61] [x62; x63] [] xfc 6 0 4 ""); by_evaluation.
Defined.

(** X21.  A valid leading byte of a character longer than what is left of
    the buffer, followed by continuation bytes only, is reported by
    [UTF8CheckErrors] as a possible truncation, with the octets that are
    left and an end-of-buffer mark, and the cursor moves to the end of the
    buffer. *)
Theorem X21_truncated_sequence_reported (pre w suf : list byte) (b0 : byte)
    (L start : Z) (reason : string) :
  let buf := (pre ++ (b0 :: w) ++ suf)%list in
  let e := blen pre + (1 + blen w) in
  addressable buf ->
  leading_byte_class (u8 b0) = (true, L) ->
  1 + blen w < L ->
  Forall spec_continuation w ->
  UTF8CheckErrors buf (blen pre) start e reason
  = Ok (e,
        reason ++ "Invalid nr of continuation bytes after leading byte [possible truncation] at "
          ++ to_string (blen pre - start) ++ ": " ++ render_bytes (b0 :: w)
          ++ "<end-of-buffer>" ++ endl).
Proof.
  intros buf e Ha Hcls HL Hw.
  pose proof (blen_nonneg pre) as Hnn. pose proof (blen_nonneg w) as Hnw.
  pose proof (blen_nonneg suf) as Hns.
  pose proof (leading_byte_class_valid_len _ _ Hcls) as HLr.
  pose proof (UcharSeqToBinStr_window pre (b0 :: w) suf) as D. rewrite blen_cons in D.
  pose proof (continuation_run_layout pre w suf b0 Hw) as Hrun.
  assert (Hlen : blen buf = blen pre + (1 + blen w) + blen suf).
  { unfold buf. rewrite !blen_app, blen_cons. lia. }
  subst buf e. cbn [app] in *. unfold addressable, SIZE_MOD in Ha.
  unfold UTF8CheckErrors. replace (blen pre >? blen pre + (1 + blen w) - 1) with false by lia.
  unfold UTF8InvalidLeadingOrContinuation.
  rewrite (UTF8IsValidLeadingByte_rd _ _ b0) by rd_known.
  rewrite Hcls. cbn [bind negb].
  replace (blen pre + (1 + blen w) - blen pre) with (1 + blen w) by lia.
  rewrite (to_size_t_small (1 + blen w)) by (unfold SIZE_MOD; lia).
  rewrite (to_size_t_small (L - 1)) by (unfold SIZE_MOD; lia).
  destruct (UTF8InvalidNrOfContinuationBytes_spec (pre ++ b0 :: w ++ suf) (blen pre)
              (L - 1) (1 + blen w) false None)
    as (m' & w' & -> & Hcase); try (unfold SIZE_MOD; lia).
  cbn [bind]. replace (L - 1 + 1) with L in * by lia.
  replace (L >? 1 + blen w) with true in * by lia.
  rewrite Z.min_l in Hcase by lia. rewrite D. cbn [bind].
  destruct Hcase as [(-> & -> & _)|(j & Hj & -> & -> & Hbad & _)].
  - reflexivity.
  - rewrite (Hrun j Hj) in Hbad. discriminate Hbad.
Qed.

Lemma X21_truncated_sequence_reported_witness :
  UTF8CheckErrors [x61; xe2; x82] 1 0 3 ""
  = Ok (3, "Invalid nr of continuation bytes after leading byte [possible truncation] at 1: [11100010 10000010]<end-of-buffer>" ++ endl).
Proof.
  apply (X21_truncated_sequence_reported [x61] [x82] [] xe2 3 0 "").
  - by_evaluation.
  - reflexivity.
  - by_evaluation.
  - repeat constructor; by_evaluation.
Defined.

(** X22.  A valid leading byte whose continuation bytes are cut short by a
    byte that is not one is reported by [UTF8CheckErrors] as an unexpected
    non-continuation byte, and the cursor moves to that byte, not past it:
    the scan goes on from the offending byte. *)
Theorem X22_mismatch_resumes_at_offending_byte (pre mid rest : list byte) (b0 bad : byte)
    (L start e : Z) (reason : string) :
  let buf := (pre ++ b0 :: mid ++ bad :: rest)%list in
  addressable buf ->
  blen pre + L <= e <= blen buf ->
  leading_byte_class (u8 b0) = (true, L) ->
  1 + blen mid < L ->
  Forall spec_continuation mid ->
  ~ spec_continuation bad ->
  exists dump,
    UTF8CheckErrors buf (blen pre) start e reason
    = Ok (blen pre + (1 + blen mid),
          reason ++ "Invalid nr of continuation bytes after leading byte [unexpected non-continuation byte] at "
            ++ to_string (blen pre - start) ++ ": " ++ dump ++ endl).
Proof.
  intros buf Ha He Hcls HL Hmid Hbad.
  pose proof (blen_nonneg pre) as Hnn. pose proof (blen_nonneg mid) as Hnm.
  pose proof (leading_byte_class_valid_len _ _ Hcls) as HLr.
  pose proof (continuation_run_layout pre mid (bad :: rest) b0 Hmid) as Hrun.
  assert (Hoff : UTF8IsContinuationByte buf (blen pre + (1 + blen mid)) = Ok false).
  { unfold buf. rewrite (UTF8IsContinuationByte_view _ _ (u8 bad))
      by apply rd_layout_after.
    rewrite land_C0_range. unfold spec_continuation in Hbad. f_equal. lia. }
  subst buf. unfold addressable, SIZE_MOD in Ha.
  destruct (UcharSeqToBinStr_ok (pre ++ b0 :: mid ++ bad :: rest) (blen pre) L)
    as [dump D]; try lia.
  exists dump.
  unfold UTF8CheckErrors. replace (blen pre >? e - 1) with false by lia.
  unfold UTF8InvalidLeadingOrContinuation.
  rewrite (UTF8IsValidLeadingByte_rd _ _ b0) by rd_known.
  rewrite Hcls. cbn [bind negb].
  rewrite (to_size_t_small (e - blen pre)) by (unfold SIZE_MOD; lia).
  rewrite (to_size_t_small (L - 1)) by (unfold SIZE_MOD; lia).
  destruct (UTF8InvalidNrOfContinuationBytes_spec (pre ++ b0 :: mid ++ bad :: rest) (blen pre)
              (L - 1) (e - blen pre) false None)
    as (m' & w' & -> & Hcase); try (unfold SIZE_MOD; lia).
  cbn [bind]. replace (L - 1 + 1) with L in * by lia.
  replace (L >? e - blen pre) with false in * by lia.
  rewrite Z.min_r in Hcase by lia.
  destruct Hcase as [(-> & -> & Hall)|(j & Hj & -> & -> & Hbadj & Hbefore)].
  - rewrite (Hall (1 + blen mid)) in Hoff by lia. discriminate Hoff.
  - assert (j = 1 + blen mid) as ->.
    { destruct (Z.lt_trichotomy j (1 + blen mid)) as [Hlt|[Heq|Hgt]]; [|exact Heq|].
      - rewrite (Hrun j) in Hbadj by lia. discriminate Hbadj.
      - rewrite (Hbefore (1 + blen mid)) in Hoff by lia. discriminate Hoff. }
    rewrite D. reflexivity.
Qed.

Lemma X22_mismatch_resumes_at_offending_byte_witness :
  exists dump,
    UTF8CheckErrors [x61; xe2; x82; x41; x42] 1 0 5 ""
    = Ok (3, "Invalid nr of continuation bytes after leading byte [unexpected non-continuation byte] at 1: "
               ++ dump ++ endl).
Proof.
  apply (X22_mismatch_resumes_at_offending_byte [x61] [x82] [x42] xe2 x41 3 0 5 "").
  - by_evaluation.
  - by_evaluation.
  - reflexivity.
  - by_evaluation.
  - repeat constructor; by_evaluation.
  - by_evaluation.
Defined.

(** ** C9 *)




